(** * automated-bio-art-bot: a Rocq model of the server and its properties

    The repository holds three versions of one Express server that turns a
    prompt into a 48 x 32 grid of palette indices and replays that grid on
    ginkgoartworks.com with puppeteer:

    - [ServerJs]: src/server.js (DALL-E, white background, /preview + /publish);
    - [BlackBg]: the first file of src/unnamed/part_000 (DALL-E, black
      background, fail-fast on a page without grid cells);
    - [Pollinations]: the second file of src/unnamed/part_000 (pollinations.ai,
      a single /generate route, lowest-on-screen Publish button).

    Code the three versions share textually (colorDistance, findClosestColor,
    fetchImage, the paint loop) is modelled once, over the palette as a
    parameter.  JavaScript numbers that hold integers below 2^53 are [Z] or
    [nat]; the one inexact operation on them, [Math.sqrt], is the binary64
    square root of Rocq's primitive floats.  Awaited browser calls run in a
    small exception monad that records every call in a trace and asks the
    modelled site whether the call rejects. *)

From Stdlib Require Import ZArith List Lia Bool String Ascii DecimalString.
From Stdlib Require Import Floats Uint63 Reals.
From stdpp Require Import base option list strings gmap.
Import ListNotations.

Local Open Scope Z_scope.

(* ================================================================== *)
(** * JavaScript values used by the server *)
(* ================================================================== *)

(** A thrown value.  [JsError msg] is [new Error(msg)]; [TypeError] is the
    engine's error for a property read on [undefined]. *)
Inductive error : Type :=
| JsError (message : string)
| TypeError.

(** The double that holds the integer [z] (exact for [0 <= z < 2^53]). *)
Definition float_of_Z (z : Z) : float := PrimFloat.of_uint63 (Uint63.of_Z z).

(** A template literal's rendering of an integer-valued number. *)
Definition string_of_nat (n : nat) : string := NilZero.string_of_uint (Nat.to_uint n).
Definition string_of_Z (z : Z) : string := NilZero.string_of_int (Z.to_int z).

(** [s.startsWith(p)] and [s.includes(p)]. *)
Definition startsWith (s p : string) : bool := String.prefix p s.

Fixpoint includes (s p : string) : bool :=
  String.prefix p s ||
  match s with
  | EmptyString => false
  | String _ s' => includes s' p
  end.

(** A JavaScript string is truthy when it is not empty. *)
Definition truthy (s : string) : bool :=
  match s with EmptyString => false | String _ _ => true end.

(** The double-quote character of the SVG markup. *)
Definition dq : string := String (ascii_of_nat 34) EmptyString.

(* ================================================================== *)
(** * The palette and the nearest-colour classifier *)
(* ================================================================== *)

Definition GRID_COLS : nat := 48.
Definition GRID_ROWS : nat := 32.

Record PaletteEntry : Type := mkEntry {
  name : string;
  hex : string;
  rgb : Z * Z * Z
}.

(** The eleven paint colours, PALETTE[1..11] in all three versions. *)
Definition PAINTS : list PaletteEntry :=
  [ mkEntry "sfGFP" "#1fea5c" (31, 234, 92);
    mkEntry "mRFP1" "#8f2438" (143, 36, 56);
    mkEntry "mKO2" "#b39223" (179, 146, 35);
    mkEntry "Venus" "#6ad500" (106, 213, 0);
    mkEntry "Azurite" "#3867ae" (56, 103, 174);
    mkEntry "mClover3" "#409945" (64, 153, 69);
    mkEntry "mJuniper" "#1c978d" (28, 151, 141);
    mkEntry "mTurquoise2" "#13AEA7" (19, 174, 167);
    mkEntry "Electra2" "#1C58C6" (28, 88, 198);
    mkEntry "mWasabi" "#009349" (0, 147, 73);
    mkEntry "mScarlet_I" "#b9474b" (185, 71, 75) ].

(** A channel value read from the raw pixel buffer: [data[idx]] is a byte,
    or [undefined] (here [None]) past the end of the buffer. *)
Abbreviation channel := (option Z).

(** The integer under the square root of [colorDistance].  Differences,
    squares and the sum are integers below 2^53, so the doubles hold them
    exactly. *)
Definition sqdist (r1 g1 b1 r2 g2 b2 : Z) : Z :=
  (r1 - r2) ^ 2 + (g1 - g2) ^ 2 + (b1 - b2) ^ 2.

(** [Math.sqrt((r1-r2)**2 + (g1-g2)**2 + (b1-b2)**2)]; arithmetic on
    [undefined] gives NaN. *)
Definition colorDistance (r1 g1 b1 : channel) (r2 g2 b2 : Z) : float :=
  match r1, g1, b1 with
  | Some r1, Some g1, Some b1 =>
      PrimFloat.sqrt (float_of_Z (sqdist r1 g1 b1 r2 g2 b2))
  | _, _, _ => nan
  end.

(** The loop [for (i = start; i < PALETTE.length; i++)] over the entries
    [pal] that remain, with its two mutable variables. *)
Fixpoint closest_loop (r g b : channel) (pal : list PaletteEntry) (i : nat)
    (minDist : float) (closest : nat) : nat :=
  match pal with
  | [] => closest
  | e :: rest =>
      let '(pr, pg, pb) := rgb e in
      let dist := colorDistance r g b pr pg pb in
      if PrimFloat.ltb dist minDist
      then closest_loop r g b rest (S i) dist i
      else closest_loop r g b rest (S i) minDist closest
  end.

Section Classifier.
Variable PALETTE : list PaletteEntry.

Definition findClosestColor (r g b : channel) : nat :=
  closest_loop r g b PALETTE 0 infinity 0.

End Classifier.

(* ================================================================== *)
(** * fetchImage: the redirect-following download *)
(* ================================================================== *)

(** What the response stream does after the headers: it ends after
    delivering [chunks], or it emits 'error'. *)
Inductive stream : Type :=
| StreamEnd (chunks : list string)
| StreamError (e : error).

Record response : Type := mkResponse {
  statusCode : Z;
  location : option string;      (* res.headers.location *)
  body : stream
}.

(** [client.get(url, ...)]: the request emits 'error', or the callback
    receives a response. *)
Inductive get_result : Type :=
| GetError (e : error)
| GetResponse (res : response).

(** How the promise returned by [fetchImage] ends.  [Unsettled] is the case
    in which [new URL(...)] throws inside the response callback: nothing
    settles the promise. *)
Inductive fetched : Type :=
| Resolved (buf : string)
| Rejected (e : error)
| Unsettled.

Definition is_redirect (res : response) : bool :=
  (300 <=? statusCode res) && (statusCode res <? 400) &&
  match location res with Some loc => truthy loc | None => false end.

Section Fetch.
(** The two node clients, and [new URL(location, url).href] ([None] when
    the constructor throws). *)
Variables http_get https_get : string -> get_result.
Variable resolve_href : string -> string -> option string.

Definition client_get (url : string) : get_result :=
  if startsWith url "https" then https_get url else http_get url.

Definition newUrl (url loc : string) : option string :=
  if startsWith loc "http" then Some loc else resolve_href loc url.

(** [maxRedirects] only ever counts down from the default 5, so it is a
    [nat] and [maxRedirects <= 0] is the case [O]. *)
Fixpoint fetchImage (url : string) (maxRedirects : nat) : fetched :=
  match maxRedirects with
  | O => Rejected (JsError "Too many redirects")
  | S budget =>
      match client_get url with
      | GetError e => Rejected e
      | GetResponse res =>
          if is_redirect res then
            match newUrl url (default EmptyString (location res)) with
            | Some url' => fetchImage url' budget
            | None => Unsettled
            end
          else if negb (statusCode res =? 200) then
            Rejected (JsError ("HTTP " +:+ string_of_Z (statusCode res)))
          else
            match body res with
            | StreamEnd chunks => Resolved (String.concat "" chunks)
            | StreamError e => Rejected e
            end
      end
  end.

Definition DEFAULT_REDIRECTS : nat := 5.

(** [url] answers with a redirect that the code follows to [url']. *)
Definition redirects_to (url url' : string) : Prop :=
  exists res, client_get url = GetResponse res /\ is_redirect res = true /\
              newUrl url (default EmptyString (location res)) = Some url'.

(** A chain of [n] redirects leads from [url] to [final]. *)
Fixpoint redirect_chain (n : nat) (url final : string) : Prop :=
  match n with
  | O => url = final
  | S k => exists mid, redirects_to url mid /\ redirect_chain k mid final
  end.

End Fetch.

(* ================================================================== *)
(** * Grids, the quantizer and the preview *)
(* ================================================================== *)

(** The grid: the JavaScript array of rows that [imageToGrid] builds. *)
Abbreviation Grid := (list (list nat)).

Local Open Scope nat_scope.

(** A [for] loop over the indices [idxs] whose body appends [f i] to an
    accumulator, or throws ([None]). *)
Fixpoint collect {A : Type} (f : nat -> option (list A)) (idxs : list nat)
    : option (list A) :=
  match idxs with
  | [] => Some []
  | i :: rest =>
      match f i with
      | None => None
      | Some l =>
          match collect f rest with
          | None => None
          | Some l' => Some (l ++ l')
          end
      end
  end.

(** The two nested loops [for y < GRID_ROWS] [for x < GRID_COLS] reading
    [grid[y][x]]: [grid[y]] must exist (a read on [undefined] throws), and
    the body sees [grid[y][x]], which is [undefined] ([None]) in a short row. *)
Definition scan_grid {A : Type} (grid : Grid)
    (body : nat -> nat -> option nat -> option (list A)) : option (list A) :=
  collect (fun y =>
    match grid !! y with
    | None => None
    | Some row => collect (fun x => body y x (row !! x)) (seq 0 GRID_COLS)
    end) (seq 0 GRID_ROWS).

(** What sharp hands back from [.raw().toBuffer({ resolveWithObject: true })]:
    the bytes and [info.channels]. *)
Record RawImage : Type := mkRaw {
  data : list Z;
  channels : nat
}.

(** The grid built by the two nested loops from a per-cell value. *)
Definition build_grid (cell : nat -> nat -> nat) : Grid :=
  map (fun y => map (fun x => cell y x) (seq 0 GRID_COLS)) (seq 0 GRID_ROWS).

(** One rectangle of the preview, and its markup. *)
Record rect : Type := mkRect {
  rect_x : nat;
  rect_y : nat;
  rect_width : nat;
  rect_height : nat;
  rect_fill : string
}.

Definition attr (key value : string) : string :=
  " " +:+ key +:+ "=" +:+ dq +:+ value +:+ dq.

Definition rect_markup (r : rect) : string :=
  "<rect" +:+ attr "x" (string_of_nat (rect_x r))
          +:+ attr "y" (string_of_nat (rect_y r))
          +:+ attr "width" (string_of_nat (rect_width r))
          +:+ attr "height" (string_of_nat (rect_height r))
          +:+ attr "fill" (rect_fill r) +:+ "/>".

Definition cellSize : nat := 10.

Definition svg_open : string :=
  "<svg" +:+ attr "xmlns" "http://www.w3.org/2000/svg"
         +:+ attr "width" (string_of_nat (GRID_COLS * cellSize))
         +:+ attr "height" (string_of_nat (GRID_ROWS * cellSize)) +:+ ">".

Definition svg_close : string := "</svg>".

(** The rectangle of cell (x, y) filled with PALETTE[c].hex; reading [.hex]
    of a missing entry throws. *)
Definition cell_rect (PALETTE : list PaletteEntry) (y x c : nat)
    : option (list rect) :=
  match PALETTE !! c with
  | None => None
  | Some e =>
      Some [mkRect (x * cellSize) (y * cellSize) cellSize cellSize (hex e)]
  end.

(** [r > 240] on a channel; [undefined > 240] is false. *)
Definition gt240 (c : channel) : bool :=
  match c with Some v => (240 <? v)%Z | None => false end.

(** [(r + g + b) / 3]. *)
Definition brightness (r g b : channel) : float :=
  match r, g, b with
  | Some r, Some g, Some b =>
      PrimFloat.div (float_of_Z (r + g + b)) (float_of_Z 3)
  | _, _, _ => nan
  end.

(** ** src/server.js *)
Module ServerJs.

Definition PALETTE : list PaletteEntry :=
  mkEntry "erase" "#ffffff" (255, 255, 255)%Z :: PAINTS.

Definition quantize (raw : RawImage) (y x : nat) : nat :=
  let idx := (y * GRID_COLS + x) * channels raw in
  let r := data raw !! idx in
  let g := data raw !! (idx + 1) in
  let b := data raw !! (idx + 2) in
  if gt240 r && gt240 g && gt240 b then 0
  else findClosestColor PALETTE r g b.

(** [sharp_raw] is the awaited sharp pipeline (resize to 48 x 32, median,
    raw); it rejects or yields the raw image. *)
Definition imageToGrid (sharp_raw : string -> error + RawImage)
    (imageBuffer : string) : error + Grid :=
  match sharp_raw imageBuffer with
  | inl e => inl e
  | inr raw => inr (build_grid (quantize raw))
  end.

(** The rectangles appended by the loops of [gridToSvg], in order. *)
Definition svg_rects (grid : Grid) : option (list rect) :=
  scan_grid grid (fun y x cell =>
    match cell with
    | None => None                       (* PALETTE[undefined].hex throws *)
    | Some c => cell_rect PALETTE y x c
    end).

Definition gridToSvg (grid : Grid) : error + string :=
  match svg_rects grid with
  | None => inl TypeError
  | Some rs =>
      inr (svg_open +:+ String.concat "" (map rect_markup rs) +:+ svg_close)
  end.

End ServerJs.

(** ** src/unnamed/part_000, first file (black background) *)
Module BlackBg.

Definition PALETTE : list PaletteEntry :=
  mkEntry "empty" "#000000" (0, 0, 0)%Z :: PAINTS.

Definition quantize (raw : RawImage) (y x : nat) : nat :=
  let idx := (y * GRID_COLS + x) * channels raw in
  let r := data raw !! idx in
  let g := data raw !! (idx + 1) in
  let b := data raw !! (idx + 2) in
  if PrimFloat.ltb (brightness r g b) (float_of_Z 30) then 0
  else closest_loop r g b (drop 1 PALETTE) 1 infinity 0.

Definition imageToGrid (sharp_raw : string -> error + RawImage)
    (imageBuffer : string) : error + Grid :=
  match sharp_raw imageBuffer with
  | inl e => inl e
  | inr raw => inr (build_grid (quantize raw))
  end.

(** The backdrop rectangle, which carries no position. *)
Definition backdrop : string :=
  "<rect" +:+ attr "width" "100%" +:+ attr "height" "100%"
          +:+ attr "fill" "#000000" +:+ "/>".

(** The positioned rectangles appended by the loops of [gridToSvg]. *)
Definition svg_rects (grid : Grid) : option (list rect) :=
  scan_grid grid (fun y x cell =>
    match cell with
    | None => Some []                    (* undefined > 0 is false *)
    | Some c => if 0 <? c then cell_rect PALETTE y x c else Some []
    end).

Definition gridToSvg (grid : Grid) : error + string :=
  match svg_rects grid with
  | None => inl TypeError
  | Some rs =>
      inr (svg_open +:+ backdrop +:+ String.concat "" (map rect_markup rs)
                    +:+ svg_close)
  end.

End BlackBg.

(** ** src/unnamed/part_000, second file (pollinations.ai) *)
Module Pollinations.

Definition PALETTE : list PaletteEntry := ServerJs.PALETTE.

Definition quantize (raw : RawImage) (y x : nat) : nat :=
  let idx := (y * GRID_COLS + x) * channels raw in
  let r := data raw !! idx in
  let g := data raw !! (idx + 1) in
  let b := data raw !! (idx + 2) in
  findClosestColor PALETTE r g b.

Definition imageToGrid (sharp_raw : string -> error + RawImage)
    (imageBuffer : string) : error + Grid :=
  match sharp_raw imageBuffer with
  | inl e => inl e
  | inr raw => inr (build_grid (quantize raw))
  end.

End Pollinations.

(* ================================================================== *)
(** * The browser session *)
(* ================================================================== *)

(** Every awaited puppeteer call, as it appears in the trace.  The delays
    ([setTimeout]) and the [console.log] calls are not recorded. *)
Inductive action : Type :=
| Launch                      (* puppeteer.launch(...) *)
| NewPage                     (* browser.newPage() *)
| SetViewport                 (* page.setViewport(...) *)
| Goto                        (* page.goto('https://ginkgoartworks.com/') *)
| QueryCells                  (* page.$$('#grid-container input[type=checkbox]') *)
| QuerySwatches               (* page.$$('div[role=radio]') *)
| ClickSwatch (colorIdx : nat)
| ClickCell (idx : nat)
| QueryButtons                (* page.$$('button') *)
| ReadText (i : nat)          (* btn.evaluate(el => el.textContent) *)
| ReadBox (i : nat)           (* btn.boundingBox() *)
| ClickButton (i : nat)
| EvalPublish                 (* page.evaluate(...) that clicks a button *)
| QueryTitleInput             (* page.$('input[type=text]') *)
| ClickTitle                  (* titleInput.click({ clickCount: 3 }) *)
| TypeTitle (text : string)
| QueryLinks                  (* page.$$('a') *)
| ReadHref (i : nat)          (* link.evaluate(el => el.href) *)
| EvalLinks                   (* page.evaluate(...) that scans the links *)
| Close.                      (* browser.close() *)

Record button : Type := mkButton {
  textContent : string;
  box_y : option float          (* boundingBox(): null, or a box with this y *)
}.

(** The target site and the browser, as far as the replay observes them.
    [fault h a] tells whether the awaited call [a], made after the calls
    [h], rejects. *)
Record site : Type := mkSite {
  fault : list action -> action -> option error;
  cells_found : nat;              (* number of cell checkboxes found *)
  swatches_found : nat -> nat;    (* number of swatches found when queried
                                     while painting colour colorIdx *)
  trigger_buttons : list button;  (* the buttons before the first Publish *)
  confirm_buttons : list button;  (* the buttons once the title is typed *)
  title_input : bool;             (* whether a text input exists *)
  links : list string             (* the href of every <a> *)
}.

(** A computation made of awaited calls: from the calls made so far to the
    calls it makes and its outcome. *)
Definition M (A : Type) : Type := list action -> list action * (error + A).

Definition ret {A : Type} (a : A) : M A := fun _ => ([], inr a).

Definition throw {A : Type} (e : error) : M A := fun _ => ([], inl e).

Definition bind {A B : Type} (m : M A) (k : A -> M B) : M B := fun h =>
  match m h with
  | (es, inl e) => (es, inl e)
  | (es, inr a) => let '(es', r) := k a (h ++ es) in (es ++ es', r)
  end.

(** [try { m } catch (err) { handler err }]. *)
Definition try_catch {A : Type} (m : M A) (handler : error -> M A) : M A :=
  fun h =>
  match m h with
  | (es, inl e) => let '(es', r) := handler e (h ++ es) in (es ++ es', r)
  | (es, inr a) => (es, inr a)
  end.

(** [await a]: the call is made, then it rejects or returns. *)
Definition await (s : site) (a : action) : M unit := fun h =>
  ([a], match fault s h a with Some e => inl e | None => inr tt end).

(** A DOM click made inside [page.evaluate]. *)
Definition emit (a : action) : M unit := fun _ => ([a], inr tt).

Notation "x <~ m ;; k" := (bind m (fun x => k))
  (at level 62, m at next level, right associativity).
Notation "m ;;; k" := (bind m (fun _ => k))
  (at level 62, right associativity).

Fixpoint for_each {A : Type} (l : list A) (body : A -> M unit) : M unit :=
  match l with
  | [] => ret tt
  | x :: rest => body x ;;; for_each rest body
  end.

(** The calls made and the outcome of a whole run. *)
Definition run {A : Type} (m : M A) : list action * (error + A) := m [].

(** ** The paint loop, the same text in the three versions *)

(** The inner loops that fill [pixels] for one colour. *)
Definition pixels_of (grid : Grid) (colorIdx : nat) : option (list nat) :=
  scan_grid grid (fun y x cell =>
    Some (if decide (cell = Some colorIdx) then [y * GRID_COLS + x] else [])).

Definition paint_color (s : site) (grid : Grid) (colorIdx : nat) : M unit :=
  match pixels_of grid colorIdx with
  | None => throw TypeError
  | Some [] => ret tt                                     (* continue *)
  | Some pixels =>
      await s QuerySwatches ;;;
      (if colorIdx <? swatches_found s colorIdx
       then await s (ClickSwatch colorIdx) else ret tt) ;;;
      for_each pixels (fun idx =>
        if idx <? cells_found s then await s (ClickCell idx) else ret tt)
  end.

Definition paint (PALETTE : list PaletteEntry) (s : site) (grid : Grid)
    : M unit :=
  for_each (seq 1 (length PALETTE - 1)) (paint_color s grid).

(** ** The publish steps *)

(** [for (const btn of btns) { txt = await ...; if (txt.includes('Publish'))
    { await btn.click(); break; } }] *)
Fixpoint click_first_publish (s : site) (btns : list button) (i : nat)
    : M unit :=
  match btns with
  | [] => ret tt
  | b :: rest =>
      await s (ReadText i) ;;;
      if includes (textContent b) "Publish" then await s (ClickButton i)
      else click_first_publish s rest (S i)
  end.

(** The scan that keeps the matching button with the greatest [box.y]. *)
Fixpoint lowest_publish (s : site) (btns : list button) (i : nat)
    (maxY : float) (best : option nat) : M (option nat) :=
  match btns with
  | [] => ret best
  | b :: rest =>
      await s (ReadText i) ;;;
      if includes (textContent b) "Publish" then
        await s (ReadBox i) ;;;
        match box_y b with
        | Some y =>
            if PrimFloat.ltb maxY y
            then lowest_publish s rest (S i) y (Some i)
            else lowest_publish s rest (S i) maxY best
        | None => lowest_publish s rest (S i) maxY best
        end
      else lowest_publish s rest (S i) maxY best
  end.

(** The indices, in document order, of the buttons whose text contains
    'Publish' ([btns.filter(...)]). *)
Definition publish_indices (btns : list button) : list nat :=
  List.filter (fun i =>
    match btns !! i with
    | Some b => includes (textContent b) "Publish"
    | None => false
    end) (seq 0 (length btns)).

(** [for (const link of links) { href = await ...; if (href &&
    href.includes(host)) { url = href; break; } }] *)
Fixpoint first_link (s : site) (host : string) (hrefs : list string)
    (i : nat) : M (option string) :=
  match hrefs with
  | [] => ret None
  | href :: rest =>
      await s (ReadHref i) ;;;
      if truthy href && includes href host then ret (Some href)
      else first_link s host rest (S i)
  end.

(** [links.find(l => l.href && l.href.includes(host))]. *)
Definition find_link (host : string) (hrefs : list string) : option string :=
  List.find (fun href => truthy href && includes href host) hrefs.

(** ** drawAndPublish, src/server.js

    In each version [publish] is the part of the try block after the paint
    loop, up to the scraped URL; [replay] is the try block up to there;
    [drawAndPublish] adds the launch, the page, the two [browser.close()]
    calls and the catch clause. *)
Module ServerJsReplay.
Import ServerJs.

Definition publish (s : site) (title : string) : M (option string) :=
  await s QueryButtons ;;;
  click_first_publish s (trigger_buttons s) 0 ;;;
  await s QueryTitleInput ;;;
  (if title_input s && truthy title
   then await s ClickTitle ;;; await s (TypeTitle title)
   else ret tt) ;;;
  await s QueryButtons ;;;
  click_first_publish s (confirm_buttons s) 0 ;;;
  await s QueryLinks ;;;
  first_link s "opentrons-art" (links s) 0.

Definition replay (s : site) (grid : Grid) (title : string)
    : M (option string) :=
  await s Goto ;;;
  await s QueryCells ;;;
  paint PALETTE s grid ;;;
  publish s title.

Definition drawAndPublish (s : site) (grid : Grid) (title : string)
    : M (option string) :=
  await s Launch ;;;
  await s NewPage ;;;
  try_catch
    (url <~ replay s grid title ;;
     await s Close ;;;
     ret url)
    (fun err => await s Close ;;; throw err).

End ServerJsReplay.

(** ** drawAndPublish, first file of src/unnamed/part_000 *)
Module BlackBgReplay.
Import BlackBg.

(** [btns.find(b => b.textContent.includes('Publish'))], then a click. *)
Definition click_found_publish (btns : list button) : M unit :=
  match publish_indices btns with
  | [] => ret tt
  | i :: _ => emit (ClickButton i)
  end.

(** [pubs.length > 1 ? pubs[pubs.length - 1] : pubs[0]], then a click. *)
Definition click_modal_publish (btns : list button) : M unit :=
  let pubs := publish_indices btns in
  if 1 <? length pubs then
    match pubs !! (length pubs - 1) with
    | Some i => emit (ClickButton i)
    | None => ret tt
    end
  else if length pubs =? 1 then
    match pubs !! 0 with
    | Some i => emit (ClickButton i)
    | None => ret tt
    end
  else ret tt.

Definition NO_CELLS : string :=
  "No grid cells found - page may not have loaded correctly".

Definition publish (s : site) (title : string) : M (option string) :=
  await s EvalPublish ;;;
  click_found_publish (trigger_buttons s) ;;;
  await s QueryTitleInput ;;;
  (if title_input s
   then await s ClickTitle ;;;
        await s (TypeTitle (if truthy title then title else "Untitled"))
   else ret tt) ;;;
  await s EvalPublish ;;;
  click_modal_publish (confirm_buttons s) ;;;
  await s EvalLinks ;;;
  ret (find_link "opentrons-art" (links s)).

Definition replay (s : site) (grid : Grid) (title : string)
    : M (option string) :=
  await s Goto ;;;
  await s QueryCells ;;;
  (if cells_found s =? 0 then throw (JsError NO_CELLS) else ret tt) ;;;
  paint PALETTE s grid ;;;
  publish s title.

Definition drawAndPublish (s : site) (grid : Grid) (title : string)
    : M (option string) :=
  await s Launch ;;;
  await s NewPage ;;;
  await s SetViewport ;;;
  try_catch
    (url <~ replay s grid title ;;
     await s Close ;;;
     ret url)
    (fun err => await s Close ;;; throw err).

End BlackBgReplay.

(** ** drawAndPublish, second file of src/unnamed/part_000 *)
Module PollinationsReplay.
Import Pollinations.

Definition click_lowest_publish (s : site) (btns : list button)
    (missing : string) : M unit :=
  found <~ lowest_publish s btns 0 (-1)%float None ;;
  match found with
  | None => throw (JsError missing)
  | Some i => await s (ClickButton i)
  end.

Definition publish (s : site) (title : string) : M (option string) :=
  await s QueryButtons ;;;
  click_lowest_publish s (trigger_buttons s) "Publish button not found" ;;;
  await s QueryTitleInput ;;;
  (if title_input s && truthy title
   then await s ClickTitle ;;; await s (TypeTitle title)
   else ret tt) ;;;
  await s QueryButtons ;;;
  click_lowest_publish s (confirm_buttons s)
    "Modal publish button not found" ;;;
  await s QueryLinks ;;;
  first_link s "opentrons-art.rcdonovan.com" (links s) 0.

Definition replay (s : site) (grid : Grid) (title : string)
    : M (option string) :=
  await s Goto ;;;
  await s QueryCells ;;;
  paint PALETTE s grid ;;;
  publish s title.

Definition drawAndPublish (s : site) (grid : Grid) (title : string)
    : M (option string) :=
  await s Launch ;;;
  await s NewPage ;;;
  try_catch
    (url <~ replay s grid title ;;
     await s Close ;;;
     ret url)
    (fun err => await s Close ;;; throw err).

End PollinationsReplay.

(* ================================================================== *)
(** * The job table of /preview, /publish and /status *)
(* ================================================================== *)

Inductive job_status : Type :=
| StPreview          (* 'preview' *)
| StProcessing       (* 'processing' *)
| StDone             (* 'done' *)
| StError.           (* 'error' *)

(** A job object.  [job_url] is [None] while the property is unset and
    [Some None] once it holds null; [job_error] is the error whose message
    is stored. *)
Record job : Type := mkJob {
  job_grid : Grid;
  status : job_status;
  job_url : option (option string);
  job_error : option error
}.

(** The server's memory.  Job objects live in [heap] and are named by their
    position there; [jobs] is the Map from a job id to its object, the id
    being the creation time in milliseconds (the code prints it in base 36
    and reads it back with parseInt); [running] lists the drawAndPublish
    promises not yet settled, each with the job object its callbacks
    captured and the arguments of the call. *)
Record server : Type := mkServer {
  heap : list job;
  jobs : gmap Z nat;
  running : list (nat * Grid * string)
}.

Definition RETENTION_MS : Z := 3600000.

(** What reaches the server.  [Preview] carries the outcome of the awaited
    generateImage / imageToGrid / gridToSvg and the two readings of
    [Date.now()]; [Settle k st] is the [k]-th running replay finishing
    against the site [st]. *)
Inductive request : Type :=
| Preview (prompt : string) (generated : error + Grid) (id_now sweep_now : Z)
| Publish (jobId : Z) (title : string)
| Status (jobId : Z)
| Settle (k : nat) (st : site).

Definition set_processing (j : job) : job :=
  mkJob (job_grid j) StProcessing (job_url j) (job_error j).

Definition set_done (url : option string) (j : job) : job :=
  mkJob (job_grid j) StDone (Some url) (job_error j).

Definition set_error (e : error) (j : job) : job :=
  mkJob (job_grid j) StError (job_url j) (Some e).

Section Jobs.
Variable drawAndPublish : site -> Grid -> string -> M (option string).

Definition step (sv : server) (r : request) : server :=
  match r with
  | Preview prompt generated id_now sweep_now =>
      if negb (truthy prompt) then sv
      else match generated with
      | inl _ => sv
      | inr grid =>
          let obj := length (heap sv) in
          let table := <[id_now := obj]> (jobs sv) in
          mkServer (heap sv ++ [mkJob grid StPreview None None])
                   (filter (fun kv => (sweep_now - kv.1 <= RETENTION_MS)%Z) table)
                   (running sv)
      end
  | Publish jobId title =>
      match jobs sv !! jobId with
      | None => sv
      | Some obj =>
          match heap sv !! obj with
          | None => sv
          | Some j =>
              mkServer (<[obj := set_processing j]> (heap sv)) (jobs sv)
                       (running sv ++ [(obj, job_grid j, title)])
          end
      end
  | Status _ => sv
  | Settle k st =>
      match running sv !! k with
      | None => sv
      | Some (obj, grid, title) =>
          let settled :=
            match snd (run (drawAndPublish st grid title)) with
            | inr url => set_done url
            | inl e => set_error e
            end in
          mkServer (alter settled obj (heap sv)) (jobs sv)
                   (delete k (running sv))
      end
  end.

Definition exec (sv : server) (reqs : list request) : server :=
  fold_left step reqs sv.

(** The answer of GET /status/:jobId. *)
Definition status_reply (sv : server) (jobId : Z) : option job :=
  match jobs sv !! jobId with
  | None => None
  | Some obj => heap sv !! obj
  end.

End Jobs.

Definition boot : server := mkServer [] ∅ [].

(** [/publish] is asked only for a job that is still in 'preview'. *)
Definition publishes_fresh (sv : server) (r : request) : Prop :=
  match r with
  | Publish jobId _ =>
      forall obj j, jobs sv !! jobId = Some obj -> heap sv !! obj = Some j ->
                    status j = StPreview
  | _ => True
  end.

(** One forward move of a job object, or none. *)
Definition forward (j j' : job) : Prop :=
  j' = j \/
  (status j = StPreview /\ status j' = StProcessing) \/
  (status j = StProcessing /\ status j' = StDone /\ job_url j' <> None) \/
  (status j = StProcessing /\ status j' = StError /\ job_error j' <> None).

(* ================================================================== *)
(** * generateImage with retries (second file of src/unnamed/part_000) *)
(* ================================================================== *)

(** How the promise returned by [generateImage] ends: it returns the
    normalized buffer, it throws [lastError] ([None] while the variable is
    still undefined), or it never settles because an awaited [fetchImage]
    never does. *)
Inductive generated : Type :=
| Returned (normalizedBuffer : string)
| Threw (lastError : option error)
| Pending.

(** [imageBuffer[0] === 0xFF && imageBuffer[1] === 0xD8] and
    [imageBuffer[0] === 0x89 && imageBuffer[1] === 0x50]; a byte past the
    end of the buffer is [undefined] and equals neither. *)
Definition isJPEG (imageBuffer : string) : bool :=
  match imageBuffer with
  | String b0 (String b1 _) =>
      (nat_of_ascii b0 =? 255) && (nat_of_ascii b1 =? 216)
  | _ => false
  end.

Definition isPNG (imageBuffer : string) : bool :=
  match imageBuffer with
  | String b0 (String b1 _) =>
      (nat_of_ascii b0 =? 137) && (nat_of_ascii b1 =? 80)
  | _ => false
  end.

Definition ATTEMPTS : nat := 5.

Section Generate.
(** The network as it answers during iteration [i], the request url, and
    the two awaited sharp calls [sharp(buf).png().toBuffer()] and
    [sharp(buf).metadata()], which reject or resolve. *)
Variables http_get https_get : nat -> string -> get_result.
Variable resolve_href : string -> string -> option string.
Variable url : string.
Variable to_png : string -> error + string.
Variable metadata : string -> error + unit.

(** The [try] block of iteration [i]. *)
Definition attempt (i : nat) : fetched :=
  match fetchImage (http_get i) (https_get i) resolve_href url
                   DEFAULT_REDIRECTS with
  | Resolved imageBuffer =>
      if negb (isJPEG imageBuffer) && negb (isPNG imageBuffer)
      then Rejected (JsError "Invalid image format received")
      else
        match to_png imageBuffer with
        | inl e => Rejected e
        | inr normalizedBuffer =>
            match metadata normalizedBuffer with
            | inl e => Rejected e
            | inr _ => Resolved normalizedBuffer
            end
        end
  | Rejected e => Rejected e
  | Unsettled => Unsettled
  end.

(** The loop [for (let i = ...; i < 5; i++)] with [n] iterations left,
    from iteration [i]; the number returned is that of the 5 s waits. *)
Fixpoint retry (n i : nat) (lastError : option error) : nat * generated :=
  match n with
  | O => (0, Threw lastError)
  | S n' =>
      match attempt i with
      | Resolved normalizedBuffer => (0, Returned normalizedBuffer)
      | Rejected e =>
          let '(waits, r) := retry n' (S i) (Some e) in (S waits, r)
      | Unsettled => (0, Pending)
      end
  end.

Definition generateImage : nat * generated := retry ATTEMPTS 0 None.

End Generate.

(* ================================================================== *)
(** * Vocabulary of the properties and example inputs *)
(* ================================================================== *)

Local Open Scope Z_scope.

(** The largest squared distance between two 8-bit colours. *)
Definition MAX_SQDIST : Z := 3 * 255 ^ 2.

Definition sqrtf (z : Z) : float := PrimFloat.sqrt (float_of_Z z).

(** Compares the roots of [z] and [z + 1], [fuel] times. *)
Fixpoint roots_ascend (fuel : nat) (z : Z) : bool :=
  match fuel with
  | O => true
  | S f =>
      if PrimFloat.ltb (sqrtf z) (sqrtf (z + 1)) then roots_ascend f (z + 1)
      else false
  end.

(** The squared Euclidean distance from (r, g, b) to a palette entry.  The
    Euclidean distance is its square root, so one is minimal exactly when
    the other is. *)
Definition dist2 (r g b : Z) (e : PaletteEntry) : Z :=
  let '(pr, pg, pb) := rgb e in sqdist r g b pr pg pb.

(** [i] is the lowest index among the entries of [pal] nearest to
    (r, g, b). *)
Definition first_nearest (pal : list PaletteEntry) (r g b : Z) (i : nat)
    : Prop :=
  exists e, pal !! i = Some e /\
    (forall j e', pal !! j = Some e' -> dist2 r g b e <= dist2 r g b e') /\
    (forall j e', (j < i)%nat -> pal !! j = Some e' ->
                  dist2 r g b e < dist2 r g b e').

(** The Euclidean distance in RGB space between the colour (r, g, b) and
    the colour registered for a palette entry, over the real numbers:
    the square root of the sum of the squared channel differences. *)
Definition euclid (r g b : Z) (e : PaletteEntry) : R :=
  let '(pr, pg, pb) := rgb e in
  R_sqrt.sqrt ((IZR r - IZR pr) * (IZR r - IZR pr) +
               (IZR g - IZR pg) * (IZR g - IZR pg) +
               (IZR b - IZR pb) * (IZR b - IZR pb))%R.

(** [i] is the lowest index among the entries of [pal] at minimum
    Euclidean distance from (r, g, b). *)
Definition nearest_lowest (pal : list PaletteEntry) (r g b : Z) (i : nat)
    : Prop :=
  exists e, pal !! i = Some e /\
    (forall j e', pal !! j = Some e' ->
                  (euclid r g b e <= euclid r g b e')%R) /\
    (forall j e', (j < i)%nat -> pal !! j = Some e' ->
                  (euclid r g b e < euclid r g b e')%R).

Definition byte (z : Z) : Prop := 0 <= z <= 255.

Definition byte_entry (e : PaletteEntry) : Prop :=
  let '(pr, pg, pb) := rgb e in byte pr /\ byte pg /\ byte pb.

(** What the two loop variables hold once the entries [seen] are
    processed. *)
Definition loop_inv (r g b : Z) (seen : list PaletteEntry) (minDist : float)
    (closest : nat) : Prop :=
  (seen = [] /\ minDist = infinity /\ closest = 0%nat) \/
  (minDist = sqrtf (default 0 (dist2 r g b <$> seen !! closest)) /\
   first_nearest seen r g b closest).

(** A small network for trying the download: /0, /1 and /2 redirect to the
    next page, /3 serves an image in two chunks, /loop redirects to itself,
    /created answers 201 and every other page is missing. *)
Definition demo_net (url : string) : get_result :=
  if String.eqb url "http://h/0"
  then GetResponse (mkResponse 302 (Some "http://h/1") (StreamEnd []))
  else if String.eqb url "http://h/1"
  then GetResponse (mkResponse 301 (Some "http://h/2") (StreamEnd []))
  else if String.eqb url "http://h/2"
  then GetResponse (mkResponse 307 (Some "/3") (StreamEnd []))
  else if String.eqb url "http://h/3"
  then GetResponse (mkResponse 200 None (StreamEnd ["PNG"; "data"]))
  else if String.eqb url "http://h/loop"
  then GetResponse (mkResponse 302 (Some "http://h/loop") (StreamEnd []))
  else if String.eqb url "http://h/created"
  then GetResponse (mkResponse 201 None (StreamEnd ["made"]))
  else GetResponse (mkResponse 404 None (StreamEnd ["not found"])).

Definition demo_href (loc base : string) : option string :=
  Some ("http://h" +:+ loc).

Local Open Scope nat_scope.

(** A grid of GRID_ROWS rows of GRID_COLS palette indices below [n]. *)
Definition valid_grid (n : nat) (grid : Grid) : Prop :=
  length grid = GRID_ROWS /\
  Forall (fun row => length row = GRID_COLS /\ Forall (fun c => c < n) row) grid.

(** [grid[y][x]]. *)
Definition cell_at (grid : Grid) (y x : nat) : option nat :=
  match grid !! y with
  | Some row => row !! x
  | None => None
  end.

(** The rectangles of a whole scan, row by row, from those of each cell. *)
Definition grid_rects {A : Type} (G : nat -> nat -> list A) : list A :=
  concat (map (fun y => concat (map (G y) (seq 0 GRID_COLS)))
              (seq 0 GRID_ROWS)).

(** The rectangle that cell (y, x) of [grid] gets from palette [pal]. *)
Definition painted (pal : list PaletteEntry) (grid : Grid) (y x : nat)
    : list rect :=
  match cell_at grid y x with
  | Some c =>
      match pal !! c with
      | Some e =>
          [mkRect (x * cellSize) (y * cellSize) cellSize cellSize (hex e)]
      | None => []
      end
  | None => []
  end.

(** The paint actions: a click on a colour swatch or on a grid cell. *)
Definition is_paint (a : action) : bool :=
  match a with
  | ClickSwatch _ | ClickCell _ => true
  | _ => false
  end.

Definition is_close (a : action) : bool :=
  match a with
  | Close => true
  | _ => false
  end.

Definition is_button_click (a : action) : bool :=
  match a with
  | ClickButton _ => true
  | _ => false
  end.

(** The actions of the [publish] steps. *)
Definition is_publish_step (a : action) : bool :=
  match a with
  | QueryButtons | ReadText _ | ReadBox _ | ClickButton _ | EvalPublish
  | QueryTitleInput | ClickTitle | TypeTitle _ | QueryLinks | ReadHref _
  | EvalLinks => true
  | _ => false
  end.

Abbreviation paint_actions trace := (List.filter is_paint trace).

(** [m] makes no call that [p] selects, whatever was called before. *)
Definition quiet {A : Type} (p : action -> bool) (m : M A) : Prop :=
  forall h, List.filter p (fst (m h)) = [].

(** No awaited call ever rejects. *)
Definition faultless (s : site) : Prop :=
  forall h a, fault s h a = None.

(** The positions [y * GRID_COLS + x], in ascending (row-major) order, of
    the cells of [grid] that hold colour [c]. *)
Definition assigned (grid : Grid) (c : nat) : list nat :=
  List.filter (fun pos =>
      match cell_at grid (pos / GRID_COLS) (pos mod GRID_COLS) with
      | Some c' => c' =? c
      | None => false
      end)
    (seq 0 (GRID_ROWS * GRID_COLS)).

(** The colour-major order of the specification: for the colours 1 to 11
    in ascending order, nothing when no cell holds the colour, otherwise
    the colour's swatch and then its cells in row-major order. *)
Definition color_major (grid : Grid) : list action :=
  concat (map (fun c =>
                 match assigned grid c with
                 | [] => []
                 | ps => ClickSwatch c :: map ClickCell ps
                 end) (seq 1 11)).

(** The calls of one round of the colour loop. *)
Definition color_round (grid : Grid) (c : nat) : list action :=
  match assigned grid c with
  | [] => []
  | ps => QuerySwatches :: ClickSwatch c :: map ClickCell ps
  end.

Definition no_fault (h : list action) (a : action) : option error := None.

(** A grid with two cells of colour 3 at the top left and one cell of
    colour 1 at the bottom right. *)
Definition demo_grid : Grid :=
  build_grid (fun y x =>
    if (y =? 0) && (x <? 2) then 3
    else if (y =? 31) && (x =? 47) then 1 else 0).

(** The page buttons once the publish dialog is open: the page's own
    Publish button, then the dialog's Cancel and Publish buttons. *)
Definition dialog_buttons : list button :=
  [ mkButton "Publish" (Some 700%float);
    mkButton "Cancel" (Some 400%float);
    mkButton "Publish" (Some 400%float) ].

Definition demo_links : list string :=
  [ "https://ginkgoartworks.com/about";
    "https://opentrons-art.rcdonovan.com/gallery/42" ].

(** The page as the replay expects it. *)
Definition demo_site : site :=
  mkSite no_fault 1536 (fun _ => 12)
         [mkButton "Publish" (Some 700%float)] dialog_buttons true demo_links.

(** The same page after a change of its markup: the cell selector finds
    nothing. *)
Definition drifted_site : site :=
  mkSite no_fault 0 (fun _ => 12)
         [mkButton "Publish" (Some 700%float)] dialog_buttons true demo_links.

(** A browser whose [newPage()] rejects. *)
Definition crashing_site : site :=
  mkSite (fun _ a => match a with
                     | NewPage => Some (JsError "Protocol error")
                     | _ => None
                     end)
         1536 (fun _ => 12)
         [mkButton "Publish" (Some 700%float)] dialog_buttons true demo_links.

(** A page that cannot be reached: [page.goto] rejects. *)
Definition offline_site : site :=
  mkSite (fun _ a => match a with
                     | Goto => Some (JsError "net::ERR_NAME_NOT_RESOLVED")
                     | _ => None
                     end)
         1536 (fun _ => 12)
         [mkButton "Publish" (Some 700%float)] dialog_buttons true demo_links.

(** A browser whose first [close()] rejects. *)
Definition stubborn_site : site :=
  mkSite (fun h a => match a with
                     | Close => if existsb is_close h then None
                                else Some (JsError "Connection closed")
                     | _ => None
                     end)
         1536 (fun _ => 12)
         [mkButton "Publish" (Some 700%float)] dialog_buttons true demo_links.

(** A client that publishes a finished job again. *)
Definition republish_run : list request :=
  [ Preview "cat" (inr demo_grid) 0 0;
    Publish 0 "art";
    Settle 0 demo_site;
    Publish 0 "art" ].

(** Two hours after a preview, a preview that fails and a status poll. *)
Definition stale_run : list request :=
  [ Preview "cat" (inr demo_grid) 0 0;
    Preview "dog" (inl (JsError "HTTP 500")) 7200000 7200000;
    Status 0 ].

(** Every request of the run asks /publish only for a job in 'preview'. *)
Fixpoint disciplined (dap : site -> Grid -> string -> M (option string))
    (sv : server) (reqs : list request) : Prop :=
  match reqs with
  | [] => True
  | r :: rest => publishes_fresh sv r /\ disciplined dap (step dap sv r) rest
  end.

(** The number of running replays whose callbacks hold job object [obj]. *)
Definition running_for (sv : server) (obj : nat) : nat :=
  length (List.filter (fun x => fst (fst x) =? obj) (running sv)).

(** On disciplined runs, a job object has one running replay while it is
    'processing' and none otherwise. *)
Definition tracked (sv : server) : Prop :=
  (forall x, In x (running sv) -> fst (fst x) < length (heap sv)) /\
  (forall obj j, heap sv !! obj = Some j ->
     running_for sv obj =
       match status j with StProcessing => 1 | _ => 0 end).

(** A preview, its publish and the replay's completion. *)
Definition single_publish_run : list request :=
  [ Preview "cat" (inr demo_grid) 0 0; Publish 0 "art" ].

(** Compares [s / 3 < 30] on doubles with [s < 90] on integers, for [s]
    and the [fuel - 1] integers after it. *)
Fixpoint dark_agrees (fuel : nat) (s : Z) : bool :=
  match fuel with
  | O => true
  | S f =>
      if Bool.eqb (PrimFloat.ltb (PrimFloat.div (float_of_Z s) (float_of_Z 3))
                                 (float_of_Z 30))
                  (s <? 90)%Z
      then dark_agrees f (s + 1)%Z else false
  end.

(** The raw bytes of one mid-grey RGB pixel, and of one near-white one. *)
Definition grey_pixel : RawImage := mkRaw [128; 128; 128]%Z 3.
Definition pale_pixel : RawImage := mkRaw [250; 245; 241]%Z 3.

(** Every cell of the 32 x 48 window of [grid] exists and holds an index
    below [n]. *)
Definition window_ok (n : nat) (grid : Grid) : Prop :=
  forall y x, y < GRID_ROWS -> x < GRID_COLS ->
    exists c, cell_at grid y x = Some c /\ c < n.


(** A grid with a 33rd row and a 49th column, both ignored. *)
Definition oversized_grid : Grid :=
  map (fun row => row ++ [99]) demo_grid ++ [[7; 7; 7]].


(** What a trace clicks, against the grid: no swatch and no cell is
    clicked twice, the cells clicked are exactly the cells of the window
    that hold a colour other than 0, and no click falls outside the
    window. *)
Definition clicks_match (grid : Grid) (trace : list action) : Prop :=
  NoDup (paint_actions trace) /\
  (forall y x, y < GRID_ROWS -> x < GRID_COLS ->
     (In (ClickCell (y * GRID_COLS + x)) trace <->
      exists c, cell_at grid y x = Some c /\ c <> 0)) /\
  (forall pos, In (ClickCell pos) trace -> pos < GRID_ROWS * GRID_COLS).

(** The swatch selected when cell [pos] is first clicked in [trace]:
    [None] when the cell is never clicked, [Some cur] when it is clicked
    while [cur] is the swatch clicked last ([cur] being the swatch selected
    before the trace starts). *)
Fixpoint painted_with (cur : option nat) (trace : list action) (pos : nat)
    : option (option nat) :=
  match trace with
  | [] => None
  | ClickSwatch c :: rest => painted_with (Some c) rest pos
  | ClickCell p :: rest =>
      if p =? pos then Some cur else painted_with cur rest pos
  | _ :: rest => painted_with cur rest pos
  end.

(** The url and error properties a job object may hold in each status. *)
Definition accords (j : job) : Prop :=
  match status j with
  | StPreview => job_url j = None /\ job_error j = None
  | StProcessing => True
  | StDone => job_url j <> None
  | StError => job_error j <> None
  end.

(** What holds of the server's memory after any requests: an id of the
    table names a job object, no two ids name the same one, a running
    replay was started on the grid of its job object, which has left
    'preview', and every job object holds the properties of its status. *)
Definition coherent (sv : server) : Prop :=
  (forall id obj, jobs sv !! id = Some obj -> obj < length (heap sv)) /\
  (forall id1 id2 obj,
     jobs sv !! id1 = Some obj -> jobs sv !! id2 = Some obj -> id1 = id2) /\
  (forall obj g t, In (obj, g, t) (running sv) ->
     exists j, heap sv !! obj = Some j /\ status j <> StPreview /\
               job_grid j = g) /\
  (forall obj j, heap sv !! obj = Some j -> accords j).

(** A request that neither publishes job [id] nor, as a successful
    /preview, takes [id] for its new job or sweeps it. *)
Definition leaves (id : Z) (r : request) : Prop :=
  match r with
  | Preview prompt (inr _) id_now sweep_now =>
      truthy prompt = true ->
      id_now <> id /\ (sweep_now - id <= RETENTION_MS)%Z
  | Publish jobId _ => jobId <> id
  | _ => True
  end.



(** Where the grid and the title of a running replay come from. *)
Definition from_requests (reqs : list request) (g : Grid) (t : string)
    : Prop :=
  (exists prompt id_now sweep_now,
     In (Preview prompt (inr g) id_now sweep_now) reqs /\
     truthy prompt = true) /\
  (exists jobId, In (Publish jobId t) reqs).

(** Other clients at work around the job of id 5. *)
Definition busy_run : list request :=
  [ Preview "dog" (inr demo_grid) 3 3;
    Publish 3 "dog";
    Preview "cat" (inr demo_grid) 5 5;
    Preview "" (inr demo_grid) 5 5;
    Publish 3 "dog again";
    Settle 1 offline_site;
    Preview "owl" (inr demo_grid) 9 9;
    Settle 0 demo_site;
    Status 5 ].

(** [m] ends with outcome [r], whatever was called before. *)
Definition yields {A : Type} (m : M A) (r : error + A) : Prop :=
  forall h, snd (m h) = r.

(** A button that the scan for the lowest 'Publish' button can select: its
    text contains 'Publish' and it has a bounding box with [y > -1]. *)
Definition clickable_publish (b : button) : bool :=
  includes (textContent b) "Publish" &&
  match box_y b with
  | Some y => PrimFloat.ltb (-1)%float y
  | None => false
  end.

(** A page where nothing the replay looks for exists. *)
Definition bare_site : site :=
  mkSite no_fault 0 (fun _ => 0) [] [] false [].

(** A page whose only 'Publish' button has no box (it is not rendered). *)
Definition hidden_button_site : site :=
  mkSite no_fault 1536 (fun _ => 12) [mkButton "Publish" None]
         dialog_buttons true demo_links.

(** A server that answers 503 twice, then an HTML page, then a PNG. *)
Definition flaky_get (i : nat) (url : string) : get_result :=
  GetResponse
    (if i <? 2 then mkResponse 503 None (StreamEnd [])
     else if i =? 2 then mkResponse 200 None (StreamEnd ["<html>"; "</html>"])
     else mkResponse 200 None
            (StreamEnd [String (ascii_of_nat 137) "PNG"; "data"])).

(** A server that is down. *)
Definition down_get (i : nat) (url : string) : get_result :=
  GetError (JsError "ECONNREFUSED").

Definition no_href (loc url : string) : option string := None.

(** A sharp that re-encodes any buffer as the same bytes. *)
Definition same_png (buf : string) : error + string := inr buf.
Definition any_metadata (buf : string) : error + unit := inr tt.

(** A sharp pipeline that yields a raw image of one mid-grey pixel. *)
Definition grey_sharp (imageBuffer : string) : error + RawImage :=
  inr grey_pixel.

(** When [m] returns, none of the calls it made that [awaited] selects was
    rejected: the call at position [i] of its trace, made after the calls
    [h] and the [i] calls before it, resolved. *)
Definition clean {A : Type} (s : site) (awaited : action -> bool) (m : M A)
    : Prop :=
  forall h es a, m h = (es, inr a) ->
    forall i x, es !! i = Some x -> awaited x = true ->
      fault s (h ++ take i es) x = None.

Definition any_action (a : action) : bool := true.

(** The grid of background cells only. *)
Definition blank_grid : Grid := build_grid (fun _ _ => 0).

(** [buf] starts with the two bytes [b0] and [b1]. *)
Definition starts_with (b0 b1 : nat) (buf : string) : Prop :=
  exists c0 c1 rest,
    buf = String c0 (String c1 rest) /\
    nat_of_ascii c0 = b0 /\ nat_of_ascii c1 = b1.

(** The first two bytes of a JPEG file, FF D8, or of a PNG file, 89 50. *)
Definition image_bytes (buf : string) : Prop :=
  starts_with 255 216 buf \/ starts_with 137 80 buf.

(** An attempt that fails: the download is rejected, or it brings a buffer
    that does not start like an image, or that sharp cannot convert, or
    whose conversion sharp cannot read back. *)
Definition attempt_fails (download : fetched)
    (to_png : string -> error + string) (metadata : string -> error + unit)
    : Prop :=
  match download with
  | Rejected _ => True
  | Resolved imageBuffer =>
      ~ image_bytes imageBuffer \/
      (exists e, to_png imageBuffer = inl e) \/
      (exists png e, to_png imageBuffer = inr png /\ metadata png = inl e)
  | Unsettled => False
  end.

(** ** The preview, as text *)

(** [s] between double quotes. *)
Definition quoted (s : string) : string :=
  String "034"%char (s +:+ String "034"%char "").

(** The decimal numeral of [n]. *)
Definition decimal (n : nat) : string :=
  NilZero.string_of_uint (Nat.to_uint n).

(** The SVG element of a square of side 10 with its corner at (x, y),
    filled with the colour [fill]. *)
Definition square_at (x y : nat) (fill : string) : string :=
  "<rect x=" +:+ quoted (decimal x) +:+ " y=" +:+ quoted (decimal y) +:+
  " width=" +:+ quoted "10" +:+ " height=" +:+ quoted "10" +:+
  " fill=" +:+ quoted fill +:+ "/>".

(** The SVG element of a rectangle that covers the whole picture. *)
Definition cover (fill : string) : string :=
  "<rect width=" +:+ quoted "100%" +:+ " height=" +:+ quoted "100%" +:+
  " fill=" +:+ quoted fill +:+ "/>".

(** An SVG picture of 480 x 320: the opening tag, the background, what the
    cells draw, the closing tag. *)
Definition svg_picture (background cells : string) : string :=
  "<svg xmlns=" +:+ quoted "http://www.w3.org/2000/svg" +:+
  " width=" +:+ quoted "480" +:+ " height=" +:+ quoted "320" +:+ ">" +:+
  background +:+ cells +:+ "</svg>".

(** What cell (row, col) of [grid] draws with the colours of [pal]: a
    square at (col * 10, row * 10) filled with the hex colour of its index,
    or nothing for index 0 when [skip0] is set. *)
Definition cell_text (pal : list PaletteEntry) (skip0 : bool) (grid : Grid)
    (row col : nat) : string :=
  match cell_at grid row col with
  | Some c =>
      if skip0 && (c =? 0) then ""
      else match pal !! c with
           | Some e => square_at (col * 10) (row * 10) (hex e)
           | None => ""
           end
  | None => ""
  end.

(** What the 1536 cells draw, row after row: element [row * 48 + col] is
    that of cell (row, col). *)
Definition preview_elems (pal : list PaletteEntry) (skip0 : bool)
    (grid : Grid) : list string :=
  map (fun k => cell_text pal skip0 grid (k / 48) (k mod 48)) (seq 0 1536).

(** The beginning of the element of a square at (x, y): its position. *)
Definition tag_at (x y : nat) : string :=
  "<rect x=" +:+ quoted (decimal x) +:+ " y=" +:+ quoted (decimal y).

(** The rest of that element: its size and its colour. *)
Definition square_tail (fill : string) : string :=
  " width=" +:+ quoted "10" +:+ " height=" +:+ quoted "10" +:+
  " fill=" +:+ quoted fill +:+ "/>".

(** [s] holds no double quote. *)
Fixpoint no_quote (s : string) : bool :=
  match s with
  | EmptyString => true
  | String c s' => negb (Ascii.eqb c "034"%char) && no_quote s'
  end.

(** Block [b k] is empty, or it is the tag of [k] followed by [len]
    characters. *)
Definition tagged {K : Type} (tag : K -> string) (len : nat)
    (b : K -> string) (k : K) : Prop :=
  b k = ""%string \/
  exists body, b k = tag k +:+ body /\ String.length body = len.

(** The tag of the cell numbered [k] in row-major order. *)
Definition cell_tag (k : nat) : string :=
  tag_at (k mod 48 * 10) (k / 48 * 10).

(* ================================================================== *)
(** * Properties of the classifier *)
(* ================================================================== *)

Local Open Scope Z_scope.

(** ** The order of binary64 values, from the specification of [ltb] *)

Lemma SFltb_trans (a b c : spec_float) :
  SFltb a b = true -> SFltb b c = true -> SFltb a c = true.
Proof.
  unfold SFltb, SFcompare.
  destruct a as [sa|sa| |sa ma ea], b as [sb|sb| |sb mb eb],
           c as [sc|sc| |sc mc ec];
    try destruct sa; try destruct sb; try destruct sc;
    try discriminate; try reflexivity.
  all: fold (Pos.compare ma mb); fold (Pos.compare mb mc);
       fold (Pos.compare ma mc).
  all: destruct (Z.compare_spec ea eb), (Z.compare_spec eb ec),
                (Z.compare_spec ea ec);
       try discriminate; try reflexivity; try lia; subst.
  all: destruct (Pos.compare_spec ma mb), (Pos.compare_spec mb mc),
                (Pos.compare_spec ma mc);
       simpl; try discriminate; try reflexivity; try lia.
Qed.

Lemma SFltb_asym (a b : spec_float) : SFltb a b = true -> SFltb b a = false.
Proof.
  unfold SFltb, SFcompare.
  destruct a as [sa|sa| |sa ma ea], b as [sb|sb| |sb mb eb];
    try destruct sa; try destruct sb; try discriminate; try reflexivity.
  all: fold (Pos.compare ma mb); fold (Pos.compare mb ma).
  all: destruct (Z.compare_spec ea eb), (Z.compare_spec eb ea);
       try discriminate; try reflexivity; try lia; subst.
  all: destruct (Pos.compare_spec ma mb), (Pos.compare_spec mb ma);
       simpl; try discriminate; try reflexivity; try lia.
Qed.

Lemma ltb_trans (a b c : float) :
  PrimFloat.ltb a b = true -> PrimFloat.ltb b c = true ->
  PrimFloat.ltb a c = true.
Proof. rewrite !FloatAxioms.ltb_spec. apply SFltb_trans. Qed.

Lemma ltb_asym (a b : float) :
  PrimFloat.ltb a b = true -> PrimFloat.ltb b a = false.
Proof. rewrite !FloatAxioms.ltb_spec. apply SFltb_asym. Qed.

Lemma ltb_irrefl (a : float) : PrimFloat.ltb a a = false.
Proof.
  destruct (PrimFloat.ltb a a) eqn:E; [|reflexivity].
  pose proof (ltb_asym _ _ E). congruence.
Qed.

(** ** [Math.sqrt] is strictly increasing on the squared distances *)

Lemma roots_ascend_step (fuel : nat) (z k : Z) :
  roots_ascend fuel z = true -> 0 <= k < Z.of_nat fuel ->
  PrimFloat.ltb (sqrtf (z + k)) (sqrtf (z + k + 1)) = true.
Proof.
  revert z k. induction fuel as [|f IH]; intros z k H Hk; [lia|].
  simpl in H.
  destruct (PrimFloat.ltb (sqrtf z) (sqrtf (z + 1))) eqn:E; [|discriminate].
  destruct (Z.eq_dec k 0) as [->|Hne].
  - rewrite Z.add_0_r. exact E.
  - replace (z + k) with (z + 1 + (k - 1)) by lia.
    apply IH; [exact H | lia].
Qed.

Lemma roots_ascend_all :
  roots_ascend (Z.to_nat MAX_SQDIST) 0 = true.
Proof. vm_compute. reflexivity. Qed.

Lemma sqrtf_succ (k : Z) :
  0 <= k < MAX_SQDIST -> PrimFloat.ltb (sqrtf k) (sqrtf (k + 1)) = true.
Proof.
  intros Hk.
  apply (roots_ascend_step (Z.to_nat MAX_SQDIST) 0 k roots_ascend_all).
  rewrite Z2Nat.id; [lia | unfold MAX_SQDIST; lia].
Qed.

Lemma sqrtf_lt (n m : Z) :
  0 <= n -> n < m -> m <= MAX_SQDIST ->
  PrimFloat.ltb (sqrtf n) (sqrtf m) = true.
Proof.
  intros Hn Hnm Hm.
  replace m with (n + 1 + Z.of_nat (Z.to_nat (m - n - 1))) by lia.
  assert (Hb : n + 1 + Z.of_nat (Z.to_nat (m - n - 1)) <= MAX_SQDIST) by lia.
  induction (Z.to_nat (m - n - 1)) as [|d IH].
  - rewrite Z.add_0_r. apply sqrtf_succ. lia.
  - apply ltb_trans with (sqrtf (n + 1 + Z.of_nat d)).
    + apply IH. lia.
    + replace (n + 1 + Z.of_nat (S d)) with (n + 1 + Z.of_nat d + 1) by lia.
      apply sqrtf_succ. lia.
Qed.

(** On squared distances, comparing the roots as doubles is comparing the
    integers. *)
Lemma sqrtf_ltb (n m : Z) :
  0 <= n <= MAX_SQDIST -> 0 <= m <= MAX_SQDIST ->
  PrimFloat.ltb (sqrtf n) (sqrtf m) = (n <? m).
Proof.
  intros Hn Hm. destruct (Z.ltb_spec n m) as [Hlt|Hge].
  - apply sqrtf_lt; lia.
  - destruct (Z.eq_dec n m) as [->|Hne].
    + apply ltb_irrefl.
    + apply ltb_asym, sqrtf_lt; lia.
Qed.

Lemma sqrtf_finite (n : Z) :
  0 <= n <= MAX_SQDIST -> PrimFloat.ltb (sqrtf n) infinity = true.
Proof.
  intros Hn.
  assert (Htop : PrimFloat.ltb (sqrtf MAX_SQDIST) infinity = true)
    by (vm_compute; reflexivity).
  destruct (Z.eq_dec n MAX_SQDIST) as [->|Hne]; [exact Htop|].
  apply ltb_trans with (sqrtf MAX_SQDIST); [|exact Htop].
  apply sqrtf_lt; lia.
Qed.

(** ** findClosestColor returns the first nearest palette entry *)

Lemma dist2_range (r g b : Z) (e : PaletteEntry) :
  byte r -> byte g -> byte b -> byte_entry e ->
  0 <= dist2 r g b e <= MAX_SQDIST.
Proof.
  unfold byte, byte_entry, dist2, sqdist, MAX_SQDIST.
  destruct (rgb e) as [[pr pg] pb]. intros Hr Hg Hb (Hpr & Hpg & Hpb).
  assert (Hsq : forall x y, 0 <= x <= 255 -> 0 <= y <= 255 ->
                            0 <= (x - y) ^ 2 <= 255 ^ 2).
  { intros x y Hx Hy. rewrite !Z.pow_2_r.
    pose proof (Z.square_nonneg (x - y)).
    assert (0 <= (x - y + 255) * (255 - (x - y)))
      by (apply Z.mul_nonneg_nonneg; lia).
    lia. }
  pose proof (Hsq r pr Hr Hpr). pose proof (Hsq g pg Hg Hpg).
  pose proof (Hsq b pb Hb Hpb). lia.
Qed.

Lemma colorDistance_sqrtf (r g b : Z) (e : PaletteEntry) :
  (let '(pr, pg, pb) := rgb e in
   colorDistance (Some r) (Some g) (Some b) pr pg pb) = sqrtf (dist2 r g b e).
Proof. unfold dist2. destruct (rgb e) as [[pr pg] pb]. reflexivity. Qed.

Lemma closest_loop_first_nearest (r g b : Z) (rest : list PaletteEntry) :
  byte r -> byte g -> byte b ->
  forall (seen : list PaletteEntry) (minDist : float) (closest : nat),
    Forall byte_entry (seen ++ rest) ->
    loop_inv r g b seen minDist closest ->
    seen ++ rest <> [] ->
    first_nearest (seen ++ rest) r g b
      (closest_loop (Some r) (Some g) (Some b) rest (length seen)
                    minDist closest).
Proof.
  intros Hr Hg Hb.
  induction rest as [|e rest IH]; intros seen minDist closest Hpal Hinv Hne.
  - rewrite app_nil_r in *. simpl.
    destruct Hinv as [(-> & _)|(_ & Hn)]; [congruence | exact Hn].
  - cbn [closest_loop].
    pose proof (colorDistance_sqrtf r g b e) as Hcd.
    destruct (rgb e) as [[pr pg] pb] eqn:Ergb.
    cbv zeta. rewrite Hcd.
    assert (He : 0 <= dist2 r g b e <= MAX_SQDIST).
    { apply dist2_range; try assumption.
      rewrite Forall_app in Hpal. destruct Hpal as [_ Hpal].
      inversion Hpal; assumption. }
    replace (seen ++ e :: rest) with ((seen ++ [e]) ++ rest) in *
      by (rewrite <- app_assoc; reflexivity).
    replace (S (length seen)) with (length (seen ++ [e]))
      by (rewrite length_app; simpl; lia).
    assert (Hlast : (seen ++ [e]) !! length seen = Some e).
    { rewrite lookup_app_r by lia. rewrite Nat.sub_diag. reflexivity. }
    assert (Hsplit : forall j e', (seen ++ [e]) !! j = Some e' ->
              seen !! j = Some e' \/ (j = length seen /\ e' = e)).
    { intros j e' Hj. destruct (Nat.lt_ge_cases j (length seen)) as [Hlt|Hge].
      - left. rewrite lookup_app_l in Hj by lia. exact Hj.
      - right. rewrite lookup_app_r in Hj by lia.
        destruct (j - length seen)%nat as [|k] eqn:Ek; simpl in Hj.
        + split; [lia | congruence].
        + rewrite lookup_nil in Hj. discriminate. }
    destruct Hinv as [(-> & -> & ->)|(-> & ec & Hec & Hmin & Hfirst)].
    + (* first entry: every root is below Infinity *)
      rewrite sqrtf_finite by exact He.
      apply IH; [exact Hpal | | discriminate].
      right. simpl. split; [reflexivity|].
      exists e. split; [reflexivity|]. split.
      * intros j e' Hj. destruct j; simpl in Hj; [|rewrite lookup_nil in Hj; discriminate].
        injection Hj as <-. lia.
      * intros j e' Hj. lia.
    + rewrite Hec. simpl.
      assert (Hc : 0 <= dist2 r g b ec <= MAX_SQDIST).
      { apply dist2_range; try assumption.
        rewrite !Forall_app in Hpal. destruct Hpal as [[Hseen _] _].
        rewrite Forall_lookup in Hseen. exact (Hseen _ _ Hec). }
      rewrite sqrtf_ltb by assumption.
      destruct (Z.ltb_spec (dist2 r g b e) (dist2 r g b ec)) as [Hlt|Hge].
      * (* strictly nearer: the new entry takes over *)
        apply IH; [exact Hpal | | intros Hnil; apply app_eq_nil in Hnil as [Hnil _];
                                   apply app_eq_nil in Hnil as [_ Hnil]; discriminate].
        right. rewrite Hlast. simpl. split; [reflexivity|].
        exists e. split; [exact Hlast|]. split.
        -- intros j e' Hj. destruct (Hsplit j e' Hj) as [Hs|[_ ->]]; [|lia].
           specialize (Hmin j e' Hs). lia.
        -- intros j e' Hlt' Hj. destruct (Hsplit j e' Hj) as [Hs|[-> _]]; [|lia].
           specialize (Hmin j e' Hs). lia.
      * apply IH; [exact Hpal | | intros Hnil; apply app_eq_nil in Hnil as [Hnil _];
                                   apply app_eq_nil in Hnil as [_ Hnil]; discriminate].
        right.
        assert (Hec' : (seen ++ [e]) !! closest = Some ec).
        { apply lookup_app_l_Some. exact Hec. }
        rewrite Hec'. simpl. split; [reflexivity|].
        exists ec. split; [exact Hec'|]. split.
        -- intros j e' Hj. destruct (Hsplit j e' Hj) as [Hs|[_ ->]]; [|lia].
           exact (Hmin j e' Hs).
        -- intros j e' Hlt' Hj. destruct (Hsplit j e' Hj) as [Hs|[-> _]].
           ++ exact (Hfirst j e' Hlt' Hs).
           ++ apply lookup_lt_Some in Hec. lia.
Qed.

Lemma findClosestColor_first_nearest (pal : list PaletteEntry) (r g b : Z) :
  pal <> [] -> Forall byte_entry pal -> byte r -> byte g -> byte b ->
  first_nearest pal r g b (findClosestColor pal (Some r) (Some g) (Some b)).
Proof.
  intros Hne Hpal Hr Hg Hb.
  apply (closest_loop_first_nearest r g b pal Hr Hg Hb [] infinity 0%nat);
    [exact Hpal | left; auto | exact Hne].
Qed.

Lemma white_palette_bytes : Forall byte_entry ServerJs.PALETTE.
Proof. repeat constructor; unfold byte; simpl; lia. Qed.

Lemma black_palette_bytes : Forall byte_entry BlackBg.PALETTE.
Proof. repeat constructor; unfold byte; simpl; lia. Qed.

Lemma dist2_nonneg (r g b : Z) (e : PaletteEntry) : 0 <= dist2 r g b e.
Proof.
  unfold dist2, sqdist. destruct (rgb e) as [[pr pg] pb].
  rewrite !Z.pow_2_r.
  pose proof (Z.square_nonneg (r - pr)). pose proof (Z.square_nonneg (g - pg)).
  pose proof (Z.square_nonneg (b - pb)). lia.
Qed.

(** The integer that colorDistance puts under its square root is the sum
    of squares of the Euclidean distance. *)
Lemma euclid_dist2 (r g b : Z) (e : PaletteEntry) :
  euclid r g b e = R_sqrt.sqrt (IZR (dist2 r g b e)).
Proof.
  unfold euclid, dist2, sqdist. destruct (rgb e) as [[pr pg] pb].
  rewrite !Z.pow_2_r, !plus_IZR, !mult_IZR, !minus_IZR. reflexivity.
Qed.

(** The order of the Euclidean distances is the order of their squares. *)
Lemma first_nearest_euclid (pal : list PaletteEntry) (r g b : Z) (i : nat) :
  first_nearest pal r g b i -> nearest_lowest pal r g b i.
Proof.
  intros (e & He & Hmin & Hfirst). exists e. split; [exact He|]. split.
  - intros j e' Hj. rewrite !euclid_dist2.
    apply sqrt_le_1_alt, IZR_le. exact (Hmin j e' Hj).
  - intros j e' Hlt Hj. rewrite !euclid_dist2.
    apply sqrt_lt_1_alt. split.
    + apply IZR_le, dist2_nonneg.
    + apply IZR_lt. exact (Hfirst j e' Hlt Hj).
Qed.

(** C1.  For every RGB triple of 8-bit channel values, findClosestColor
    returns the index of a palette entry at minimum Euclidean distance
    from the triple, and every entry at a lower index is strictly farther:
    ties go to the lowest index.  This holds for the white-background
    palette of src/server.js and of the pollinations version, and for the
    black-background palette. *)
Theorem findClosestColor_nearest (r g b : Z) :
  0 <= r <= 255 -> 0 <= g <= 255 -> 0 <= b <= 255 ->
  nearest_lowest ServerJs.PALETTE r g b
    (findClosestColor ServerJs.PALETTE (Some r) (Some g) (Some b)) /\
  nearest_lowest BlackBg.PALETTE r g b
    (findClosestColor BlackBg.PALETTE (Some r) (Some g) (Some b)).
Proof.
  intros Hr Hg Hb. split; apply first_nearest_euclid.
  - apply findClosestColor_first_nearest; try assumption;
      [discriminate | apply white_palette_bytes].
  - apply findClosestColor_first_nearest; try assumption;
      [discriminate | apply black_palette_bytes].
Qed.

(** (0, 77, 117) is at distance sqrt 6836 from mJuniper (index 7) and
    from mWasabi (index 10) and farther from every other entry: the
    answer is 7 in both palettes. *)
Lemma findClosestColor_nearest_witness :
  nearest_lowest ServerJs.PALETTE 0 77 117 7 /\
  nearest_lowest BlackBg.PALETTE 0 77 117 7.
Proof.
  exact (findClosestColor_nearest 0 77 117
           (conj (Z.le_refl 0) (Zle_bool_imp_le 0 255 eq_refl))
           (conj (Zle_bool_imp_le 0 77 eq_refl) (Zle_bool_imp_le 77 255 eq_refl))
           (conj (Zle_bool_imp_le 0 117 eq_refl)
                 (Zle_bool_imp_le 117 255 eq_refl))).
Defined.

(* ================================================================== *)
(** * Properties of fetchImage *)
(* ================================================================== *)

Section FetchFacts.
Variables http_get https_get : string -> get_result.
Variable resolve_href : string -> string -> option string.

Local Abbreviation fetch := (fetchImage http_get https_get resolve_href).
Local Abbreviation get := (client_get http_get https_get).
Local Abbreviation hop := (redirects_to http_get https_get resolve_href).
Local Abbreviation chain := (redirect_chain http_get https_get resolve_href).

Lemma fetch_hop (url mid : string) (budget : nat) :
  hop url mid -> fetch url (S budget) = fetch mid budget.
Proof.
  intros (res & Hget & Hred & Hnew). simpl.
  rewrite Hget, Hred, Hnew. reflexivity.
Qed.

Lemma fetch_chain (k : nat) :
  forall (url final : string) (budget : nat),
    chain k url final -> fetch url (k + budget) = fetch final budget.
Proof.
  induction k as [|k IH]; intros url final budget Hc; simpl in Hc.
  - subst. reflexivity.
  - destruct Hc as (mid & Hhop & Hrest).
    change (S k + budget)%nat with (S (k + budget)).
    rewrite (fetch_hop url mid) by exact Hhop. apply IH. exact Hrest.
Qed.

Lemma fetch_chain_too_long (budget : nat) :
  forall (k : nat) (url final : string),
    chain (budget + k) url final ->
    fetch url budget = Rejected (JsError "Too many redirects").
Proof.
  induction budget as [|n IH]; intros k url final Hc.
  - reflexivity.
  - simpl in Hc. destruct Hc as (mid & Hhop & Hrest).
    rewrite (fetch_hop url mid) by exact Hhop. exact (IH k mid final Hrest).
Qed.

Lemma fetch_terminal (url : string) (budget : nat) (res : response) :
  get url = GetResponse res -> is_redirect res = false ->
  fetch url (S budget) =
    if (statusCode res =? 200)%Z then
      match body res with
      | StreamEnd chunks => Resolved (String.concat "" chunks)
      | StreamError e => Rejected e
      end
    else Rejected (JsError ("HTTP " +:+ string_of_Z (statusCode res))).
Proof.
  intros Hget Hred. simpl. rewrite Hget, Hred.
  destruct (statusCode res =? 200)%Z; reflexivity.
Qed.

Lemma not_redirect_outside_3xx (res : response) :
  (statusCode res < 300 \/ 400 <= statusCode res)%Z -> is_redirect res = false.
Proof.
  intros H. unfold is_redirect.
  destruct (Z.leb_spec 300 (statusCode res)); simpl; [|reflexivity].
  destruct (Z.ltb_spec (statusCode res) 400); simpl; [lia|reflexivity].
Qed.

(** C2.  With the default budget of 5, a chain of 3 redirects that ends in
    a 200 response whose stream ends resolves with the concatenated body; a
    chain of 6 redirects rejects with 'Too many redirects'; and a 404
    response, met directly or after up to 4 redirects, rejects with
    'HTTP 404'. *)
Theorem fetchImage_default_budget :
  (forall (url final : string) (res : response) (chunks : list string),
     chain 3 url final -> get final = GetResponse res ->
     statusCode res = 200%Z -> body res = StreamEnd chunks ->
     fetch url DEFAULT_REDIRECTS = Resolved (String.concat "" chunks)) /\
  (forall (url final : string),
     chain 6 url final ->
     fetch url DEFAULT_REDIRECTS = Rejected (JsError "Too many redirects")) /\
  (forall (k : nat) (url final : string) (res : response),
     (k <= 4)%nat -> chain k url final -> get final = GetResponse res ->
     statusCode res = 404%Z ->
     fetch url DEFAULT_REDIRECTS = Rejected (JsError "HTTP 404")).
Proof.
  split; [|split].
  - intros url final res chunks Hc Hget Hst Hbody.
    change DEFAULT_REDIRECTS with (3 + 2)%nat.
    rewrite (fetch_chain 3 url final 2 Hc).
    rewrite (fetch_terminal final 1 res Hget)
      by (apply not_redirect_outside_3xx; lia).
    rewrite Hst, Hbody. reflexivity.
  - intros url final Hc.
    exact (fetch_chain_too_long 5 1 url final Hc).
  - intros k url final res Hk Hc Hget Hst.
    replace DEFAULT_REDIRECTS with (k + S (4 - k))%nat
      by (unfold DEFAULT_REDIRECTS; lia).
    rewrite (fetch_chain k url final _ Hc).
    rewrite (fetch_terminal final _ res Hget)
      by (apply not_redirect_outside_3xx; lia).
    rewrite Hst. reflexivity.
Qed.

(** C10.  A response that is not followed as a redirect is rejected with
    'HTTP <status>' whenever its status is not exactly 200, the other 2xx
    statuses included (201, 204 and 206 are spelled out); with status 200
    the outcome is that of the body stream. *)
Theorem fetchImage_only_200 (url : string) (budget : nat) (res : response) :
  get url = GetResponse res -> is_redirect res = false ->
  (statusCode res <> 200%Z ->
   fetch url (S budget) =
     Rejected (JsError ("HTTP " +:+ string_of_Z (statusCode res)))) /\
  (statusCode res = 200%Z ->
   fetch url (S budget) =
     match body res with
     | StreamEnd chunks => Resolved (String.concat "" chunks)
     | StreamError e => Rejected e
     end) /\
  (statusCode res = 201%Z ->
   fetch url (S budget) = Rejected (JsError "HTTP 201")) /\
  (statusCode res = 204%Z ->
   fetch url (S budget) = Rejected (JsError "HTTP 204")) /\
  (statusCode res = 206%Z ->
   fetch url (S budget) = Rejected (JsError "HTTP 206")).
Proof.
  intros Hget Hred. rewrite (fetch_terminal url budget res Hget Hred).
  repeat split; intros Hst.
  - destruct (Z.eqb_spec (statusCode res) 200); [contradiction|reflexivity].
  - rewrite Hst. reflexivity.
  - rewrite Hst. reflexivity.
  - rewrite Hst. reflexivity.
  - rewrite Hst. reflexivity.
Qed.

End FetchFacts.

Lemma fetchImage_default_budget_witness :
  fetchImage demo_net demo_net demo_href "http://h/0" DEFAULT_REDIRECTS
    = Resolved "PNGdata" /\
  fetchImage demo_net demo_net demo_href "http://h/loop" DEFAULT_REDIRECTS
    = Rejected (JsError "Too many redirects") /\
  fetchImage demo_net demo_net demo_href "http://h/2" DEFAULT_REDIRECTS
    = Resolved "PNGdata" /\
  fetchImage demo_net demo_net demo_href "http://h/gone" DEFAULT_REDIRECTS
    = Rejected (JsError "HTTP 404").
Proof.
  pose proof (fetchImage_default_budget demo_net demo_net demo_href)
    as (H3 & H6 & H404).
  assert (Hhop : forall a b res,
            demo_net a = GetResponse res -> is_redirect res = true ->
            newUrl demo_href a (default EmptyString (location res)) = Some b ->
            redirects_to demo_net demo_net demo_href a b).
  { intros a b res Ha Hr Hn. exists res. split; [|split]; try assumption.
    unfold client_get. destruct (startsWith a "https"); exact Ha. }
  split; [|split; [|split]].
  - apply (H3 "http://h/0" "http://h/3"
              (mkResponse 200 None (StreamEnd ["PNG"; "data"])) ["PNG"; "data"]);
      try reflexivity.
    exists "http://h/1". split; [eapply Hhop; reflexivity|].
    exists "http://h/2". split; [eapply Hhop; reflexivity|].
    exists "http://h/3". split; [eapply Hhop; reflexivity|reflexivity].
  - apply (H6 "http://h/loop" "http://h/loop").
    do 6 (exists "http://h/loop"; split; [eapply Hhop; reflexivity|]).
    reflexivity.
  - reflexivity.
  - apply (H404 0%nat "http://h/gone" "http://h/gone"
                (mkResponse 404 None (StreamEnd ["not found"])));
      [lia | reflexivity | reflexivity | reflexivity].
Defined.

Lemma fetchImage_only_200_witness :
  fetchImage demo_net demo_net demo_href "http://h/created" 5
    = Rejected (JsError "HTTP 201").
Proof.
  pose proof (fetchImage_only_200 demo_net demo_net demo_href
                "http://h/created" 4
                (mkResponse 201 None (StreamEnd ["made"]))
                eq_refl eq_refl) as (_ & _ & H201 & _).
  exact (H201 eq_refl).
Defined.

(* ================================================================== *)
(** * Properties of the quantizer and of the preview *)
(* ================================================================== *)

Local Open Scope nat_scope.

Lemma closest_loop_bound (r g b : channel) (rest : list PaletteEntry) :
  forall (i : nat) (minDist : float) (closest bound : nat),
    closest < bound -> i + length rest <= bound ->
    closest_loop r g b rest i minDist closest < bound.
Proof.
  induction rest as [|e rest IH]; intros i minDist closest bound Hc Hb.
  - exact Hc.
  - cbn [closest_loop]. simpl in Hb. destruct (rgb e) as [[pr pg] pb].
    cbv zeta. destruct (PrimFloat.ltb _ minDist); apply IH; lia.
Qed.

Lemma build_grid_valid (n : nat) (cell : nat -> nat -> nat) :
  (forall y x, cell y x < n) -> valid_grid n (build_grid cell).
Proof.
  intros Hcell. unfold valid_grid, build_grid. split.
  - rewrite length_map, length_seq. reflexivity.
  - apply Forall_map, Forall_forall. intros y _. cbv beta. split.
    + rewrite length_map, length_seq. reflexivity.
    + apply Forall_map, Forall_forall. intros x _. apply Hcell.
Qed.

Lemma lookup_map_seq {A : Type} (f : nat -> A) (n i : nat) :
  i < n -> map f (seq 0 n) !! i = Some (f i).
Proof.
  intros Hi. change (map f (seq 0 n)) with (f <$> seq 0 n).
  rewrite list_lookup_fmap, lookup_seq_lt by exact Hi. reflexivity.
Qed.

Lemma build_grid_cell (cell : nat -> nat -> nat) (y x : nat) :
  y < GRID_ROWS -> x < GRID_COLS ->
  cell_at (build_grid cell) y x = Some (cell y x).
Proof.
  intros Hy Hx. unfold cell_at, build_grid.
  rewrite lookup_map_seq by exact Hy. apply lookup_map_seq. exact Hx.
Qed.

Lemma server_quantize_bound (raw : RawImage) (y x : nat) :
  ServerJs.quantize raw y x < length ServerJs.PALETTE.
Proof.
  unfold ServerJs.quantize. cbv zeta.
  destruct (gt240 _ && gt240 _ && gt240 _); [simpl; lia|].
  apply closest_loop_bound; simpl; lia.
Qed.

Lemma blackbg_quantize_bound (raw : RawImage) (y x : nat) :
  BlackBg.quantize raw y x < length BlackBg.PALETTE.
Proof.
  unfold BlackBg.quantize. cbv zeta.
  destruct (PrimFloat.ltb _ _); [simpl; lia|].
  apply closest_loop_bound; simpl; lia.
Qed.

Lemma pollinations_quantize_bound (raw : RawImage) (y x : nat) :
  Pollinations.quantize raw y x < length Pollinations.PALETTE.
Proof.
  unfold Pollinations.quantize. cbv zeta.
  apply closest_loop_bound; simpl; lia.
Qed.

(** C8.  Whatever raw image sharp produces, imageToGrid returns a grid of
    exactly 32 rows of 48 cells, each holding a palette index in [0, 12);
    it fails only when the sharp pipeline itself rejects, with that error.
    This holds for the three versions of the quantizer. *)
Theorem imageToGrid_valid (sharp_raw : string -> error + RawImage)
    (imageBuffer : string) :
  match ServerJs.imageToGrid sharp_raw imageBuffer with
  | inr grid => valid_grid 12 grid /\ length ServerJs.PALETTE = 12
  | inl e => sharp_raw imageBuffer = inl e
  end /\
  match BlackBg.imageToGrid sharp_raw imageBuffer with
  | inr grid => valid_grid 12 grid /\ length BlackBg.PALETTE = 12
  | inl e => sharp_raw imageBuffer = inl e
  end /\
  match Pollinations.imageToGrid sharp_raw imageBuffer with
  | inr grid => valid_grid 12 grid /\ length Pollinations.PALETTE = 12
  | inl e => sharp_raw imageBuffer = inl e
  end.
Proof.
  unfold ServerJs.imageToGrid, BlackBg.imageToGrid, Pollinations.imageToGrid.
  destruct (sharp_raw imageBuffer) as [e|raw]; [auto|].
  repeat split; try reflexivity; apply build_grid_valid; intros y x.
  - apply (server_quantize_bound raw y x).
  - apply (blackbg_quantize_bound raw y x).
  - apply (pollinations_quantize_bound raw y x).
Qed.

(** ** The preview: one rectangle per cell *)

Lemma collect_total {A : Type} (f : nat -> option (list A))
    (g : nat -> list A) (idxs : list nat) :
  (forall i, In i idxs -> f i = Some (g i)) ->
  collect f idxs = Some (concat (map g idxs)).
Proof.
  induction idxs as [|i rest IH]; intros H; [reflexivity|].
  simpl. rewrite (H i) by (left; reflexivity).
  rewrite IH by (intros j Hj; apply H; right; exact Hj). reflexivity.
Qed.

Lemma scan_grid_total {A : Type} (grid : Grid)
    (body : nat -> nat -> option nat -> option (list A))
    (G : nat -> nat -> list A) :
  (forall y, y < GRID_ROWS -> exists row, grid !! y = Some row /\
     forall x, x < GRID_COLS -> body y x (row !! x) = Some (G y x)) ->
  scan_grid grid body = Some (grid_rects G).
Proof.
  intros H. unfold scan_grid, grid_rects.
  apply collect_total. intros y Hy. apply in_seq in Hy.
  destruct (H y) as (row & -> & Hrow); [lia|].
  apply collect_total. intros x Hx. apply in_seq in Hx. apply Hrow. lia.
Qed.

Lemma filter_none {A : Type} (P : A -> bool) (l : list A) :
  (forall a, In a l -> P a = false) -> List.filter P l = [].
Proof.
  induction l as [|a l IH]; intros H; [reflexivity|].
  simpl. rewrite (H a) by (left; reflexivity).
  apply IH. intros b Hb. apply H. right. exact Hb.
Qed.

Lemma filter_all {A : Type} (P : A -> bool) (l : list A) :
  (forall a, In a l -> P a = true) -> List.filter P l = l.
Proof.
  induction l as [|a l IH]; intros H; [reflexivity|].
  simpl. rewrite (H a) by (left; reflexivity).
  f_equal. apply IH. intros b Hb. apply H. right. exact Hb.
Qed.

Lemma valid_grid_row (n : nat) (grid : Grid) (y : nat) :
  valid_grid n grid -> y < GRID_ROWS ->
  exists row, grid !! y = Some row /\
    forall x, x < GRID_COLS -> exists c, row !! x = Some c /\ c < n.
Proof.
  intros [Hlen Hrows] Hy.
  destruct (lookup_lt_is_Some_2 grid y) as [row Hrow]; [lia|].
  exists row. split; [exact Hrow|]. intros x Hx.
  rewrite Forall_lookup in Hrows. destruct (Hrows y row Hrow) as [Hl Hc].
  destruct (lookup_lt_is_Some_2 row x) as [c Hcx]; [lia|].
  exists c. split; [exact Hcx|].
  rewrite Forall_lookup in Hc. exact (Hc x c Hcx).
Qed.

Lemma cell_at_range (n : nat) (grid : Grid) (y x c : nat) :
  valid_grid n grid -> cell_at grid y x = Some c ->
  y < GRID_ROWS /\ x < GRID_COLS.
Proof.
  intros [Hlen Hrows] Hc. unfold cell_at in Hc.
  destruct (grid !! y) as [row|] eqn:Hrow; [|discriminate].
  pose proof (lookup_lt_Some _ _ _ Hrow) as Hy.
  rewrite Forall_lookup in Hrows. destruct (Hrows y row Hrow) as [Hl _].
  pose proof (lookup_lt_Some _ _ _ Hc) as Hx. lia.
Qed.

Lemma server_svg_rects (grid : Grid) :
  valid_grid 12 grid ->
  ServerJs.svg_rects grid = Some (grid_rects (painted ServerJs.PALETTE grid)).
Proof.
  intros Hv. apply scan_grid_total. intros y Hy.
  destruct (valid_grid_row 12 grid y Hv Hy) as (row & Hrow & Hcells).
  exists row. split; [exact Hrow|]. intros x Hx.
  destruct (Hcells x Hx) as (c & Hc & Hlt).
  unfold painted, cell_at, cell_rect. rewrite Hrow, Hc.
  destruct (lookup_lt_is_Some_2 ServerJs.PALETTE c) as [e He];
    [simpl; lia|].
  rewrite He. reflexivity.
Qed.

Lemma blackbg_svg_rects (grid : Grid) :
  valid_grid 12 grid ->
  BlackBg.svg_rects grid =
    Some (grid_rects (fun y x =>
            if decide (cell_at grid y x = Some 0) then []
            else painted BlackBg.PALETTE grid y x)).
Proof.
  intros Hv. apply scan_grid_total. intros y Hy.
  destruct (valid_grid_row 12 grid y Hv Hy) as (row & Hrow & Hcells).
  exists row. split; [exact Hrow|]. intros x Hx.
  destruct (Hcells x Hx) as (c & Hc & Hlt).
  unfold painted, cell_at, cell_rect. rewrite Hrow, Hc.
  destruct c as [|c]; [reflexivity|]. simpl (0 <? S c).
  destruct (decide (Some (S c) = Some 0)) as [E|_]; [discriminate|].
  destruct (lookup_lt_is_Some_2 BlackBg.PALETTE (S c)) as [e He];
    [simpl; lia|].
  rewrite He. reflexivity.
Qed.

Lemma valid_grid_window (n : nat) (grid : Grid) :
  valid_grid n grid -> window_ok n grid.
Proof.
  intros Hv y x Hy Hx.
  destruct (valid_grid_row n grid y Hv Hy) as (row & Hrow & Hcells).
  destruct (Hcells x Hx) as (c & Hc & Hlt).
  exists c. unfold cell_at. rewrite Hrow. auto.
Qed.

(** ** The text of the preview *)

Lemma str_app_nil_r (s : string) : s +:+ "" = s.
Proof.
  induction s as [|c s IH]; [reflexivity|].
  change (String c (s +:+ "") = String c s). rewrite IH. reflexivity.
Qed.

Lemma str_app_assoc (a b c : string) : (a +:+ b) +:+ c = a +:+ b +:+ c.
Proof.
  induction a as [|x a IH]; [reflexivity|].
  change (String x ((a +:+ b) +:+ c) = String x (a +:+ b +:+ c)).
  rewrite IH. reflexivity.
Qed.

Lemma str_concat_cons (x : string) (l : list string) :
  String.concat "" (x :: l) = x +:+ String.concat "" l.
Proof.
  destruct l as [|y l]; [|reflexivity].
  change (x = x +:+ ""). rewrite str_app_nil_r. reflexivity.
Qed.

Lemma str_concat_app (l1 l2 : list string) :
  String.concat "" (l1 ++ l2) = String.concat "" l1 +:+ String.concat "" l2.
Proof.
  induction l1 as [|x l1 IH]; [reflexivity|].
  rewrite <- app_comm_cons, !str_concat_cons, IH, str_app_assoc. reflexivity.
Qed.

(** The markup of the rectangles of a scan, cell by cell in row-major
    order. *)
Lemma markup_row (f : rect -> string) (G : nat -> list rect)
    (cell : nat -> string) (start n : nat) :
  (forall x, x < n -> String.concat "" (map f (G x)) = cell x) ->
  String.concat "" (map f (concat (map G (seq 0 n)))) =
  String.concat "" (map (fun k => cell (k - start)) (seq start n)).
Proof.
  induction n as [|n IH]; intros H; [reflexivity|].
  rewrite !seq_S, !map_app, concat_app, map_app, !str_concat_app.
  rewrite IH by (intros x Hx; apply H; lia).
  f_equal. cbn [map concat]. rewrite app_nil_r, Nat.add_0_l.
  rewrite (H n) by lia. cbn [String.concat].
  replace (start + n - start) with n by lia. reflexivity.
Qed.

Lemma markup_flat (f : rect -> string) (G : nat -> nat -> list rect)
    (cell : nat -> nat -> string) (rows cols : nat) :
  (forall y x, y < rows -> x < cols ->
     String.concat "" (map f (G y x)) = cell y x) ->
  String.concat ""
    (map f (concat (map (fun y => concat (map (G y) (seq 0 cols)))
                        (seq 0 rows)))) =
  String.concat ""
    (map (fun k => cell (k / cols) (k mod cols)) (seq 0 (rows * cols))).
Proof.
  induction rows as [|rows IH]; intros H; [reflexivity|].
  replace (S rows * cols) with (rows * cols + cols) by lia.
  rewrite seq_S, map_app, concat_app, map_app, seq_app, map_app,
    !str_concat_app.
  rewrite IH by (intros y x Hy Hx; apply H; lia).
  f_equal. cbn [map concat]. rewrite app_nil_r, Nat.add_0_l.
  rewrite (markup_row f (G rows) (cell rows) (rows * cols) cols)
    by (intros x Hx; apply H; lia).
  f_equal. apply map_ext_in. intros k Hk. apply in_seq in Hk.
  assert (Hk' : k = cols * rows + (k - rows * cols)) by lia.
  rewrite <- (Nat.div_unique k cols rows (k - rows * cols)) by lia.
  rewrite <- (Nat.mod_unique k cols rows (k - rows * cols)) by lia.
  reflexivity.
Qed.

Lemma preview_elems_length (pal : list PaletteEntry) (skip0 : bool)
    (grid : Grid) :
  length (preview_elems pal skip0 grid) = 1536.
Proof. unfold preview_elems. rewrite length_map, length_seq. reflexivity. Qed.

Lemma preview_elems_lookup (pal : list PaletteEntry) (skip0 : bool)
    (grid : Grid) (row col : nat) :
  row < 32 -> col < 48 ->
  preview_elems pal skip0 grid !! (row * 48 + col)
    = Some (cell_text pal skip0 grid row col).
Proof.
  intros Hrow Hcol. unfold preview_elems.
  rewrite lookup_map_seq by lia.
  replace ((row * 48 + col) / 48) with row
    by (apply Nat.div_unique with col; lia).
  replace ((row * 48 + col) mod 48) with col
    by (apply Nat.mod_unique with row; lia).
  reflexivity.
Qed.

Lemma server_frame (body : string) :
  svg_open +:+ body +:+ svg_close = svg_picture "" body.
Proof. reflexivity. Qed.

Lemma blackbg_frame (body : string) :
  svg_open +:+ BlackBg.backdrop +:+ body +:+ svg_close
    = svg_picture (cover "#000000") body.
Proof. reflexivity. Qed.

Lemma markup_grid_rects (G : nat -> nat -> list rect)
    (cell : nat -> nat -> string) :
  (forall y x, y < 32 -> x < 48 ->
     String.concat "" (map rect_markup (G y x)) = cell y x) ->
  String.concat "" (map rect_markup (grid_rects G)) =
  String.concat "" (map (fun k => cell (k / 48) (k mod 48)) (seq 0 1536)).
Proof.
  intros H. exact (markup_flat rect_markup G cell 32 48 H).
Qed.

Lemma server_rects_text (grid : Grid) :
  window_ok 12 grid ->
  String.concat ""
    (map rect_markup (grid_rects (painted ServerJs.PALETTE grid))) =
  String.concat "" (preview_elems ServerJs.PALETTE false grid).
Proof.
  intros Hw. unfold preview_elems. apply markup_grid_rects.
  intros y x Hy Hx. destruct (Hw y x Hy Hx) as (c & Hc & Hlt).
  unfold painted, cell_text. rewrite Hc.
  destruct (lookup_lt_is_Some_2 ServerJs.PALETTE c) as [e He];
    [simpl; lia|].
  rewrite He. reflexivity.
Qed.

Lemma blackbg_rects_text (grid : Grid) :
  window_ok 12 grid ->
  String.concat ""
    (map rect_markup
       (grid_rects (fun y x =>
          if decide (cell_at grid y x = Some 0) then []
          else painted BlackBg.PALETTE grid y x))) =
  String.concat "" (preview_elems BlackBg.PALETTE true grid).
Proof.
  intros Hw. unfold preview_elems. apply markup_grid_rects.
  intros y x Hy Hx. destruct (Hw y x Hy Hx) as (c & Hc & Hlt).
  unfold painted, cell_text. rewrite Hc.
  destruct c as [|c].
  - destruct (decide (Some 0 = Some 0)); [reflexivity | congruence].
  - destruct (decide (Some (S c) = Some 0)) as [E|_]; [discriminate|].
    destruct (lookup_lt_is_Some_2 BlackBg.PALETTE (S c)) as [e He];
      [simpl; lia|].
    rewrite He. reflexivity.
Qed.

Lemma server_gridToSvg_text (grid : Grid) :
  valid_grid 12 grid ->
  ServerJs.gridToSvg grid =
    inr (svg_picture ""
           (String.concat "" (preview_elems ServerJs.PALETTE false grid))).
Proof.
  intros Hv. unfold ServerJs.gridToSvg. rewrite (server_svg_rects grid Hv).
  rewrite (server_rects_text grid (valid_grid_window 12 grid Hv)).
  rewrite server_frame. reflexivity.
Qed.

Lemma blackbg_gridToSvg_text (grid : Grid) :
  valid_grid 12 grid ->
  BlackBg.gridToSvg grid =
    inr (svg_picture (cover "#000000")
           (String.concat "" (preview_elems BlackBg.PALETTE true grid))).
Proof.
  intros Hv. unfold BlackBg.gridToSvg. rewrite (blackbg_svg_rects grid Hv).
  rewrite (blackbg_rects_text grid (valid_grid_window 12 grid Hv)).
  rewrite blackbg_frame. reflexivity.
Qed.

(** C9.  For a grid of 32 x 48 palette indices, the string that gridToSvg
    returns is an SVG picture of 480 x 320 made of 1536 elements in
    row-major order, one for each cell: the element of a cell with a
    non-background index is one rectangle positioned at (col * 10,
    row * 10), of width and height 10, filled with that palette entry's
    hex colour.  For a background cell (index 0) the version of
    src/server.js emits such a rectangle too, filled with the background
    colour #ffffff, and the black-background version emits nothing, after
    a backdrop rectangle of 100% by 100% filled with #000000. *)
Theorem gridToSvg_one_rect_per_cell (grid : Grid) :
  valid_grid 12 grid ->
  (exists elems : list string,
     length elems = 1536 /\
     ServerJs.gridToSvg grid =
       inr (svg_picture "" (String.concat "" elems)) /\
     (forall row col c, cell_at grid row col = Some c ->
        exists e, ServerJs.PALETTE !! c = Some e /\
          elems !! (row * 48 + col) =
            Some (square_at (col * 10) (row * 10) (hex e))) /\
     hex <$> ServerJs.PALETTE !! 0 = Some "#ffffff"%string) /\
  (exists elems : list string,
     length elems = 1536 /\
     BlackBg.gridToSvg grid =
       inr (svg_picture (cover "#000000") (String.concat "" elems)) /\
     (forall row col c, cell_at grid row col = Some c ->
        if c =? 0 then elems !! (row * 48 + col) = Some ""%string
        else exists e, BlackBg.PALETTE !! c = Some e /\
               elems !! (row * 48 + col) =
                 Some (square_at (col * 10) (row * 10) (hex e)))).
Proof.
  intros Hv. pose proof (valid_grid_window 12 grid Hv) as Hw. split.
  - exists (preview_elems ServerJs.PALETTE false grid).
    split; [apply preview_elems_length|].
    split; [exact (server_gridToSvg_text grid Hv)|].
    split; [|reflexivity].
    intros row col c Hc.
    destruct (cell_at_range 12 grid row col c Hv Hc) as [Hy Hx].
    destruct (Hw row col Hy Hx) as (c' & Hc' & Hlt).
    assert (c' = c) by congruence. subst c'.
    destruct (lookup_lt_is_Some_2 ServerJs.PALETTE c) as [e He];
      [simpl; lia|].
    exists e. split; [exact He|].
    rewrite preview_elems_lookup by assumption.
    unfold cell_text. rewrite Hc, He. reflexivity.
  - exists (preview_elems BlackBg.PALETTE true grid).
    split; [apply preview_elems_length|].
    split; [exact (blackbg_gridToSvg_text grid Hv)|].
    intros row col c Hc.
    destruct (cell_at_range 12 grid row col c Hv Hc) as [Hy Hx].
    destruct (Hw row col Hy Hx) as (c' & Hc' & Hlt).
    assert (c' = c) by congruence. subst c'.
    destruct c as [|c].
    + change (0 =? 0) with true. cbv iota.
      rewrite preview_elems_lookup by assumption.
      unfold cell_text. rewrite Hc. reflexivity.
    + change (S c =? 0) with false. cbv iota.
      destruct (lookup_lt_is_Some_2 BlackBg.PALETTE (S c)) as [e He];
        [simpl; lia|].
      exists e. split; [exact He|].
      rewrite preview_elems_lookup by assumption.
      unfold cell_text. rewrite Hc, He. reflexivity.
Qed.

(* ================================================================== *)
(** * Properties of the replay *)
(* ================================================================== *)

Section MonadFacts.
Context {A B : Type}.
Variable p : action -> bool.

Lemma quiet_ret (a : A) : quiet p (ret a).
Proof. intros h. reflexivity. Qed.

Lemma quiet_throw (e : error) : quiet p (@throw A e).
Proof. intros h. reflexivity. Qed.

Lemma quiet_bind (m : M A) (k : A -> M B) :
  quiet p m -> (forall a, quiet p (k a)) -> quiet p (bind m k).
Proof.
  intros Hm Hk h. unfold bind. specialize (Hm h).
  destruct (m h) as [es [e|a]]; simpl in *; [exact Hm|].
  specialize (Hk a (h ++ es)). destruct (k a (h ++ es)) as [es' r].
  simpl in *. rewrite List.filter_app, Hm, Hk. reflexivity.
Qed.

Lemma quiet_try_catch (m : M A) (handler : error -> M A) :
  quiet p m -> (forall e, quiet p (handler e)) -> quiet p (try_catch m handler).
Proof.
  intros Hm Hh h. unfold try_catch. specialize (Hm h).
  destruct (m h) as [es [e|a]]; simpl in *; [|exact Hm].
  specialize (Hh e (h ++ es)). destruct (handler e (h ++ es)) as [es' r].
  simpl in *. rewrite List.filter_app, Hm, Hh. reflexivity.
Qed.

(** What [p] selects from [m ;;; k] when the continuation is quiet. *)
Lemma filter_bind_quiet_right (m : M A) (k : A -> M B) (h : list action) :
  (forall a, quiet p (k a)) ->
  List.filter p (fst (bind m k h)) = List.filter p (fst (m h)).
Proof.
  intros Hk. unfold bind. destruct (m h) as [es [e|a]]; [reflexivity|].
  specialize (Hk a (h ++ es)). destruct (k a (h ++ es)) as [es' r].
  simpl in *. rewrite List.filter_app, Hk, app_nil_r. reflexivity.
Qed.

Lemma filter_try_catch_quiet (m : M A) (handler : error -> M A)
    (h : list action) :
  (forall e, quiet p (handler e)) ->
  List.filter p (fst (try_catch m handler h)) = List.filter p (fst (m h)).
Proof.
  intros Hh. unfold try_catch. destruct (m h) as [es [e|a]]; [|reflexivity].
  specialize (Hh e (h ++ es)). destruct (handler e (h ++ es)) as [es' r].
  simpl in *. rewrite List.filter_app, Hh, app_nil_r. reflexivity.
Qed.

End MonadFacts.

Lemma quiet_await (p : action -> bool) (s : site) (a : action) :
  p a = false -> quiet p (await s a).
Proof. intros Hp h. simpl. rewrite Hp. reflexivity. Qed.

Lemma quiet_emit (p : action -> bool) (a : action) :
  p a = false -> quiet p (emit a).
Proof. intros Hp h. simpl. rewrite Hp. reflexivity. Qed.

Lemma quiet_for_each {A : Type} (p : action -> bool) (l : list A)
    (body : A -> M unit) :
  (forall x, quiet p (body x)) -> quiet p (for_each l body).
Proof.
  intros Hb. induction l as [|x l IH]; simpl.
  - apply quiet_ret.
  - apply quiet_bind; [apply Hb | intros _; exact IH].
Qed.

(** An awaited call that does not reject, followed by [k]. *)
Lemma bind_await_ok {B : Type} (s : site) (a : action) (k : unit -> M B)
    (h : list action) :
  fault s h a = None ->
  bind (await s a) k h = (a :: fst (k tt (h ++ [a])), snd (k tt (h ++ [a]))).
Proof.
  intros Hf. unfold bind, await. rewrite Hf.
  destruct (k tt (h ++ [a])) as [es r]. reflexivity.
Qed.

Lemma bind_ret {A B : Type} (a : A) (k : A -> M B) (h : list action) :
  bind (ret a) k h = k a (h ++ []).
Proof. unfold bind, ret. destruct (k a (h ++ [])) as [es r]. reflexivity. Qed.

Lemma bind_error {A B : Type} (m : M A) (k : A -> M B) (h es : list action)
    (e : error) :
  m h = (es, inl e) -> bind m k h = (es, inl e).
Proof. intros Hm. unfold bind. rewrite Hm. reflexivity. Qed.

Lemma try_catch_error {A : Type} (m : M A) (handler : error -> M A)
    (h es : list action) (e : error) :
  m h = (es, inl e) ->
  try_catch m handler h =
    (es ++ fst (handler e (h ++ es)), snd (handler e (h ++ es))).
Proof.
  intros Hm. unfold try_catch. rewrite Hm.
  destruct (handler e (h ++ es)) as [es' r]. reflexivity.
Qed.

Lemma bind_throw {A B : Type} (e : error) (k : A -> M B) (h : list action) :
  bind (throw e) k h = ([], inl e).
Proof. reflexivity. Qed.

(** ** The publish steps make no paint action and never close the browser *)

Section PublishQuiet.
Variable p : action -> bool.
Hypothesis Hp : forall a, is_publish_step a = true -> p a = false.
Variable s : site.

Lemma quiet_click_first_publish (btns : list button) :
  forall i, quiet p (click_first_publish s btns i).
Proof.
  induction btns as [|b rest IH]; intros i; simpl.
  - apply quiet_ret.
  - apply quiet_bind; [apply quiet_await, Hp; reflexivity|]. intros _.
    destruct (includes _ _); [apply quiet_await, Hp; reflexivity | apply IH].
Qed.

Lemma quiet_lowest_publish (btns : list button) :
  forall i maxY best, quiet p (lowest_publish s btns i maxY best).
Proof.
  induction btns as [|b rest IH]; intros i maxY best; simpl.
  - apply quiet_ret.
  - apply quiet_bind; [apply quiet_await, Hp; reflexivity|]. intros _.
    destruct (includes _ _); [|apply IH].
    apply quiet_bind; [apply quiet_await, Hp; reflexivity|]. intros _.
    destruct (box_y b) as [y|]; [|apply IH].
    destruct (PrimFloat.ltb maxY y); apply IH.
Qed.

Lemma quiet_first_link (host : string) (hrefs : list string) :
  forall i, quiet p (first_link s host hrefs i).
Proof.
  induction hrefs as [|href rest IH]; intros i; simpl.
  - apply quiet_ret.
  - apply quiet_bind; [apply quiet_await, Hp; reflexivity|]. intros _.
    destruct (truthy href && includes href host); [apply quiet_ret | apply IH].
Qed.

Lemma quiet_title_step (cond : bool) (title : string) :
  quiet p (if cond then await s ClickTitle ;;; await s (TypeTitle title)
           else ret tt).
Proof.
  destruct cond; [|apply quiet_ret].
  apply quiet_bind; [apply quiet_await, Hp; reflexivity|]. intros _.
  apply quiet_await, Hp. reflexivity.
Qed.

Lemma quiet_server_publish (title : string) :
  quiet p (ServerJsReplay.publish s title).
Proof.
  unfold ServerJsReplay.publish.
  repeat (apply quiet_bind; [|intros _]);
    try (apply quiet_await, Hp; reflexivity);
    try apply quiet_click_first_publish; try apply quiet_title_step.
  apply quiet_first_link.
Qed.

Lemma quiet_blackbg_publish (title : string) :
  quiet p (BlackBgReplay.publish s title).
Proof.
  unfold BlackBgReplay.publish.
  repeat (apply quiet_bind; [|intros _]);
    try (apply quiet_await, Hp; reflexivity);
    try apply quiet_title_step; try apply quiet_ret.
  - unfold BlackBgReplay.click_found_publish.
    destruct (publish_indices _); [apply quiet_ret|].
    apply quiet_emit, Hp. reflexivity.
  - unfold BlackBgReplay.click_modal_publish. cbv zeta.
    destruct (1 <? _); [|destruct (_ =? 1)];
      try destruct (_ !! _); try apply quiet_ret;
      apply quiet_emit, Hp; reflexivity.
Qed.

Lemma quiet_click_lowest_publish (btns : list button) (missing : string) :
  quiet p (PollinationsReplay.click_lowest_publish s btns missing).
Proof.
  unfold PollinationsReplay.click_lowest_publish.
  apply quiet_bind; [apply quiet_lowest_publish|].
  intros [i|]; [apply quiet_await, Hp; reflexivity | apply quiet_throw].
Qed.

Lemma quiet_pollinations_publish (title : string) :
  quiet p (PollinationsReplay.publish s title).
Proof.
  unfold PollinationsReplay.publish.
  repeat (apply quiet_bind; [|intros _]);
    try (apply quiet_await, Hp; reflexivity);
    try apply quiet_click_lowest_publish; try apply quiet_title_step.
  apply quiet_first_link.
Qed.

End PublishQuiet.

Lemma publish_step_not_paint (a : action) :
  is_publish_step a = true -> is_paint a = false.
Proof. destruct a; simpl; congruence. Qed.

Lemma publish_step_not_close (a : action) :
  is_publish_step a = true -> is_close a = false.
Proof. destruct a; simpl; congruence. Qed.

(** ** The paint loop is colour-major *)

Lemma filter_seq_blocks (f : nat -> bool) (start n : nat) :
  List.filter f (seq start n) =
  concat (map (fun x => if f (start + x) then [start + x] else []) (seq 0 n)).
Proof.
  induction n as [|n IH]; [reflexivity|].
  rewrite !seq_S, List.filter_app, map_app, concat_app, IH. simpl.
  destruct (f (start + n)); reflexivity.
Qed.

Lemma filter_seq_rows (f : nat -> bool) (rows cols : nat) :
  List.filter f (seq 0 (rows * cols)) =
  concat (map (fun y =>
    concat (map (fun x => if f (y * cols + x) then [y * cols + x] else [])
                (seq 0 cols))) (seq 0 rows)).
Proof.
  induction rows as [|rows IH]; [reflexivity|].
  replace (S rows * cols) with (rows * cols + cols) by lia.
  rewrite seq_app, List.filter_app, IH, seq_S, map_app, concat_app. simpl.
  rewrite filter_seq_blocks, app_nil_r. reflexivity.
Qed.

Lemma pixels_of_assigned (grid : Grid) (c : nat) :
  GRID_ROWS <= length grid -> pixels_of grid c = Some (assigned grid c).
Proof.
  intros Hrows. unfold pixels_of, assigned.
  rewrite filter_seq_rows. apply scan_grid_total. intros y Hy.
  destruct (lookup_lt_is_Some_2 grid y) as [row Hrow]; [lia|].
  exists row. split; [exact Hrow|]. intros x Hx. f_equal.
  replace ((y * GRID_COLS + x) / GRID_COLS) with y
    by (apply Nat.div_unique with x; unfold GRID_COLS in *; lia).
  replace ((y * GRID_COLS + x) mod GRID_COLS) with x
    by (apply Nat.mod_unique with y; unfold GRID_COLS in *; lia).
  unfold cell_at. rewrite Hrow.
  destruct (row !! x) as [c'|].
  - destruct (Nat.eqb_spec c' c) as [->|Hne];
      destruct (decide (Some _ = Some c)) as [E|E]; congruence.
  - destruct (decide (None = Some c)); [discriminate|reflexivity].
Qed.

Lemma assigned_range (grid : Grid) (c pos : nat) :
  In pos (assigned grid c) -> pos < GRID_ROWS * GRID_COLS.
Proof.
  unfold assigned. intros H. apply filter_In in H as [H _].
  apply in_seq in H. lia.
Qed.

Lemma for_each_run {A : Type} (l : list A) (body : A -> M unit)
    (ev : A -> list action) :
  (forall x h, In x l -> body x h = (ev x, inr tt)) ->
  forall h, for_each l body h = (concat (map ev l), inr tt).
Proof.
  induction l as [|x l IH]; intros Hb h; [reflexivity|].
  simpl. unfold bind. rewrite (Hb x h) by (left; reflexivity).
  rewrite IH by (intros y h' Hy; apply Hb; right; exact Hy).
  reflexivity.
Qed.

Section Paint.
Variable s : site.
Variable grid : Grid.
Hypothesis Hfaultless : faultless s.
Hypothesis Hrows : GRID_ROWS <= length grid.
Hypothesis Hcells : GRID_ROWS * GRID_COLS <= cells_found s.

Lemma paint_color_run (c : nat) (h : list action) :
  c < swatches_found s c ->
  paint_color s grid c h = (color_round grid c, inr tt).
Proof.
  intros Hsw. unfold paint_color, color_round.
  rewrite (pixels_of_assigned grid c Hrows).
  pose proof (assigned_range grid c) as Hrange.
  destruct (assigned grid c) as [|p ps]; [reflexivity|].
  rewrite bind_await_ok by apply Hfaultless.
  destruct (Nat.ltb_spec c (swatches_found s c)) as [_|]; [|lia].
  rewrite bind_await_ok by apply Hfaultless.
  rewrite (for_each_run (p :: ps) _ (fun idx => [ClickCell idx])).
  - simpl. f_equal. f_equal. f_equal. f_equal.
    induction ps as [|q ps IH']; [reflexivity|]. simpl. f_equal.
    apply IH'. intros pos Hin. apply Hrange. simpl in *. tauto.
  - intros idx h' Hin.
    destruct (Nat.ltb_spec idx (cells_found s)) as [_|Hge].
    + unfold await. rewrite Hfaultless. reflexivity.
    + specialize (Hrange idx Hin). lia.
Qed.

Lemma paint_run (pal : list PaletteEntry) (h : list action) :
  (forall c, 1 <= c < length pal -> c < swatches_found s c) ->
  paint pal s grid h =
    (concat (map (color_round grid) (seq 1 (length pal - 1))), inr tt).
Proof.
  intros Hsw. unfold paint. apply for_each_run.
  intros c h' Hc. apply in_seq in Hc. apply paint_color_run, Hsw. lia.
Qed.

Lemma paint_actions_rounds (cs : list nat) :
  paint_actions (concat (map (color_round grid) cs)) =
  concat (map (fun c =>
                 match assigned grid c with
                 | [] => []
                 | ps => ClickSwatch c :: map ClickCell ps
                 end) cs).
Proof.
  induction cs as [|c cs IH]; [reflexivity|].
  cbn [map concat]. rewrite List.filter_app, IH. f_equal.
  unfold color_round. destruct (assigned grid c) as [|pos ps]; [reflexivity|].
  cbn [List.filter is_paint]. f_equal.
  apply filter_all. intros a Ha.
  change (ClickCell pos :: map ClickCell ps) with (map ClickCell (pos :: ps))
    in Ha.
  apply in_map_iff in Ha as (q & <- & _). reflexivity.
Qed.

Lemma paint_colour_major (pal : list PaletteEntry) (h : list action)
    (k : unit -> M (option string)) :
  length pal = 12 ->
  (forall c, 1 <= c < 12 -> c < swatches_found s c) ->
  (forall u, quiet is_paint (k u)) ->
  paint_actions (fst (bind (paint pal s grid) k h)) = color_major grid.
Proof.
  intros Hlen Hsw Hk.
  rewrite filter_bind_quiet_right by exact Hk.
  rewrite paint_run by (rewrite Hlen; exact Hsw).
  rewrite Hlen. change (12 - 1) with 11. cbn [fst].
  unfold color_major. apply paint_actions_rounds.
Qed.

End Paint.

(** C4.  On a run in which no browser call rejects, against a page that
    offers the 48 x 32 cell controls and the twelve swatches, the paint
    actions of drawAndPublish are exactly the colour-major sequence: the
    colours 1 to 11 in ascending order, each colour that some cell holds
    contributing its swatch click followed by the clicks on exactly its
    cells in row-major order (position y * 48 + x), and a colour that no
    cell holds contributing nothing.  Index 0 is not among the colours, so
    no background cell is clicked.  This holds for the three versions. *)
Theorem drawAndPublish_color_major (s : site) (grid : Grid) (title : string) :
  faultless s ->
  length grid = GRID_ROWS ->
  GRID_ROWS * GRID_COLS <= cells_found s ->
  (forall c, 1 <= c < 12 -> c < swatches_found s c) ->
  paint_actions (fst (run (ServerJsReplay.drawAndPublish s grid title)))
    = color_major grid /\
  paint_actions (fst (run (BlackBgReplay.drawAndPublish s grid title)))
    = color_major grid /\
  paint_actions (fst (run (PollinationsReplay.drawAndPublish s grid title)))
    = color_major grid.
Proof.
  intros Hf Hrows Hcells Hsw.
  assert (Hrows' : GRID_ROWS <= length grid) by lia.
  assert (Hhandler : forall e : error,
            quiet is_paint (await s Close ;;; @throw (option string) e)).
  { intros e. apply quiet_bind; [apply quiet_await; reflexivity|].
    intros _. apply quiet_throw. }
  assert (Hclose : forall url : option string,
            quiet is_paint (await s Close ;;; ret url)).
  { intros url. apply quiet_bind; [apply quiet_await; reflexivity|].
    intros _. apply quiet_ret. }
  unfold run. repeat split.
  - unfold ServerJsReplay.drawAndPublish.
    rewrite !bind_await_ok by apply Hf. cbn [fst List.filter is_paint].
    rewrite filter_try_catch_quiet by exact Hhandler.
    rewrite filter_bind_quiet_right by exact Hclose.
    unfold ServerJsReplay.replay.
    rewrite !bind_await_ok by apply Hf. cbn [fst List.filter is_paint].
    apply (paint_colour_major s grid Hf Hrows' Hcells); try assumption;
      [reflexivity|].
    intros _. apply quiet_server_publish, publish_step_not_paint.
  - unfold BlackBgReplay.drawAndPublish.
    rewrite !bind_await_ok by apply Hf. cbn [fst List.filter is_paint].
    rewrite filter_try_catch_quiet by exact Hhandler.
    rewrite filter_bind_quiet_right by exact Hclose.
    unfold BlackBgReplay.replay.
    rewrite !bind_await_ok by apply Hf. cbn [fst List.filter is_paint].
    destruct (Nat.eqb_spec (cells_found s) 0) as [E|_];
      [unfold GRID_ROWS, GRID_COLS in Hcells; lia|].
    rewrite bind_ret.
    apply (paint_colour_major s grid Hf Hrows' Hcells); try assumption;
      [reflexivity|].
    intros _. apply quiet_blackbg_publish, publish_step_not_paint.
  - unfold PollinationsReplay.drawAndPublish.
    rewrite !bind_await_ok by apply Hf. cbn [fst List.filter is_paint].
    rewrite filter_try_catch_quiet by exact Hhandler.
    rewrite filter_bind_quiet_right by exact Hclose.
    unfold PollinationsReplay.replay.
    rewrite !bind_await_ok by apply Hf. cbn [fst List.filter is_paint].
    apply (paint_colour_major s grid Hf Hrows' Hcells); try assumption;
      [reflexivity|].
    intros _. apply quiet_pollinations_publish, publish_step_not_paint.
Qed.

(** ** Example pages and grids *)

Lemma demo_grid_valid : valid_grid 12 demo_grid.
Proof.
  apply build_grid_valid. intros y x.
  destruct ((y =? 0) && (x <? 2)); [lia|].
  destruct ((y =? 31) && (x =? 47)); lia.
Qed.

Example demo_color_major :
  color_major demo_grid =
    [ClickSwatch 1; ClickCell 1535; ClickSwatch 3; ClickCell 0; ClickCell 1].
Proof. vm_compute. reflexivity. Qed.

Lemma drawAndPublish_color_major_witness :
  paint_actions (fst (run (ServerJsReplay.drawAndPublish demo_site demo_grid "art")))
    = color_major demo_grid /\
  paint_actions (fst (run (BlackBgReplay.drawAndPublish demo_site demo_grid "art")))
    = color_major demo_grid /\
  paint_actions (fst (run (PollinationsReplay.drawAndPublish demo_site demo_grid "art")))
    = color_major demo_grid.
Proof.
  apply (drawAndPublish_color_major demo_site demo_grid "art").
  - intros h a. reflexivity.
  - reflexivity.
  - vm_compute. lia.
  - intros c Hc. simpl. lia.
Defined.

(** The preview of the example grid: the second cell of the first row
    holds colour 3 and is a square at (10, 0) filled with #b39223; the
    third holds 0 and is a white square at (20, 0) in src/server.js and
    nothing on the black background; the last cell of the last row holds
    colour 1 and is a square at (470, 310) filled with #1fea5c. *)
Lemma gridToSvg_one_rect_per_cell_witness :
  exists elems elems' : list string,
    ServerJs.gridToSvg demo_grid =
      inr (svg_picture "" (String.concat "" elems)) /\
    elems !! 1 =
      Some ("<rect x=" +:+ quoted "10" +:+ " y=" +:+ quoted "0" +:+
            " width=" +:+ quoted "10" +:+ " height=" +:+ quoted "10" +:+
            " fill=" +:+ quoted "#b39223" +:+ "/>") /\
    elems !! 2 = Some (square_at 20 0 "#ffffff") /\
    elems !! 1535 = Some (square_at 470 310 "#1fea5c") /\
    BlackBg.gridToSvg demo_grid =
      inr (svg_picture
             ("<rect width=" +:+ quoted "100%" +:+ " height=" +:+
              quoted "100%" +:+ " fill=" +:+ quoted "#000000" +:+ "/>")
             (String.concat "" elems')) /\
    elems' !! 1 = Some (square_at 10 0 "#b39223") /\
    elems' !! 2 = Some ""%string /\
    elems' !! 1535 = Some (square_at 470 310 "#1fea5c").
Proof.
  destruct (gridToSvg_one_rect_per_cell demo_grid demo_grid_valid)
    as [(elems & _ & Hsvg & Hcells & _) (elems' & _ & Hsvg' & Hcells')].
  exists elems, elems'.
  split; [exact Hsvg|]. split.
  { destruct (Hcells 0 1 3 eq_refl) as (e & He & Hr).
    injection He as <-. exact Hr. }
  split.
  { destruct (Hcells 0 2 0 eq_refl) as (e & He & Hr).
    injection He as <-. exact Hr. }
  split.
  { destruct (Hcells 31 47 1 eq_refl) as (e & He & Hr).
    injection He as <-. exact Hr. }
  split; [exact Hsvg'|]. split.
  { destruct (Hcells' 0 1 3 eq_refl) as (e & He & Hr).
    injection He as <-. exact Hr. }
  split.
  { exact (Hcells' 0 2 0 eq_refl). }
  { destruct (Hcells' 31 47 1 eq_refl) as (e & He & Hr).
    injection He as <-. exact Hr. }
Defined.

(** ** A page without grid cells *)

Lemma blackbg_replay_no_cells (s : site) (grid : Grid) (title : string)
    (h : list action) :
  cells_found s = 0 -> faultless s ->
  BlackBgReplay.replay s grid title h =
    ([Goto; QueryCells], inl (JsError BlackBgReplay.NO_CELLS)).
Proof.
  intros Hnone Hf. unfold BlackBgReplay.replay.
  rewrite !bind_await_ok by apply Hf. rewrite Hnone.
  change (0 =? 0) with true. cbv iota. rewrite bind_throw. reflexivity.
Qed.

(** The black-background version fails fast: with no cell found it never
    clicks a swatch or a cell, whatever else goes wrong, and on a run
    without rejected calls it closes the browser and throws the
    'No grid cells found' error right after the cell query. *)
Lemma blackbg_no_cells_fails_fast (s : site) (grid : Grid) (title : string) :
  cells_found s = 0 ->
  paint_actions (fst (run (BlackBgReplay.drawAndPublish s grid title))) = [] /\
  (faultless s ->
   run (BlackBgReplay.drawAndPublish s grid title) =
     ([Launch; NewPage; SetViewport; Goto; QueryCells; Close],
      inl (JsError BlackBgReplay.NO_CELLS))).
Proof.
  intros Hnone. split.
  - apply (quiet_bind is_paint); [apply quiet_await; reflexivity|]. intros _.
    apply quiet_bind; [apply quiet_await; reflexivity|]. intros _.
    apply quiet_bind; [apply quiet_await; reflexivity|]. intros _.
    apply quiet_try_catch.
    + apply quiet_bind.
      * unfold BlackBgReplay.replay. rewrite Hnone. simpl (0 =? 0).
        apply quiet_bind; [apply quiet_await; reflexivity|]. intros _.
        apply quiet_bind; [apply quiet_await; reflexivity|]. intros _.
        intros h. reflexivity.
      * intros url. apply quiet_bind; [apply quiet_await; reflexivity|].
        intros _. apply quiet_ret.
    + intros e. apply quiet_bind; [apply quiet_await; reflexivity|].
      intros _. apply quiet_throw.
  - intros Hf. unfold run, BlackBgReplay.drawAndPublish.
    rewrite !bind_await_ok by apply Hf.
    rewrite (try_catch_error _ _ _ [Goto; QueryCells]
               (JsError BlackBgReplay.NO_CELLS))
      by (apply bind_error, blackbg_replay_no_cells; assumption).
    rewrite bind_await_ok by apply Hf. reflexivity.
Qed.

Lemma blackbg_no_cells_fails_fast_witness :
  paint_actions
    (fst (run (BlackBgReplay.drawAndPublish drifted_site demo_grid "art")))
    = [] /\
  run (BlackBgReplay.drawAndPublish drifted_site demo_grid "art") =
    ([Launch; NewPage; SetViewport; Goto; QueryCells; Close],
     inl (JsError BlackBgReplay.NO_CELLS)).
Proof.
  destruct (blackbg_no_cells_fails_fast drifted_site demo_grid "art" eq_refl)
    as [Hquiet Hfail].
  split; [exact Hquiet|]. apply Hfail. intros h a. reflexivity.
Defined.

(** C3 (the code of src/server.js and of the pollinations version at the
    failing input).  On a page where the cell query finds nothing and a
    grid that holds colours 1 and 3, these two versions do not fail: they
    click the swatches of both colours, run the publish steps and return
    the scraped URL.  Only the black-background version throws. *)
Theorem no_cells_guard_missing :
  run (ServerJsReplay.drawAndPublish drifted_site demo_grid "art") =
    ([Launch; NewPage; Goto; QueryCells; QuerySwatches; ClickSwatch 1;
      QuerySwatches; ClickSwatch 3; QueryButtons; ReadText 0; ClickButton 0;
      QueryTitleInput; ClickTitle; TypeTitle "art"; QueryButtons; ReadText 0;
      ClickButton 0; QueryLinks; ReadHref 0; ReadHref 1; Close],
     inr (Some "https://opentrons-art.rcdonovan.com/gallery/42"%string)) /\
  paint_actions
    (fst (run (PollinationsReplay.drawAndPublish drifted_site demo_grid "art")))
    = [ClickSwatch 1; ClickSwatch 3] /\
  run (BlackBgReplay.drawAndPublish drifted_site demo_grid "art") =
    ([Launch; NewPage; SetViewport; Goto; QueryCells; Close],
     inl (JsError "No grid cells found - page may not have loaded correctly")).
Proof. vm_compute. repeat split; reflexivity. Qed.

(** ** The button of the confirm step *)



(** C5 (the code at the failing input).  With the page's own Publish button
    first in the document and the dialog's Publish button last, the buttons
    matching 'Publish' are those at positions 0 and 2.  In the confirm step
    src/server.js clicks position 0, the first match, and the pollinations
    version clicks position 0 too, the match lowest on the screen; only the
    black-background version clicks position 2, the last match. *)
Theorem confirm_button_not_last :
  publish_indices (confirm_buttons demo_site) = [0; 2] /\
  List.filter is_button_click
    (fst (run (ServerJsReplay.drawAndPublish demo_site demo_grid "art")))
    = [ClickButton 0; ClickButton 0] /\
  List.filter is_button_click
    (fst (run (PollinationsReplay.drawAndPublish demo_site demo_grid "art")))
    = [ClickButton 0; ClickButton 0] /\
  List.filter is_button_click
    (fst (run (BlackBgReplay.drawAndPublish demo_site demo_grid "art")))
    = [ClickButton 0; ClickButton 2].
Proof. vm_compute. repeat split; reflexivity. Qed.

(** ** Closing the browser *)

Lemma quiet_paint_close (pal : list PaletteEntry) (s : site) (grid : Grid) :
  quiet is_close (paint pal s grid).
Proof.
  apply quiet_for_each. intros c. unfold paint_color.
  destruct (pixels_of grid c) as [[|pos ps]|];
    [apply quiet_ret | | apply quiet_throw].
  apply quiet_bind; [apply quiet_await; reflexivity|]. intros _.
  apply quiet_bind.
  - destruct (c <? _); [apply quiet_await; reflexivity | apply quiet_ret].
  - intros _. apply quiet_for_each. intros idx.
    destruct (idx <? _); [apply quiet_await; reflexivity | apply quiet_ret].
Qed.

(** A try block that ends with [browser.close()] and a catch clause that
    calls it too: one call in all, as long as the call itself does not
    reject. *)
Lemma try_close_once {A : Type} (s : site) (m : M A) (h : list action) :
  (forall h', fault s h' Close = None) -> quiet is_close m ->
  List.filter is_close
    (fst (try_catch (a <~ m ;; await s Close ;;; ret a)
                    (fun err => await s Close ;;; throw err) h)) = [Close].
Proof.
  intros Hclose Hm. unfold try_catch, bind at 1. specialize (Hm h).
  destruct (m h) as [es [e|a]]; cbn [fst] in Hm.
  - rewrite bind_await_ok by apply Hclose. cbn [fst snd throw].
    rewrite List.filter_app, Hm. reflexivity.
  - rewrite bind_await_ok by apply Hclose. cbn [fst snd ret].
    rewrite List.filter_app, Hm. reflexivity.
Qed.

(** Once the page exists, every version closes the browser exactly once,
    whichever later call rejects, provided [browser.close()] does not. *)
Lemma closes_once_after_page (s : site) (grid : Grid) (title : string) :
  (forall h, fault s h Launch = None) ->
  (forall h, fault s h NewPage = None) ->
  (forall h, fault s h SetViewport = None) ->
  (forall h, fault s h Close = None) ->
  List.filter is_close
    (fst (run (ServerJsReplay.drawAndPublish s grid title))) = [Close] /\
  List.filter is_close
    (fst (run (BlackBgReplay.drawAndPublish s grid title))) = [Close] /\
  List.filter is_close
    (fst (run (PollinationsReplay.drawAndPublish s grid title))) = [Close].
Proof.
  intros Hlaunch Hpage Hview Hclose. unfold run. repeat split.
  - unfold ServerJsReplay.drawAndPublish.
    rewrite bind_await_ok by apply Hlaunch.
    rewrite bind_await_ok by apply Hpage. cbn [fst List.filter is_close].
    apply try_close_once; [exact Hclose|].
    unfold ServerJsReplay.replay.
    apply quiet_bind; [apply quiet_await; reflexivity|]. intros _.
    apply quiet_bind; [apply quiet_await; reflexivity|]. intros _.
    apply quiet_bind; [apply quiet_paint_close|]. intros _.
    apply quiet_server_publish, publish_step_not_close.
  - unfold BlackBgReplay.drawAndPublish.
    rewrite bind_await_ok by apply Hlaunch.
    rewrite bind_await_ok by apply Hpage.
    rewrite bind_await_ok by apply Hview. cbn [fst List.filter is_close].
    apply try_close_once; [exact Hclose|].
    unfold BlackBgReplay.replay.
    apply quiet_bind; [apply quiet_await; reflexivity|]. intros _.
    apply quiet_bind; [apply quiet_await; reflexivity|]. intros _.
    apply quiet_bind;
      [destruct (_ =? 0); [apply quiet_throw | apply quiet_ret]|]. intros _.
    apply quiet_bind; [apply quiet_paint_close|]. intros _.
    apply quiet_blackbg_publish, publish_step_not_close.
  - unfold PollinationsReplay.drawAndPublish.
    rewrite bind_await_ok by apply Hlaunch.
    rewrite bind_await_ok by apply Hpage. cbn [fst List.filter is_close].
    apply try_close_once; [exact Hclose|].
    unfold PollinationsReplay.replay.
    apply quiet_bind; [apply quiet_await; reflexivity|]. intros _.
    apply quiet_bind; [apply quiet_await; reflexivity|]. intros _.
    apply quiet_bind; [apply quiet_paint_close|]. intros _.
    apply quiet_pollinations_publish, publish_step_not_close.
Qed.

Lemma closes_once_after_page_witness :
  List.filter is_close
    (fst (run (ServerJsReplay.drawAndPublish offline_site demo_grid "art")))
    = [Close] /\
  List.filter is_close
    (fst (run (BlackBgReplay.drawAndPublish offline_site demo_grid "art")))
    = [Close] /\
  List.filter is_close
    (fst (run (PollinationsReplay.drawAndPublish offline_site demo_grid "art")))
    = [Close].
Proof.
  apply (closes_once_after_page offline_site demo_grid "art");
    intros h; reflexivity.
Defined.

(** C6 (the code at the failing input).  [browser.newPage()] is awaited
    before the try block.  When it rejects, the three versions raise with
    the browser launched and [browser.close()] never called. *)
Theorem newPage_failure_leaks_browser :
  run (ServerJsReplay.drawAndPublish crashing_site demo_grid "art") =
    ([Launch; NewPage], inl (JsError "Protocol error")) /\
  run (BlackBgReplay.drawAndPublish crashing_site demo_grid "art") =
    ([Launch; NewPage], inl (JsError "Protocol error")) /\
  run (PollinationsReplay.drawAndPublish crashing_site demo_grid "art") =
    ([Launch; NewPage], inl (JsError "Protocol error")) /\
  List.filter is_close
    (fst (run (ServerJsReplay.drawAndPublish crashing_site demo_grid "art")))
    = [].
Proof. vm_compute. repeat split; reflexivity. Qed.

(* ================================================================== *)
(** * Properties of the job table *)
(* ================================================================== *)

(** C7, as stated, fails: after a preview, a publish and the replay's
    success the job is 'done', and a second /publish puts the same job back
    to 'processing'; and a job made at time 0 is still in the table two
    hours later when no successful /preview has swept it. *)
Lemma job_lifecycle_counterexample :
  status <$> status_reply (exec ServerJsReplay.drawAndPublish boot
                                (take 3 republish_run)) 0 = Some StDone /\
  status <$> status_reply (exec ServerJsReplay.drawAndPublish boot
                                republish_run) 0 = Some StProcessing /\
  status <$> status_reply (exec ServerJsReplay.drawAndPublish boot
                                stale_run) 0 = Some StPreview.
Proof. vm_compute. repeat split; reflexivity. Qed.

Section JobFacts.
Variable dap : site -> Grid -> string -> M (option string).

Lemma tracked_boot : tracked boot.
Proof.
  split.
  - intros x [].
  - intros obj j H. destruct obj; discriminate.
Qed.

Lemma running_for_app (sv : server) (obj : nat)
    (l1 l2 : list (nat * Grid * string)) :
  running sv = l1 ++ l2 ->
  running_for sv obj =
    length (List.filter (fun x => fst (fst x) =? obj) l1) +
    length (List.filter (fun x => fst (fst x) =? obj) l2).
Proof.
  intros H. unfold running_for. rewrite H, List.filter_app, length_app.
  reflexivity.
Qed.

(** One step changes each job object by at most one forward move. *)
Lemma step_forward (sv : server) (r : request) :
  tracked sv -> publishes_fresh sv r ->
  forall obj j, heap sv !! obj = Some j ->
    exists j', heap (step dap sv r) !! obj = Some j' /\ forward j j'.
Proof.
  intros [Hrange Hcount] Hfresh obj j Hj.
  destruct r as [prompt generated id_now sweep_now|jobId title|jobId|k st];
    simpl.
  - destruct (negb (truthy prompt)); [exists j; split; [exact Hj|left; reflexivity]|].
    destruct generated as [e|grid]; [exists j; split; [exact Hj|left; reflexivity]|].
    simpl. exists j. split; [|left; reflexivity].
    apply lookup_app_l_Some. exact Hj.
  - destruct (jobs sv !! jobId) as [target|] eqn:Hid;
      [|exists j; split; [exact Hj|left; reflexivity]].
    destruct (heap sv !! target) as [jt|] eqn:Ht;
      [|exists j; split; [exact Hj|left; reflexivity]].
    simpl. destruct (Nat.eq_dec obj target) as [->|Hne].
    + exists (set_processing jt). split.
      * apply list_lookup_insert_eq. eapply lookup_lt_Some. exact Ht.
      * rewrite Hj in Ht. injection Ht as ->.
        right. left. split; [|reflexivity].
        exact (Hfresh target jt Hid Hj).
    + exists j. split; [|left; reflexivity].
      rewrite list_lookup_insert_ne by congruence. exact Hj.
  - exists j. split; [exact Hj|left; reflexivity].
  - destruct (running sv !! k) as [[[target grid] title]|] eqn:Hk;
      [|exists j; split; [exact Hj|left; reflexivity]].
    simpl. destruct (Nat.eq_dec obj target) as [->|Hne].
    + assert (Hproc : status j = StProcessing).
      { specialize (Hcount target j Hj).
        pose proof (take_drop_middle _ _ _ Hk) as Hsplit.
        rewrite (running_for_app sv target _ _ (eq_sym Hsplit)) in Hcount.
        simpl in Hcount. rewrite Nat.eqb_refl in Hcount. simpl in Hcount.
        destruct (status j); try reflexivity; lia. }
      destruct (snd (run (dap st grid title))) as [e|url].
      * exists (set_error e j). split.
        -- rewrite list_lookup_alter_eq, Hj. reflexivity.
        -- right. right. right. split; [exact Hproc|]. split; [reflexivity|].
           discriminate.
      * exists (set_done url j). split.
        -- rewrite list_lookup_alter_eq, Hj. reflexivity.
        -- right. right. left. split; [exact Hproc|]. split; [reflexivity|].
           discriminate.
    + exists j. split; [|left; reflexivity].
      rewrite list_lookup_alter_ne by congruence. exact Hj.
Qed.
Lemma step_tracked (sv : server) (r : request) :
  tracked sv -> publishes_fresh sv r -> tracked (step dap sv r).
Proof.
  intros [Hrange Hcount] Hfresh.
  destruct r as [prompt generated id_now sweep_now|jobId title|jobId|k st];
    simpl.
  - destruct (negb (truthy prompt)); [split; assumption|].
    destruct generated as [e|grid]; [split; assumption|].
    split; simpl.
    + intros x Hx. specialize (Hrange x Hx). rewrite length_app. simpl. lia.
    + intros obj j Hj.
      destruct (Nat.lt_ge_cases obj (length (heap sv))) as [Hlt|Hge].
      * rewrite lookup_app_l in Hj by exact Hlt. exact (Hcount obj j Hj).
      * rewrite lookup_app_r in Hj by exact Hge.
        destruct (obj - length (heap sv)) as [|d] eqn:Ed; [|destruct d; discriminate].
        injection Hj as <-. simpl. unfold running_for. simpl.
        rewrite filter_none; [reflexivity|].
        intros x Hx. specialize (Hrange x Hx).
        apply Nat.eqb_neq. lia.
  - destruct (jobs sv !! jobId) as [target|] eqn:Hid; [|split; assumption].
    destruct (heap sv !! target) as [jt|] eqn:Ht; [|split; assumption].
    pose proof (lookup_lt_Some _ _ _ Ht) as Hlt.
    pose proof (Hfresh target jt Hid Ht) as Hprev.
    split; simpl.
    + intros x Hx. rewrite length_insert.
      apply in_app_or in Hx as [Hx|[<-|[]]]; [exact (Hrange x Hx)|exact Hlt].
    + intros obj j Hj. unfold running_for. simpl.
      rewrite List.filter_app, length_app. fold (running_for sv obj). simpl.
      destruct (Nat.eq_dec obj target) as [->|Hne].
      * rewrite list_lookup_insert_eq in Hj by exact Hlt. injection Hj as <-.
        rewrite Nat.eqb_refl, (Hcount target jt Ht), Hprev. reflexivity.
      * rewrite list_lookup_insert_ne in Hj by congruence.
        rewrite (Hcount obj j Hj).
        destruct (Nat.eqb_spec target obj) as [E|_]; [congruence|].
        simpl. lia.
  - split; assumption.
  - destruct (running sv !! k) as [[[target grid] title]|] eqn:Hk;
      [|split; assumption].
    pose proof (take_drop_middle _ _ _ Hk) as Hsplit.
    split; simpl.
    + intros x Hx. rewrite length_alter. apply Hrange.
      rewrite delete_take_drop in Hx. rewrite <- Hsplit.
      apply in_app_or in Hx. apply in_or_app.
      destruct Hx as [Hx|Hx]; [left; exact Hx | right; right; exact Hx].
    + intros obj j' Hj'. unfold running_for. simpl.
      rewrite delete_take_drop, List.filter_app, length_app.
      destruct (Nat.eq_dec obj target) as [->|Hne].
      * rewrite list_lookup_alter_eq in Hj'.
        destruct (heap sv !! target) as [j|] eqn:Hj; [|discriminate].
        specialize (Hcount target j Hj).
        rewrite (running_for_app sv target _ _ (eq_sym Hsplit)) in Hcount.
        simpl in Hcount. rewrite Nat.eqb_refl in Hcount. simpl in Hcount.
        simpl in Hj'. injection Hj' as <-.
        assert (Hzero : length (List.filter (fun x => fst (fst x) =? target)
                                  (take k (running sv))) +
                        length (List.filter (fun x => fst (fst x) =? target)
                                  (drop (S k) (running sv))) = 0)
          by (destruct (status j); lia).
        rewrite Hzero.
        destruct (snd (run (dap st grid title))); reflexivity.
      * rewrite list_lookup_alter_ne in Hj' by congruence.
        specialize (Hcount obj j' Hj').
        rewrite (running_for_app sv obj _ _ (eq_sym Hsplit)) in Hcount.
        simpl in Hcount.
        destruct (Nat.eqb_spec target obj) as [E|_]; [congruence|].
        exact Hcount.
Qed.

Lemma disciplined_prefix (pre rest : list request) :
  forall sv, tracked sv -> disciplined dap sv (pre ++ rest) ->
    tracked (exec dap sv pre) /\ disciplined dap (exec dap sv pre) rest.
Proof.
  induction pre as [|r pre IH]; intros sv Ht Hd; [split; assumption|].
  simpl in Hd. destruct Hd as [Hfresh Hd].
  apply (IH (step dap sv r)); [|exact Hd].
  apply step_tracked; assumption.
Qed.

(** What the sweep of a successful /preview leaves in the table. *)
Lemma preview_sweeps (sv : server) (prompt : string) (grid : Grid)
    (id_now sweep_now : Z) (id : Z) (obj : nat) :
  truthy prompt = true ->
  jobs (step dap sv (Preview prompt (inr grid) id_now sweep_now)) !! id
    = Some obj ->
  (sweep_now - id <= RETENTION_MS)%Z.
Proof.
  intros Hp. simpl. rewrite Hp. simpl. intros H.
  apply map_lookup_filter_Some in H as [_ H]. exact H.
Qed.

(** Only a successful /preview takes a job out of the table or rebinds
    its id. *)
Lemma table_changes_in_preview (sv : server) (r : request) (id : Z)
    (obj : nat) :
  jobs sv !! id = Some obj -> jobs (step dap sv r) !! id <> Some obj ->
  exists prompt grid id_now sweep_now,
    r = Preview prompt (inr grid) id_now sweep_now /\
    (id = id_now \/ (sweep_now - id > RETENTION_MS)%Z).
Proof.
  intros Hin Hout.
  destruct r as [prompt generated id_now sweep_now|jobId title|jobId|k st];
    simpl in Hout.
  - destruct (negb (truthy prompt)); [contradiction|].
    destruct generated as [e|grid]; [contradiction|]. simpl in Hout.
    exists prompt, grid, id_now, sweep_now. split; [reflexivity|].
    destruct (Z.eq_dec id id_now) as [E|Hne]; [left; exact E|]. right.
    destruct (Z.le_gt_cases (sweep_now - id) RETENTION_MS) as [Hle|Hgt];
      [|lia].
    exfalso. apply Hout. apply map_lookup_filter_Some. split; [|exact Hle].
    rewrite lookup_insert_ne by congruence. exact Hin.
  - destruct (jobs sv !! jobId); [|contradiction].
    destruct (heap sv !! n); contradiction.
  - contradiction.
  - destruct (running sv !! k) as [[[target grid] title]|]; contradiction.
Qed.

End JobFacts.

(** What /publish does to the job it finds, whatever its status. *)
Lemma publish_sets_processing
    (dap : site -> Grid -> string -> M (option string)) (sv : server)
    (jobId : Z) (title : string) (obj : nat) (j : job) :
  jobs sv !! jobId = Some obj -> heap sv !! obj = Some j ->
  heap (step dap sv (Publish jobId title)) !! obj =
    Some (mkJob (job_grid j) StProcessing (job_url j) (job_error j)) /\
  running (step dap sv (Publish jobId title)) =
    running sv ++ [(obj, job_grid j, title)].
Proof.
  intros Hid Hj. simpl. rewrite Hid, Hj. simpl. split; [|reflexivity].
  apply list_lookup_insert_eq. eapply lookup_lt_Some. exact Hj.
Qed.

(** C7, amended.  /publish itself sets the job it finds to 'processing'
    and starts a replay on its grid, whatever the status was, leaving grid,
    url and error as they were.  Along a run from the empty table in which
    /publish is only ever asked for a job still in 'preview' (no job is
    published twice), every request or completion callback leaves each job
    object unchanged or moves it one step forward: preview to processing,
    processing to done with the url property set, or processing to error
    with the error property set; a done or failed job never changes again.
    A job leaves the table, or its id is rebound, only in a successful
    /preview (an id collision or the sweep of ids more than 3,600,000 ms
    old), and right after such a /preview no id older than that remains. *)
Theorem job_lifecycle_forward
    (dap : site -> Grid -> string -> M (option string))
    (pre : list request) (r : request) :
  (forall sv jobId title obj j,
     jobs sv !! jobId = Some obj -> heap sv !! obj = Some j ->
     heap (step dap sv (Publish jobId title)) !! obj =
       Some (mkJob (job_grid j) StProcessing (job_url j) (job_error j)) /\
     running (step dap sv (Publish jobId title)) =
       running sv ++ [(obj, job_grid j, title)]) /\
  (disciplined dap boot (pre ++ [r]) ->
   (forall obj j, heap (exec dap boot pre) !! obj = Some j ->
      exists j', heap (step dap (exec dap boot pre) r) !! obj = Some j' /\
                 forward j j') /\
   (forall id obj, jobs (exec dap boot pre) !! id = Some obj ->
      jobs (step dap (exec dap boot pre) r) !! id <> Some obj ->
      exists prompt grid id_now sweep_now,
        r = Preview prompt (inr grid) id_now sweep_now /\
        (id = id_now \/ (sweep_now - id > 3600000)%Z)) /\
   (forall prompt grid id_now sweep_now id obj,
      r = Preview prompt (inr grid) id_now sweep_now ->
      truthy prompt = true ->
      jobs (step dap (exec dap boot pre) r) !! id = Some obj ->
      (sweep_now - id <= 3600000)%Z)).
Proof.
  split; [intros sv jobId title obj j; apply publish_sets_processing|].
  intros Hd.
  destruct (disciplined_prefix dap pre [r] boot tracked_boot Hd)
    as [Ht [Hfresh _]].
  split; [|split].
  - apply step_forward; assumption.
  - intros id obj. apply table_changes_in_preview.
  - intros prompt grid id_now sweep_now id obj -> Hp.
    apply preview_sweeps. exact Hp.
Qed.

Lemma single_publish_disciplined :
  disciplined ServerJsReplay.drawAndPublish boot
    (single_publish_run ++ [Settle 0 demo_site]).
Proof.
  simpl. split; [exact I|]. split; [|split; exact I].
  intros obj j Hid Hobj.
  vm_compute in Hid. injection Hid as <-.
  vm_compute in Hobj. injection Hobj as <-. reflexivity.
Qed.

(** A replay that succeeds takes its job from processing to done; a
    /publish for the finished job takes it back to processing with its url
    still in place; a job made at time 0 is swept by the successful
    /preview made 3,600,001 ms later and kept by the one made 3,600,000 ms
    later. *)
Lemma job_lifecycle_forward_witness :
  (exists j',
     heap (step ServerJsReplay.drawAndPublish
             (exec ServerJsReplay.drawAndPublish boot single_publish_run)
             (Settle 0 demo_site)) !! 0%nat = Some j' /\
     forward (mkJob demo_grid StProcessing None None) j') /\
  heap (step ServerJsReplay.drawAndPublish
          (exec ServerJsReplay.drawAndPublish boot (take 3 republish_run))
          (Publish 0 "art")) !! 0%nat =
    Some (mkJob demo_grid StProcessing
            (Some (Some "https://opentrons-art.rcdonovan.com/gallery/42"))
            None) /\
  jobs (step ServerJsReplay.drawAndPublish
          (exec ServerJsReplay.drawAndPublish boot
             [Preview "cat" (inr demo_grid) 0 0])
          (Preview "dog" (inr demo_grid) 3600001 3600001)) !! 0%Z = None /\
  jobs (step ServerJsReplay.drawAndPublish
          (exec ServerJsReplay.drawAndPublish boot
             [Preview "cat" (inr demo_grid) 0 0])
          (Preview "dog" (inr demo_grid) 3600000 3600000)) !! 0%Z
    = Some 0%nat.
Proof.
  split; [|split; [|split]].
  - apply (proj1 (proj2 (job_lifecycle_forward ServerJsReplay.drawAndPublish
                           single_publish_run (Settle 0 demo_site))
                        single_publish_disciplined) 0%nat).
    vm_compute. reflexivity.
  - refine (proj1 (proj1 (job_lifecycle_forward ServerJsReplay.drawAndPublish
                            [] (Status 0))
                         (exec ServerJsReplay.drawAndPublish boot
                            (take 3 republish_run))
                         0%Z "art" 0%nat
                         (mkJob demo_grid StDone
                            (Some (Some
                               "https://opentrons-art.rcdonovan.com/gallery/42"))
                            None) _ _)).
    + vm_compute. reflexivity.
    + vm_compute. reflexivity.
  - destruct (jobs (step ServerJsReplay.drawAndPublish
                      (exec ServerJsReplay.drawAndPublish boot
                         [Preview "cat" (inr demo_grid) 0 0])
                      (Preview "dog" (inr demo_grid) 3600001 3600001))
                !! 0%Z) as [obj|] eqn:E; [|reflexivity].
    exfalso.
    pose proof (proj2 (proj2 (proj2 (job_lifecycle_forward
                  ServerJsReplay.drawAndPublish
                  [Preview "cat" (inr demo_grid) 0 0]
                  (Preview "dog" (inr demo_grid) 3600001 3600001))
                  (conj I (conj I I))))
                "dog" demo_grid 3600001%Z 3600001%Z 0%Z obj eq_refl eq_refl E)
      as Hle.
    lia.
  - destruct (decide (jobs (step ServerJsReplay.drawAndPublish
                      (exec ServerJsReplay.drawAndPublish boot
                         [Preview "cat" (inr demo_grid) 0 0])
                      (Preview "dog" (inr demo_grid) 3600000 3600000))
                !! 0%Z = Some 0%nat)) as [E|N]; [exact E|].
    exfalso.
    assert (H0 : jobs (exec ServerJsReplay.drawAndPublish boot
                         [Preview "cat" (inr demo_grid) 0 0]) !! 0%Z
                 = Some 0%nat) by (vm_compute; reflexivity).
    destruct (proj1 (proj2 (proj2 (job_lifecycle_forward
                ServerJsReplay.drawAndPublish
                [Preview "cat" (inr demo_grid) 0 0]
                (Preview "dog" (inr demo_grid) 3600000 3600000))
                (conj I (conj I I))))
              0%Z 0%nat H0 N)
      as (prompt & grid & id_now & sweep_now & Hr & Hcase).
    injection Hr as _ _ <- <-. lia.
Defined.

(* ================================================================== *)
(** * Sample evaluations *)
(* ================================================================== *)

(** (0, 77, 117) is equally far from mJuniper (7) and mWasabi (10); the
    classifier answers 7. *)
Example tie_goes_to_lowest_index :
  dist2 0 77 117 <$> ServerJs.PALETTE !! 7 = Some 6836%Z /\
  dist2 0 77 117 <$> ServerJs.PALETTE !! 10 = Some 6836%Z /\
  findClosestColor ServerJs.PALETTE (Some 0%Z) (Some 77%Z) (Some 117%Z) = 7.
Proof. vm_compute. repeat split; reflexivity. Qed.

(** Every distance to an [undefined] channel is NaN, no comparison
    succeeds and the initial index 0 is returned. *)
Example undefined_channels_give_zero :
  findClosestColor ServerJs.PALETTE None None None = 0 /\
  Pollinations.quantize (mkRaw [7%Z] 1) 0 0 = 0.
Proof. vm_compute. split; reflexivity. Qed.

(** The background thresholds of the two DALL-E versions: all channels
    above 240 in src/server.js, a mean below 30 in the black-background
    version, whose classifier then never answers 0. *)
Example background_thresholds :
  ServerJs.quantize (mkRaw [241; 241; 241]%Z 3) 0 0 = 0 /\
  ServerJs.quantize (mkRaw [10; 10; 10]%Z 3) 0 0 = 2 /\
  BlackBg.quantize (mkRaw [29; 30; 30]%Z 3) 0 0 = 0 /\
  BlackBg.quantize (mkRaw [30; 30; 30]%Z 3) 0 0 = 2 /\
  BlackBg.quantize (mkRaw [255; 255; 255]%Z 3) 0 0 = 3.
Proof. vm_compute. repeat split; reflexivity. Qed.

(** Three redirects need a budget of four requests. *)
Example three_redirects_need_four_requests :
  fetchImage demo_net demo_net demo_href "http://h/0" 3
    = Rejected (JsError "Too many redirects") /\
  fetchImage demo_net demo_net demo_href "http://h/0" 4 = Resolved "PNGdata".
Proof. vm_compute. split; reflexivity. Qed.

(** On the expected page: the whole run of the black-background version
    without a title, and the outcome of src/server.js.  On a grid of a
    single row the read of [grid[1][0]] throws. *)
Example replay_runs :
  run (BlackBgReplay.drawAndPublish demo_site demo_grid "") =
    ([Launch; NewPage; SetViewport; Goto; QueryCells; QuerySwatches;
      ClickSwatch 1; ClickCell 1535; QuerySwatches; ClickSwatch 3;
      ClickCell 0; ClickCell 1; EvalPublish; ClickButton 0; QueryTitleInput;
      ClickTitle; TypeTitle "Untitled"; EvalPublish; ClickButton 2;
      EvalLinks; Close],
     inr (Some "https://opentrons-art.rcdonovan.com/gallery/42"%string)) /\
  snd (run (ServerJsReplay.drawAndPublish demo_site demo_grid "art")) =
    inr (Some "https://opentrons-art.rcdonovan.com/gallery/42"%string) /\
  snd (run (PollinationsReplay.drawAndPublish demo_site [[1]] "art")) =
    inl TypeError.
Proof. vm_compute. repeat split; reflexivity. Qed.

(** When the [close()] that ends the try block rejects, the catch clause
    calls it a second time. *)
Example rejected_close_is_retried :
  List.filter is_close
    (fst (run (ServerJsReplay.drawAndPublish stubborn_site demo_grid "art")))
    = [Close; Close] /\
  snd (run (ServerJsReplay.drawAndPublish stubborn_site demo_grid "art"))
    = inl (JsError "Connection closed").
Proof. vm_compute. split; reflexivity. Qed.

(* ================================================================== *)
(** * Further properties of fetchImage *)
(* ================================================================== *)

Section FetchMore.
Variables http_get https_get : string -> get_result.
Variable resolve_href : string -> string -> option string.

Local Abbreviation fetch' := (fetchImage http_get https_get resolve_href).
Local Abbreviation get' := (client_get http_get https_get).
Local Abbreviation chain' := (redirect_chain http_get https_get resolve_href).

(** fetchImage resolves exactly when fewer redirects than the budget lead
    to a response with status 200 whose stream ends, and then with the
    concatenation of that response's chunks. *)
Theorem fetchImage_resolves_iff (url : string) (budget : nat) (buf : string) :
  fetch' url budget = Resolved buf <->
  exists (k : nat) (final : string) (res : response) (chunks : list string),
    (k < budget)%nat /\ chain' k url final /\
    get' final = GetResponse res /\ is_redirect res = false /\
    statusCode res = 200%Z /\ body res = StreamEnd chunks /\
    buf = String.concat "" chunks.
Proof.
  split.
  - revert url. induction budget as [|n IH]; intros url H; [discriminate|].
    simpl in H. destruct (get' url) as [e|res] eqn:Hget; [discriminate|].
    destruct (is_redirect res) eqn:Hred.
    + destruct (newUrl resolve_href url (default EmptyString (location res)))
        as [url'|] eqn:Hnew; [|discriminate].
      destruct (IH url' H) as (k & final & res' & chunks & Hk & Hc & Hrest).
      exists (S k), final, res', chunks. split; [lia|]. split; [|exact Hrest].
      exists url'. split; [|exact Hc]. exists res. auto.
    + destruct (Z.eqb_spec (statusCode res) 200) as [Hst|Hst];
        [|discriminate]. simpl in H.
      destruct (body res) as [chunks|e] eqn:Hbody; [|discriminate].
      injection H as <-.
      exists 0%nat, url, res, chunks. repeat split; auto; lia.
  - intros (k & final & res & chunks & Hk & Hc & Hget & Hred & Hst & Hb & ->).
    replace budget with (k + S (budget - S k))%nat by lia.
    rewrite (fetch_chain http_get https_get resolve_href k url final _ Hc).
    rewrite (fetch_terminal http_get https_get resolve_href final _ res Hget Hred).
    rewrite Hst, Hb. reflexivity.
Qed.

(** Whatever fetchImage does with some budget, other than giving up with
    'Too many redirects', it does with every larger budget. *)
Theorem fetchImage_budget_monotone (url : string) (small large : nat)
    (outcome : fetched) :
  fetch' url small = outcome ->
  outcome <> Rejected (JsError "Too many redirects") ->
  (small <= large)%nat ->
  fetch' url large = outcome.
Proof.
  revert url large. induction small as [|n IH]; intros url large H Hne Hle.
  - simpl in H. congruence.
  - destruct large as [|m]; [lia|]. simpl in *.
    destruct (get' url) as [e|res]; [exact H|].
    destruct (is_redirect res); [|exact H].
    destruct (newUrl resolve_href url (default EmptyString (location res)))
      as [url'|]; [|exact H].
    apply IH; [exact H | exact Hne | lia].
Qed.

End FetchMore.

Lemma fetchImage_budget_monotone_witness :
  fetchImage demo_net demo_net demo_href "http://h/0" 9 = Resolved "PNGdata".
Proof.
  apply (fetchImage_budget_monotone demo_net demo_net demo_href
           "http://h/0" 4 9 (Resolved "PNGdata")).
  - reflexivity.
  - discriminate.
  - lia.
Defined.

(* ================================================================== *)
(** * Further properties of the quantizers *)
(* ================================================================== *)

Local Open Scope Z_scope.

Lemma ltb_nan_l (x : float) : PrimFloat.ltb nan x = false.
Proof. rewrite FloatAxioms.ltb_spec. reflexivity. Qed.

Lemma closest_loop_undefined (r g b : channel) (rest : list PaletteEntry) :
  r = None \/ g = None \/ b = None ->
  forall i minDist closest,
    closest_loop r g b rest i minDist closest = closest.
Proof.
  intros Hnone. induction rest as [|e rest IH]; intros i minDist closest;
    [reflexivity|].
  cbn [closest_loop]. destruct (rgb e) as [[pr pg] pb]. cbv zeta.
  assert (Hnan : colorDistance r g b pr pg pb = nan).
  { unfold colorDistance. destruct r, g, b; try reflexivity;
      destruct Hnone as [H|[H|H]]; discriminate. }
  rewrite Hnan, ltb_nan_l. apply IH.
Qed.

Lemma closest_loop_shift (r g b : channel) (rest : list PaletteEntry) :
  forall i minDist closest,
    closest_loop r g b rest (S i) minDist (S closest) =
    S (closest_loop r g b rest i minDist closest).
Proof.
  induction rest as [|e rest IH]; intros i minDist closest; [reflexivity|].
  cbn [closest_loop]. destruct (rgb e) as [[pr pg] pb]. cbv zeta.
  destruct (PrimFloat.ltb _ minDist); apply IH.
Qed.

(** Starting the loop at index 1 answers one more than starting it at
    index 0 over the same entries. *)
Lemma closest_loop_from_one (r g b : Z) (e : PaletteEntry)
    (rest : list PaletteEntry) :
  byte r -> byte g -> byte b -> byte_entry e ->
  closest_loop (Some r) (Some g) (Some b) (e :: rest) 1 infinity 0 =
  S (findClosestColor (e :: rest) (Some r) (Some g) (Some b)).
Proof.
  intros Hr Hg Hb He. unfold findClosestColor.
  cbn [closest_loop].
  pose proof (colorDistance_sqrtf r g b e) as Hcd.
  destruct (rgb e) as [[pr pg] pb] eqn:Ergb. cbv zeta. rewrite Hcd.
  rewrite sqrtf_finite by (apply dist2_range; assumption).
  apply closest_loop_shift.
Qed.

Lemma paints_bytes : Forall byte_entry PAINTS.
Proof. repeat constructor; unfold byte; simpl; lia. Qed.

Lemma dark_agrees_spec (fuel : nat) (s k : Z) :
  dark_agrees fuel s = true -> 0 <= k < Z.of_nat fuel ->
  PrimFloat.ltb (PrimFloat.div (float_of_Z (s + k)) (float_of_Z 3))
                (float_of_Z 30) = (s + k <? 90).
Proof.
  revert s k. induction fuel as [|f IH]; intros s k H Hk; [lia|].
  simpl in H.
  destruct (Bool.eqb _ _) eqn:E; [|discriminate].
  destruct (Z.eq_dec k 0) as [->|Hne].
  - rewrite Z.add_0_r. apply Bool.eqb_prop. exact E.
  - replace (s + k) with (s + 1 + (k - 1)) by lia.
    apply IH; [exact H | lia].
Qed.

Lemma dark_agrees_all : dark_agrees 766 0 = true.
Proof. vm_compute. reflexivity. Qed.

(** For three bytes, [brightness < 30] is [r + g + b < 90]. *)
Lemma brightness_dark (r g b : Z) :
  byte r -> byte g -> byte b ->
  PrimFloat.ltb (brightness (Some r) (Some g) (Some b)) (float_of_Z 30) =
  (r + g + b <? 90).
Proof.
  unfold byte, brightness. intros Hr Hg Hb.
  pose proof (dark_agrees_spec 766 0 (r + g + b) dark_agrees_all) as H.
  simpl (0 + _) in H. apply H. lia.
Qed.

(** Near-white bytes are nearest to the white palette entry. *)
Lemma near_white_is_white (r g b : Z) :
  240 < r <= 255 -> 240 < g <= 255 -> 240 < b <= 255 ->
  findClosestColor ServerJs.PALETTE (Some r) (Some g) (Some b) = 0%nat.
Proof.
  intros Hr Hg Hb.
  destruct (findClosestColor_first_nearest ServerJs.PALETTE r g b)
    as (e & He & _ & Hfirst);
    [discriminate | apply white_palette_bytes | unfold byte; lia ..|].
  destruct (findClosestColor ServerJs.PALETTE (Some r) (Some g) (Some b))
    as [|i]; [reflexivity|].
  exfalso.
  assert (Hw : dist2 r g b e <
               dist2 r g b (mkEntry "erase" "#ffffff" (255, 255, 255)))
    by (apply (Hfirst 0%nat); [lia | reflexivity]).
  unfold dist2, sqdist in Hw. cbn [rgb] in Hw.
  do 11 (destruct i as [|i];
         [injection He as <-; cbn [rgb] in Hw; rewrite !Z.pow_2_r in Hw; lia|]).
  discriminate.
Qed.

(** In src/server.js the near-white shortcut never changes a cell: on a
    buffer of bytes imageToGrid computes, cell by cell, what the plain
    classifier of the pollinations version computes; and a cell whose
    three channels exist holds the lowest index among the palette entries
    nearest to the pixel, the white entry included. *)
Theorem server_quantize_is_nearest (raw : RawImage) (y x : nat) :
  Forall byte (data raw) ->
  ServerJs.quantize raw y x = Pollinations.quantize raw y x /\
  (forall r g b,
     data raw !! ((y * GRID_COLS + x) * channels raw)%nat = Some r ->
     data raw !! ((y * GRID_COLS + x) * channels raw + 1)%nat = Some g ->
     data raw !! ((y * GRID_COLS + x) * channels raw + 2)%nat = Some b ->
     nearest_lowest ServerJs.PALETTE r g b (ServerJs.quantize raw y x)).
Proof.
  intros Hbytes. rewrite Forall_lookup in Hbytes.
  assert (Hsame : ServerJs.quantize raw y x = Pollinations.quantize raw y x).
  { unfold ServerJs.quantize, Pollinations.quantize, Pollinations.PALETTE.
    cbv zeta.
    destruct (data raw !! _) as [r|] eqn:Er; [|reflexivity].
    destruct (data raw !! (_ + 1)%nat) as [g|] eqn:Eg;
      [|rewrite andb_false_r; reflexivity].
    destruct (data raw !! (_ + 2)%nat) as [b|] eqn:Eb;
      [|rewrite andb_false_r; reflexivity].
    destruct (gt240 (Some r) && gt240 (Some g) && gt240 (Some b)) eqn:E;
      [|reflexivity].
    apply andb_prop in E as [E Eb']. apply andb_prop in E as [Er' Eg'].
    simpl in Er', Eg', Eb'.
    apply Z.ltb_lt in Er', Eg', Eb'.
    pose proof (Hbytes _ _ Er). pose proof (Hbytes _ _ Eg).
    pose proof (Hbytes _ _ Eb). unfold byte in *.
    symmetry. apply near_white_is_white; lia. }
  split; [exact Hsame|].
  intros r g b Er Eg Eb. rewrite Hsame.
  unfold Pollinations.quantize, Pollinations.PALETTE. cbv zeta.
  rewrite Er, Eg, Eb.
  apply first_nearest_euclid, findClosestColor_first_nearest;
    [discriminate | apply white_palette_bytes | eauto ..].
Qed.

(** The near-white pixel (250, 245, 241) takes the shortcut to index 0,
    which is also what the plain classifier answers: white is its nearest
    entry.  The mid-grey pixel (128, 128, 128) gets Azurite, index 5. *)
Lemma server_quantize_is_nearest_witness :
  (ServerJs.quantize pale_pixel 0 0 = 0%nat /\
   Pollinations.quantize pale_pixel 0 0 = 0%nat /\
   nearest_lowest ServerJs.PALETTE 250 245 241 0) /\
  (ServerJs.quantize grey_pixel 0 0 = 5%nat /\
   Pollinations.quantize grey_pixel 0 0 = 5%nat /\
   nearest_lowest ServerJs.PALETTE 128 128 128 5).
Proof.
  assert (Hpale : Forall byte (data pale_pixel))
    by (repeat constructor; unfold byte; lia).
  assert (Hgrey : Forall byte (data grey_pixel))
    by (repeat constructor; unfold byte; lia).
  destruct (server_quantize_is_nearest pale_pixel 0 0 Hpale) as [Hsame Hnear].
  destruct (server_quantize_is_nearest grey_pixel 0 0 Hgrey)
    as [Hsame' Hnear'].
  split.
  - split; [vm_compute; reflexivity|].
    split; [rewrite <- Hsame; vm_compute; reflexivity|].
    exact (Hnear 250 245 241 eq_refl eq_refl eq_refl).
  - split; [vm_compute; reflexivity|].
    split; [rewrite <- Hsame'; vm_compute; reflexivity|].
    exact (Hnear' 128 128 128 eq_refl eq_refl eq_refl).
Defined.

(** In the black-background version a cell is 0 exactly for the pixels the
    code calls dark: when a channel is missing from the buffer the cell is
    0; for three bytes whose sum is below 90 (mean below 30) the cell is 0;
    and for any brighter pixel the cell is never 0: it is 1 + k, where k is
    the lowest index among the paint colours nearest to the pixel. *)
Theorem blackbg_quantize_cases (raw : RawImage) (y x : nat) :
  Forall byte (data raw) ->
  ((data raw !! ((y * GRID_COLS + x) * channels raw)%nat = None \/
    data raw !! ((y * GRID_COLS + x) * channels raw + 1)%nat = None \/
    data raw !! ((y * GRID_COLS + x) * channels raw + 2)%nat = None) ->
   BlackBg.quantize raw y x = 0%nat) /\
  (forall r g b,
     data raw !! ((y * GRID_COLS + x) * channels raw)%nat = Some r ->
     data raw !! ((y * GRID_COLS + x) * channels raw + 1)%nat = Some g ->
     data raw !! ((y * GRID_COLS + x) * channels raw + 2)%nat = Some b ->
     (r + g + b < 90 -> BlackBg.quantize raw y x = 0%nat) /\
     (90 <= r + g + b ->
      exists k, BlackBg.quantize raw y x = S k /\
                nearest_lowest PAINTS r g b k)).
Proof.
  intros Hbytes. rewrite Forall_lookup in Hbytes.
  unfold BlackBg.quantize. cbv zeta. split.
  - intros Hnone.
    assert (Hnan : brightness
                     (data raw !! ((y * GRID_COLS + x) * channels raw)%nat)
                     (data raw !! ((y * GRID_COLS + x) * channels raw + 1)%nat)
                     (data raw !! ((y * GRID_COLS + x) * channels raw + 2)%nat)
                   = nan).
    { unfold brightness.
      destruct (data raw !! _), (data raw !! (_ + 1)%nat),
               (data raw !! (_ + 2)%nat); try reflexivity;
        destruct Hnone as [H|[H|H]]; discriminate. }
    rewrite Hnan, ltb_nan_l. apply closest_loop_undefined. exact Hnone.
  - intros r g b Er Eg Eb. rewrite Er, Eg, Eb.
    pose proof (Hbytes _ _ Er) as Hr. pose proof (Hbytes _ _ Eg) as Hg.
    pose proof (Hbytes _ _ Eb) as Hb.
    rewrite (brightness_dark r g b Hr Hg Hb). split; intros Hsum.
    + destruct (Z.ltb_spec (r + g + b) 90); [reflexivity | lia].
    + destruct (Z.ltb_spec (r + g + b) 90); [lia|].
      exists (findClosestColor PAINTS (Some r) (Some g) (Some b)). split.
      * apply (closest_loop_from_one r g b); try assumption.
        unfold byte_entry, byte. simpl. lia.
      * apply first_nearest_euclid, findClosestColor_first_nearest;
          [discriminate | apply paints_bytes | assumption ..].
Qed.

(** The mid-grey pixel (128, 128, 128) is bright enough and gets
    Azurite, palette index 5, the paint of index 4 among the eleven. *)
Lemma blackbg_quantize_cases_witness :
  BlackBg.quantize grey_pixel 0 0 = 5%nat /\
  nearest_lowest PAINTS 128 128 128 4.
Proof.
  assert (Hb : Forall byte (data grey_pixel))
    by (repeat constructor; unfold byte; lia).
  destruct (blackbg_quantize_cases grey_pixel 0 0 Hb) as [_ Hcases].
  destruct (Hcases 128 128 128 eq_refl eq_refl eq_refl) as [_ Hbright].
  destruct (Hbright ltac:(lia)) as (k & Hk & Hnear).
  assert (Hfive : BlackBg.quantize grey_pixel 0 0 = 5%nat)
    by (vm_compute; reflexivity).
  split; [exact Hfive|].
  rewrite Hfive in Hk. injection Hk as <-. exact Hnear.
Defined.

(* ================================================================== *)
(** * Further properties of the preview *)
(* ================================================================== *)

Local Open Scope nat_scope.

Lemma collect_Some_inv {A : Type} (f : nat -> option (list A))
    (idxs : list nat) (l : list A) :
  collect f idxs = Some l -> forall i, In i idxs -> f i <> None.
Proof.
  revert l. induction idxs as [|j rest IH]; intros l H i Hi; [destruct Hi|].
  simpl in H. destruct (f j) as [lj|] eqn:Ej; [|discriminate].
  destruct (collect f rest) as [lr|] eqn:Er; [|discriminate].
  destruct Hi as [<-|Hi]; [congruence | exact (IH lr eq_refl i Hi)].
Qed.

Lemma scan_grid_Some_inv {A : Type} (grid : Grid)
    (body : nat -> nat -> option nat -> option (list A)) (l : list A) :
  scan_grid grid body = Some l ->
  forall y, y < GRID_ROWS ->
    exists row, grid !! y = Some row /\
      forall x, x < GRID_COLS -> body y x (row !! x) <> None.
Proof.
  unfold scan_grid. intros H y Hy.
  pose proof (collect_Some_inv _ _ _ H y) as Hrow. cbv beta in Hrow.
  assert (Hin : In y (seq 0 GRID_ROWS)) by (apply in_seq; lia).
  specialize (Hrow Hin).
  destruct (grid !! y) as [row|]; [|congruence].
  exists row. split; [reflexivity|]. intros x Hx.
  destruct (collect (fun x0 => body y x0 (row !! x0)) (seq 0 GRID_COLS))
    as [lr|] eqn:Er; [|congruence].
  apply (collect_Some_inv _ _ _ Er x). apply in_seq. lia.
Qed.

Lemma window_ok_row (n : nat) (grid : Grid) (y : nat) :
  window_ok n grid -> y < GRID_ROWS ->
  exists row, grid !! y = Some row /\
    forall x, x < GRID_COLS -> exists c, row !! x = Some c /\ c < n.
Proof.
  intros Hw Hy.
  destruct (Hw y 0 Hy) as (c0 & Hc0 & _); [unfold GRID_COLS; lia|].
  unfold cell_at in Hc0. destruct (grid !! y) as [row|] eqn:Hrow; [|discriminate].
  exists row. split; [reflexivity|]. intros x Hx.
  destruct (Hw y x Hy Hx) as (c & Hc & Hlt).
  unfold cell_at in Hc. rewrite Hrow in Hc. eauto.
Qed.

Lemma server_svg_rects_window (grid : Grid) :
  window_ok 12 grid ->
  ServerJs.svg_rects grid = Some (grid_rects (painted ServerJs.PALETTE grid)).
Proof.
  intros Hw. apply scan_grid_total. intros y Hy.
  destruct (window_ok_row 12 grid y Hw Hy) as (row & Hrow & Hcells).
  exists row. split; [exact Hrow|]. intros x Hx.
  destruct (Hcells x Hx) as (c & Hc & Hlt).
  unfold painted, cell_at, cell_rect. rewrite Hrow, Hc.
  destruct (lookup_lt_is_Some_2 ServerJs.PALETTE c) as [e He];
    [simpl; lia|].
  rewrite He. reflexivity.
Qed.

(** gridToSvg of src/server.js reads exactly the 32 x 48 window of the
    grid.  When every cell of the window exists and holds an index below
    12 it returns an SVG picture of 480 x 320 made of 1536 rectangles in
    row-major order, the one of cell (row, col) being a square of side 10
    at (col * 10, row * 10) filled with the hex colour of the cell's
    palette entry, whatever further rows or columns the grid has; in every
    other case it throws a TypeError. *)
Theorem server_gridToSvg_window (grid : Grid) :
  (window_ok 12 grid ->
   exists elems : list string,
     length elems = 1536 /\
     ServerJs.gridToSvg grid =
       inr (svg_picture "" (String.concat "" elems)) /\
     (forall row col, row < 32 -> col < 48 ->
        exists c e,
          cell_at grid row col = Some c /\
          ServerJs.PALETTE !! c = Some e /\
          elems !! (row * 48 + col) =
            Some (square_at (col * 10) (row * 10) (hex e)))) /\
  (~ window_ok 12 grid -> ServerJs.gridToSvg grid = inl TypeError).
Proof.
  split.
  - intros Hw. exists (preview_elems ServerJs.PALETTE false grid).
    split; [apply preview_elems_length|]. split.
    + unfold ServerJs.gridToSvg. rewrite (server_svg_rects_window grid Hw).
      rewrite (server_rects_text grid Hw), server_frame. reflexivity.
    + intros row col Hrow Hcol.
      destruct (Hw row col Hrow Hcol) as (c & Hc & Hlt).
      destruct (lookup_lt_is_Some_2 ServerJs.PALETTE c) as [e He];
        [simpl; lia|].
      exists c, e. split; [exact Hc|]. split; [exact He|].
      rewrite preview_elems_lookup by assumption.
      unfold cell_text. rewrite Hc, He. reflexivity.
  - intros Hbad. unfold ServerJs.gridToSvg.
    destruct (ServerJs.svg_rects grid) as [rs|] eqn:Hrs; [|reflexivity].
    exfalso. apply Hbad. intros y x Hy Hx.
    destruct (scan_grid_Some_inv _ _ _ Hrs y Hy) as (row & Hrow & Hcells).
    specialize (Hcells x Hx). unfold cell_at. rewrite Hrow.
    destruct (row !! x) as [c|]; [|congruence].
    exists c. split; [reflexivity|].
    unfold cell_rect in Hcells.
    destruct (ServerJs.PALETTE !! c) as [e|] eqn:He; [|congruence].
    apply lookup_lt_Some in He. simpl in He. lia.
Qed.

Lemma window_ok_oversized (n : nat) (grid : Grid) (extra : list nat)
    (more : Grid) :
  window_ok n grid ->
  window_ok n (map (fun row => row ++ extra) grid ++ more).
Proof.
  intros Hw y x Hy Hx. destruct (Hw y x Hy Hx) as (c & Hc & Hlt).
  exists c. split; [|exact Hlt].
  unfold cell_at in *.
  destruct (grid !! y) as [row|] eqn:Hrow; [|discriminate].
  rewrite lookup_app_l
    by (rewrite length_map; eapply lookup_lt_Some; exact Hrow).
  change (map (fun row0 => row0 ++ extra) grid)
    with ((fun row0 => row0 ++ extra) <$> grid).
  rewrite list_lookup_fmap, Hrow. simpl.
  apply lookup_app_l_Some. exact Hc.
Qed.

Lemma oversized_grid_window : window_ok 12 oversized_grid.
Proof.
  apply window_ok_oversized, valid_grid_window, demo_grid_valid.
Qed.

(** A grid with a 33rd row and a 49th column previews like the example
    grid: 1536 elements, the second a square at (10, 0) filled with
    #b39223 and the last a square at (470, 310) filled with #1fea5c. *)
Lemma server_gridToSvg_window_witness :
  exists elems : list string,
    length elems = 1536 /\
    ServerJs.gridToSvg oversized_grid =
      inr (svg_picture "" (String.concat "" elems)) /\
    elems !! 1 = Some (square_at 10 0 "#b39223") /\
    elems !! 1535 = Some (square_at 470 310 "#1fea5c").
Proof.
  destruct (proj1 (server_gridToSvg_window oversized_grid)
                  oversized_grid_window) as (elems & Hlen & Hsvg & Hcells).
  exists elems. split; [exact Hlen|]. split; [exact Hsvg|]. split.
  - destruct (Hcells 0 1) as (c & e & Hc & He & Hl); [lia | lia |].
    vm_compute in Hc. injection Hc as <-.
    injection He as <-. exact Hl.
  - destruct (Hcells 31 47) as (c & e & Hc & He & Hl); [lia | lia |].
    vm_compute in Hc. injection Hc as <-.
    injection He as <-. exact Hl.
Defined.




(* ================================================================== *)
(** * Further properties of the replay *)
(* ================================================================== *)

Lemma NoDup_app_In {A : Type} (l k : list A) :
  NoDup l -> NoDup k -> (forall a, In a l -> ~ In a k) -> NoDup (l ++ k).
Proof.
  intros Hl Hk Hd. apply NoDup_app. split; [exact Hl|]. split; [|exact Hk].
  intros a Ha Hak. apply (Hd a); apply list_elem_of_In; assumption.
Qed.

Lemma NoDup_concat_blocks {A : Type} (f : nat -> list A) (l : list nat) :
  NoDup l -> (forall c, NoDup (f c)) ->
  (forall c c' a, c <> c' -> In a (f c) -> ~ In a (f c')) ->
  NoDup (concat (map f l)).
Proof.
  intros Hl Hf Hd. induction l as [|c rest IH]; [constructor|].
  apply NoDup_cons in Hl as [Hc Hrest]. cbn [map concat].
  apply NoDup_app_In; [apply Hf | apply IH; exact Hrest|].
  intros a Ha Hin. apply in_concat in Hin as (blk & Hblk & Hab).
  apply in_map_iff in Hblk as (c' & <- & Hc').
  apply (Hd c c' a); [|exact Ha|exact Hab].
  intros ->. apply Hc. apply list_elem_of_In. exact Hc'.
Qed.

Lemma assigned_In (grid : Grid) (c pos : nat) :
  In pos (assigned grid c) <->
  pos < GRID_ROWS * GRID_COLS /\
  cell_at grid (pos / GRID_COLS) (pos mod GRID_COLS) = Some c.
Proof.
  unfold assigned. rewrite filter_In, in_seq. split.
  - intros [Hr Hc]. split; [lia|].
    destruct (cell_at grid _ _) as [c'|]; [|discriminate].
    apply Nat.eqb_eq in Hc. congruence.
  - intros [Hr Hc]. split; [lia|]. rewrite Hc. apply Nat.eqb_refl.
Qed.

Lemma NoDup_list_filter {A : Type} (f : A -> bool) (l : list A) :
  NoDup l -> NoDup (List.filter f l).
Proof.
  induction l as [|a l IH]; intros Hl; [constructor|].
  apply NoDup_cons in Hl as [Ha Hl]. simpl.
  destruct (f a); [|exact (IH Hl)].
  apply NoDup_cons. split; [|exact (IH Hl)].
  intros Hin. apply Ha. apply list_elem_of_In.
  apply list_elem_of_In, filter_In in Hin as [Hin _]. exact Hin.
Qed.

Lemma assigned_NoDup (grid : Grid) (c : nat) : NoDup (assigned grid c).
Proof. unfold assigned. apply NoDup_list_filter, NoDup_seq. Qed.

(** The clicks of one colour in the colour-major sequence. *)
Lemma color_block_In (grid : Grid) (c : nat) (a : action) :
  In a (match assigned grid c with
        | [] => []
        | ps => ClickSwatch c :: map ClickCell ps
        end) <->
  assigned grid c <> [] /\
  (a = ClickSwatch c \/ exists pos, a = ClickCell pos /\ In pos (assigned grid c)).
Proof.
  destruct (assigned grid c) as [|p ps] eqn:E.
  - split; [intros [] | intros [H _]; congruence].
  - split.
    + intros [<-|Hin]; (split; [discriminate|]); [left; reflexivity|].
      right. apply in_map_iff in Hin as (pos & <- & Hpos). eauto.
    + intros [_ [->|(pos & -> & Hpos)]]; [left; reflexivity|].
      right. apply in_map_iff. eauto.
Qed.

Lemma color_block_NoDup (grid : Grid) (c : nat) :
  NoDup (match assigned grid c with
         | [] => []
         | ps => ClickSwatch c :: map ClickCell ps
         end).
Proof.
  pose proof (assigned_NoDup grid c) as Hnd.
  destruct (assigned grid c) as [|p ps]; [constructor|].
  apply NoDup_cons. split.
  - intros Hin. apply list_elem_of_In, in_map_iff in Hin as (q & Hq & _).
    discriminate.
  - change (map ClickCell (p :: ps)) with (ClickCell <$> (p :: ps)).
    apply NoDup_fmap_2; [|exact Hnd]. intros q q' Hqq. congruence.
Qed.

Lemma color_major_NoDup (grid : Grid) : NoDup (color_major grid).
Proof.
  unfold color_major.
  apply NoDup_concat_blocks; [apply NoDup_seq | apply color_block_NoDup|].
  intros c c' a Hne Ha Ha'.
  apply color_block_In in Ha as [_ Ha]. apply color_block_In in Ha' as [_ Ha'].
  destruct Ha as [->|(pos & -> & Hpos)];
    destruct Ha' as [E|(pos' & E & Hpos')]; try congruence.
  injection E as <-.
  apply assigned_In in Hpos as [_ Hc]. apply assigned_In in Hpos' as [_ Hc'].
  congruence.
Qed.

Lemma color_major_cell (grid : Grid) (pos : nat) :
  In (ClickCell pos) (color_major grid) <->
  exists c, 1 <= c <= 11 /\ In pos (assigned grid c).
Proof.
  unfold color_major. rewrite in_concat. split.
  - intros (blk & Hblk & Hin). apply in_map_iff in Hblk as (c & <- & Hc).
    apply in_seq in Hc. apply color_block_In in Hin as [_ Hin].
    destruct Hin as [E|(pos' & E & Hpos)]; [discriminate|].
    injection E as <-. exists c. split; [lia | exact Hpos].
  - intros (c & Hc & Hpos). eexists. split.
    + apply in_map_iff. exists c. split; [reflexivity|]. apply in_seq. lia.
    + apply color_block_In. split; [intros E; rewrite E in Hpos; destruct Hpos|].
      right. eauto.
Qed.

(** The colour-major sequence of a grid of indices below 12 clicks what
    [clicks_match] asks for. *)
Lemma color_major_clicks (grid : Grid) (trace : list action) :
  window_ok 12 grid -> paint_actions trace = color_major grid ->
  clicks_match grid trace.
Proof.
  intros Hw Htrace.
  assert (Hin : forall pos, In (ClickCell pos) trace <->
                            In (ClickCell pos) (color_major grid)).
  { intros pos. rewrite <- Htrace, filter_In. simpl. tauto. }
  split; [rewrite Htrace; apply color_major_NoDup|]. split.
  - intros y x Hy Hx. rewrite Hin, color_major_cell.
    assert (Hdiv : (y * GRID_COLS + x) / GRID_COLS = y)
      by (symmetry; apply Nat.div_unique with x; unfold GRID_COLS in *; lia).
    assert (Hmod : (y * GRID_COLS + x) mod GRID_COLS = x)
      by (symmetry; apply Nat.mod_unique with y; unfold GRID_COLS in *; lia).
    split.
    + intros (c & Hc & Hpos). apply assigned_In in Hpos as [_ Hcell].
      rewrite Hdiv, Hmod in Hcell. exists c. split; [exact Hcell | lia].
    + intros (c & Hcell & Hne).
      destruct (Hw y x Hy Hx) as (c' & Hc' & Hlt).
      assert (c' = c) by congruence. subst c'.
      exists c. split; [lia|]. apply assigned_In.
      rewrite Hdiv, Hmod. split; [|exact Hcell].
      unfold GRID_ROWS, GRID_COLS in *. nia.
  - intros pos Hpos. apply Hin, color_major_cell in Hpos as (c & _ & Hpos).
    apply assigned_In in Hpos as [Hr _]. exact Hr.
Qed.

(** The paint actions of the three versions on a run without rejected
    calls, against a page with all its controls. *)
Lemma replay_paint_actions (s : site) (grid : Grid) (title : string) :
  faultless s ->
  GRID_ROWS <= length grid ->
  GRID_ROWS * GRID_COLS <= cells_found s ->
  (forall c, 1 <= c < 12 -> c < swatches_found s c) ->
  paint_actions (fst (run (ServerJsReplay.drawAndPublish s grid title)))
    = color_major grid /\
  paint_actions (fst (run (BlackBgReplay.drawAndPublish s grid title)))
    = color_major grid /\
  paint_actions (fst (run (PollinationsReplay.drawAndPublish s grid title)))
    = color_major grid.
Proof.
  intros Hf Hrows Hcells Hsw.
  assert (Hhandler : forall e : error,
            quiet is_paint (await s Close ;;; @throw (option string) e)).
  { intros e. apply quiet_bind; [apply quiet_await; reflexivity|].
    intros _. apply quiet_throw. }
  assert (Hclose : forall url : option string,
            quiet is_paint (await s Close ;;; ret url)).
  { intros url. apply quiet_bind; [apply quiet_await; reflexivity|].
    intros _. apply quiet_ret. }
  unfold run. repeat split.
  - unfold ServerJsReplay.drawAndPublish.
    rewrite !bind_await_ok by apply Hf. cbn [fst List.filter is_paint].
    rewrite filter_try_catch_quiet by exact Hhandler.
    rewrite filter_bind_quiet_right by exact Hclose.
    unfold ServerJsReplay.replay.
    rewrite !bind_await_ok by apply Hf. cbn [fst List.filter is_paint].
    apply (paint_colour_major s grid Hf Hrows Hcells); try assumption;
      [reflexivity|].
    intros _. apply quiet_server_publish, publish_step_not_paint.
  - unfold BlackBgReplay.drawAndPublish.
    rewrite !bind_await_ok by apply Hf. cbn [fst List.filter is_paint].
    rewrite filter_try_catch_quiet by exact Hhandler.
    rewrite filter_bind_quiet_right by exact Hclose.
    unfold BlackBgReplay.replay.
    rewrite !bind_await_ok by apply Hf. cbn [fst List.filter is_paint].
    destruct (Nat.eqb_spec (cells_found s) 0) as [E|_];
      [unfold GRID_ROWS, GRID_COLS in Hcells; lia|].
    rewrite bind_ret.
    apply (paint_colour_major s grid Hf Hrows Hcells); try assumption;
      [reflexivity|].
    intros _. apply quiet_blackbg_publish, publish_step_not_paint.
  - unfold PollinationsReplay.drawAndPublish.
    rewrite !bind_await_ok by apply Hf. cbn [fst List.filter is_paint].
    rewrite filter_try_catch_quiet by exact Hhandler.
    rewrite filter_bind_quiet_right by exact Hclose.
    unfold PollinationsReplay.replay.
    rewrite !bind_await_ok by apply Hf. cbn [fst List.filter is_paint].
    apply (paint_colour_major s grid Hf Hrows Hcells); try assumption;
      [reflexivity|].
    intros _. apply quiet_pollinations_publish, publish_step_not_paint.
Qed.

(** On a run without rejected calls, against a page with its 1536 cells
    and 12 swatches and for a grid of 32 x 48 indices below 12, each
    version of drawAndPublish clicks every cell that holds a colour other
    than 0 exactly once, clicks no background cell, clicks no swatch twice
    and clicks nothing outside the 32 x 48 window. *)
Theorem replay_clicks_painted_cells_once (s : site) (grid : Grid)
    (title : string) :
  faultless s ->
  valid_grid 12 grid ->
  GRID_ROWS * GRID_COLS <= cells_found s ->
  (forall c, 1 <= c < 12 -> c < swatches_found s c) ->
  clicks_match grid (fst (run (ServerJsReplay.drawAndPublish s grid title))) /\
  clicks_match grid (fst (run (BlackBgReplay.drawAndPublish s grid title))) /\
  clicks_match grid
    (fst (run (PollinationsReplay.drawAndPublish s grid title))).
Proof.
  intros Hf Hv Hcells Hsw.
  assert (Hrows : GRID_ROWS <= length grid) by (destruct Hv as [-> _]; lia).
  destruct (replay_paint_actions s grid title Hf Hrows Hcells Hsw)
    as (H1 & H2 & H3).
  pose proof (valid_grid_window 12 grid Hv) as Hw.
  split; [|split]; apply color_major_clicks; assumption.
Qed.

Lemma replay_clicks_painted_cells_once_witness :
  clicks_match demo_grid
    (fst (run (ServerJsReplay.drawAndPublish demo_site demo_grid "art"))).
Proof.
  refine (proj1 (replay_clicks_painted_cells_once demo_site demo_grid "art"
                   _ demo_grid_valid _ _)).
  - intros h a. reflexivity.
  - vm_compute. lia.
  - intros c Hc. simpl. lia.
Defined.

(** ** Each cell is painted with its own colour *)

Lemma painted_with_paint_actions (trace : list action) (pos : nat) :
  forall cur, painted_with cur (paint_actions trace) pos
              = painted_with cur trace pos.
Proof.
  induction trace as [|a rest IH]; intros cur; [reflexivity|].
  destruct a; cbn [List.filter is_paint painted_with]; try apply IH.
  destruct (_ =? pos); [reflexivity | apply IH].
Qed.

Lemma painted_with_cells (ps : list nat) (rest : list action) (pos : nat)
    (cur : option nat) :
  painted_with cur (map ClickCell ps ++ rest) pos =
  if existsb (fun p => p =? pos) ps then Some cur
  else painted_with cur rest pos.
Proof.
  induction ps as [|p ps IH]; [reflexivity|].
  cbn [map app painted_with existsb].
  destruct (p =? pos); [reflexivity | exact IH].
Qed.

Lemma existsb_eqb_In (ps : list nat) (pos : nat) :
  existsb (fun p => p =? pos) ps = true <-> In pos ps.
Proof.
  rewrite existsb_exists. split.
  - intros (p & Hp & E). apply Nat.eqb_eq in E. congruence.
  - intros H. exists pos. split; [exact H | apply Nat.eqb_refl].
Qed.

Lemma painted_with_color_major (grid : Grid) (pos : nat) (cs : list nat) :
  forall cur,
    painted_with cur
      (concat (map (fun c => match assigned grid c with
                             | [] => []
                             | ps => ClickSwatch c :: map ClickCell ps
                             end) cs)) pos =
    match List.find (fun c => existsb (fun p => p =? pos) (assigned grid c)) cs
    with
    | Some c => Some (Some c)
    | None => None
    end.
Proof.
  induction cs as [|c cs IH]; intros cur; [reflexivity|].
  cbn [map concat List.find].
  destruct (assigned grid c) as [|p ps] eqn:E.
  - cbn [existsb app]. apply IH.
  - cbn [app painted_with map existsb].
    rewrite painted_with_cells.
    destruct (p =? pos); cbn [orb]; [reflexivity|].
    destruct (existsb (fun p0 => p0 =? pos) ps); [reflexivity|].
    apply IH.
Qed.

Lemma replay_painted_cell (s : site) (grid : Grid)
    (title : string) (y x c : nat) :
  faultless s ->
  valid_grid 12 grid ->
  GRID_ROWS * GRID_COLS <= cells_found s ->
  (forall k, 1 <= k < 12 -> k < swatches_found s k) ->
  cell_at grid y x = Some c ->
  let painted_as :=
    if c =? 0 then None else Some (Some c) in
  painted_with None (fst (run (ServerJsReplay.drawAndPublish s grid title)))
               (y * GRID_COLS + x) = painted_as /\
  painted_with None (fst (run (BlackBgReplay.drawAndPublish s grid title)))
               (y * GRID_COLS + x) = painted_as /\
  painted_with None
               (fst (run (PollinationsReplay.drawAndPublish s grid title)))
               (y * GRID_COLS + x) = painted_as.
Proof.
  intros Hf Hv Hcells Hsw Hc painted_as.
  assert (Hrows : GRID_ROWS <= length grid) by (destruct Hv as [-> _]; lia).
  destruct (replay_paint_actions s grid title Hf Hrows Hcells Hsw)
    as (H1 & H2 & H3).
  destruct (cell_at_range 12 grid y x c Hv Hc) as [Hy Hx].
  destruct (valid_grid_window 12 grid Hv y x Hy Hx) as (c' & Hc' & Hlt).
  assert (c' = c) by congruence. subst c'.
  assert (Hdiv : (y * GRID_COLS + x) / GRID_COLS = y)
    by (symmetry; apply Nat.div_unique with x; unfold GRID_COLS in *; lia).
  assert (Hmod : (y * GRID_COLS + x) mod GRID_COLS = x)
    by (symmetry; apply Nat.mod_unique with y; unfold GRID_COLS in *; lia).
  assert (Hmajor : painted_with None (color_major grid) (y * GRID_COLS + x)
                   = painted_as).
  { unfold color_major. rewrite painted_with_color_major.
    destruct (List.find _ (seq 1 11)) as [k|] eqn:Efind.
    - apply find_some in Efind as [Hk Hin].
      apply existsb_eqb_In, assigned_In in Hin as [_ Hcell].
      rewrite Hdiv, Hmod in Hcell. assert (k = c) by congruence. subst k.
      apply in_seq in Hk. unfold painted_as.
      destruct (Nat.eqb_spec c 0); [lia | reflexivity].
    - unfold painted_as. destruct (Nat.eqb_spec c 0) as [_|Hne];
        [reflexivity|].
      exfalso.
      assert (Hin : In c (seq 1 11)) by (apply in_seq; lia).
      pose proof (find_none _ _ Efind c Hin) as Hno.
      assert (Hyes : existsb (fun p => p =? y * GRID_COLS + x)
                             (assigned grid c) = true).
      { apply existsb_eqb_In, assigned_In. rewrite Hdiv, Hmod.
        split; [unfold GRID_ROWS, GRID_COLS in *; nia | exact Hc]. }
      congruence. }
  rewrite <- painted_with_paint_actions, H1.
  rewrite <- (painted_with_paint_actions
                (fst (run (BlackBgReplay.drawAndPublish s grid title)))), H2.
  rewrite <- (painted_with_paint_actions
                (fst (run (PollinationsReplay.drawAndPublish s grid title)))),
    H3.
  auto.
Qed.

(** On a run without rejected calls, against a page with all its controls
    and for a grid of 32 x 48 indices below 12, every cell that holds a
    colour c other than 0 is clicked while swatch c is the swatch clicked
    last, and a cell that holds 0 is never clicked: the replay paints each
    cell with the colour the grid gives it.  This holds for the three
    versions. *)
Theorem replay_paints_each_cell_with_its_colour (s : site) (grid : Grid)
    (title : string) (y x c : nat) :
  faultless s ->
  valid_grid 12 grid ->
  GRID_ROWS * GRID_COLS <= cells_found s ->
  (forall k, 1 <= k < 12 -> k < swatches_found s k) ->
  cell_at grid y x = Some c ->
  let painted_as :=
    if c =? 0 then None else Some (Some c) in
  painted_with None (fst (run (ServerJsReplay.drawAndPublish s grid title)))
               (y * GRID_COLS + x) = painted_as /\
  painted_with None (fst (run (BlackBgReplay.drawAndPublish s grid title)))
               (y * GRID_COLS + x) = painted_as /\
  painted_with None
               (fst (run (PollinationsReplay.drawAndPublish s grid title)))
               (y * GRID_COLS + x) = painted_as.
Proof.
  intros Hf Hv Hcells Hsw Hc. cbv zeta.
  exact (replay_painted_cell s grid title y x c Hf Hv Hcells Hsw Hc).
Qed.

Lemma replay_paints_each_cell_with_its_colour_witness :
  painted_with None
    (fst (run (ServerJsReplay.drawAndPublish demo_site demo_grid "art")))
    (0 * GRID_COLS + 1) = Some (Some 3).
Proof.
  refine (proj1 (replay_paints_each_cell_with_its_colour
                   demo_site demo_grid "art" 0 1 3 _ demo_grid_valid _ _ _)).
  - intros h a. reflexivity.
  - vm_compute. lia.
  - intros k Hk. simpl. lia.
  - reflexivity.
Defined.

(* ================================================================== *)
(** * Further properties of the job table *)
(* ================================================================== *)

Section JobMore.
Variable dap : site -> Grid -> string -> M (option string).

Lemma coherent_boot : coherent boot.
Proof.
  split; [|split; [|split]]; simpl.
  - intros id obj H. rewrite lookup_empty in H. discriminate.
  - intros id1 id2 obj H. rewrite lookup_empty in H. discriminate.
  - intros obj g t [].
  - intros obj j H. destruct obj; discriminate.
Qed.

Lemma in_delete_running (sv : server) (k : nat) (x : nat * Grid * string) :
  In x (delete k (running sv)) -> In x (running sv).
Proof.
  intros Hin. apply list_elem_of_In. apply list_elem_of_In in Hin.
  exact (elem_of_sublist _ _ _ Hin (sublist_delete _ _)).
Qed.

Lemma step_coherent (sv : server) (r : request) :
  coherent sv -> coherent (step dap sv r).
Proof.
  intros H. pose proof H as (Hlt & Hinj & Hrun & Hacc).
  destruct r as [prompt generated id_now sweep_now|jobId title|jobId|k st];
    simpl.
  - destruct (negb (truthy prompt)); [exact H|].
    destruct generated as [e|grid]; [exact H|].
    split; [|split; [|split]]; simpl.
    + intros id obj Hl. apply map_lookup_filter_Some in Hl as [Hl _].
      rewrite length_app. simpl.
      destruct (decide (id_now = id)) as [->|Hne].
      * rewrite lookup_insert_eq in Hl. injection Hl as <-. lia.
      * rewrite lookup_insert_ne in Hl by exact Hne.
        specialize (Hlt _ _ Hl). lia.
    + intros id1 id2 obj H1 H2.
      apply map_lookup_filter_Some in H1 as [H1 _].
      apply map_lookup_filter_Some in H2 as [H2 _].
      destruct (decide (id_now = id1)) as [E1|N1],
               (decide (id_now = id2)) as [E2|N2].
      * congruence.
      * subst id1. rewrite lookup_insert_eq in H1. injection H1 as <-.
        rewrite lookup_insert_ne in H2 by exact N2.
        specialize (Hlt _ _ H2). lia.
      * subst id2. rewrite lookup_insert_eq in H2. injection H2 as <-.
        rewrite lookup_insert_ne in H1 by exact N1.
        specialize (Hlt _ _ H1). lia.
      * rewrite lookup_insert_ne in H1 by exact N1.
        rewrite lookup_insert_ne in H2 by exact N2.
        exact (Hinj _ _ _ H1 H2).
    + intros obj g t Hin. destruct (Hrun obj g t Hin) as (j & Hj & Hs & Hg).
      exists j. split; [apply lookup_app_l_Some; exact Hj | split; assumption].
    + intros obj j Hj. apply lookup_app_Some in Hj as [Hj|[_ Hj]].
      * exact (Hacc obj j Hj).
      * destruct (obj - length (heap sv)) as [|d];
          [|destruct d; discriminate].
        injection Hj as <-. split; reflexivity.
  - destruct (jobs sv !! jobId) as [target|] eqn:Hid; [|exact H].
    destruct (heap sv !! target) as [jt|] eqn:Ht; [|exact H].
    pose proof (lookup_lt_Some _ _ _ Ht) as Hlen.
    split; [|split; [|split]]; simpl.
    + intros id obj Hl. rewrite length_insert. exact (Hlt _ _ Hl).
    + exact Hinj.
    + intros obj g t Hin. apply in_app_or in Hin as [Hin|[E|[]]].
      * destruct (Hrun obj g t Hin) as (j & Hj & Hs & Hg).
        destruct (decide (obj = target)) as [->|Hne].
        -- exists (set_processing jt).
           split; [apply list_lookup_insert_eq; exact Hlen|].
           split; [discriminate|]. simpl. congruence.
        -- exists j. rewrite list_lookup_insert_ne by congruence. auto.
      * injection E as <- <- <-. exists (set_processing jt).
        split; [apply list_lookup_insert_eq; exact Hlen|].
        split; [discriminate | reflexivity].
    + intros obj j Hj. destruct (decide (obj = target)) as [->|Hne].
      * rewrite list_lookup_insert_eq in Hj by exact Hlen.
        injection Hj as <-. exact I.
      * rewrite list_lookup_insert_ne in Hj by congruence.
        exact (Hacc _ _ Hj).
  - exact H.
  - destruct (running sv !! k) as [[[target grid] title]|] eqn:Hk; [|exact H].
    split; [|split; [|split]]; simpl.
    + intros id obj Hl. rewrite length_alter. exact (Hlt _ _ Hl).
    + exact Hinj.
    + intros obj g t Hin. apply in_delete_running in Hin.
      destruct (Hrun obj g t Hin) as (j & Hj & Hs & Hg).
      destruct (decide (obj = target)) as [->|Hne].
      * rewrite list_lookup_alter_eq, Hj. simpl.
        destruct (snd (run (dap st grid title))); eexists;
          (split; [reflexivity|]); (split; [discriminate | exact Hg]).
      * exists j. rewrite list_lookup_alter_ne by congruence. auto.
    + intros obj j' Hj'. destruct (decide (obj = target)) as [->|Hne].
      * rewrite list_lookup_alter_eq in Hj'.
        destruct (heap sv !! target) as [j|]; [|discriminate].
        simpl in Hj'. injection Hj' as <-.
        destruct (snd (run (dap st grid title))); unfold accords; simpl;
          discriminate.
      * rewrite list_lookup_alter_ne in Hj' by congruence.
        exact (Hacc _ _ Hj').
Qed.

Lemma exec_coherent (reqs : list request) :
  forall sv, coherent sv -> coherent (exec dap sv reqs).
Proof.
  induction reqs as [|r reqs IH]; intros sv H; [exact H|].
  apply (IH (step dap sv r)). apply step_coherent. exact H.
Qed.

Lemma exec_app (sv : server) (pre post : list request) :
  exec dap sv (pre ++ post) = exec dap (exec dap sv pre) post.
Proof. apply fold_left_app. Qed.




Lemma step_heap_origin (sv : server) (r : request) (obj : nat) (j : job) :
  heap (step dap sv r) !! obj = Some j ->
  (exists j0, heap sv !! obj = Some j0 /\ job_grid j0 = job_grid j) \/
  (exists prompt id_now sweep_now,
     r = Preview prompt (inr (job_grid j)) id_now sweep_now /\
     truthy prompt = true).
Proof.
  destruct r as [prompt generated id_now sweep_now|jobId title|jobId|k st];
    simpl.
  - destruct (truthy prompt) eqn:Hp; simpl;
      [|intros Hj; left; exists j; auto].
    destruct generated as [e|grid]; [intros Hj; left; exists j; auto|].
    simpl. intros Hj. apply lookup_app_Some in Hj as [Hj|[_ Hj]].
    + left. exists j. auto.
    + destruct (obj - length (heap sv)) as [|d]; [|destruct d; discriminate].
      injection Hj as <-. right. exists prompt, id_now, sweep_now. auto.
  - destruct (jobs sv !! jobId) as [target|]; [|intros Hj; left; exists j; auto].
    destruct (heap sv !! target) as [jt|] eqn:Ht;
      [|intros Hj; left; exists j; auto].
    simpl. intros Hj. left. destruct (decide (obj = target)) as [->|Hne].
    + rewrite list_lookup_insert_eq in Hj
        by (eapply lookup_lt_Some; exact Ht).
      injection Hj as <-. exists jt. auto.
    + rewrite list_lookup_insert_ne in Hj by congruence. exists j. auto.
  - intros Hj. left. exists j. auto.
  - destruct (running sv !! k) as [[[target grid] title]|];
      [|intros Hj; left; exists j; auto].
    simpl. intros Hj. left. destruct (decide (obj = target)) as [->|Hne].
    + rewrite list_lookup_alter_eq in Hj.
      destruct (heap sv !! target) as [j0|]; [|discriminate].
      simpl in Hj. injection Hj as <-. exists j0. split; [reflexivity|].
      destruct (snd (run (dap st grid title))); reflexivity.
    + rewrite list_lookup_alter_ne in Hj by congruence. exists j. auto.
Qed.

Lemma step_running_origin (sv : server) (r : request) (obj : nat) (g : Grid)
    (t : string) :
  In (obj, g, t) (running (step dap sv r)) ->
  In (obj, g, t) (running sv) \/
  (exists jobId j, r = Publish jobId t /\ heap sv !! obj = Some j /\
                   job_grid j = g).
Proof.
  destruct r as [prompt generated id_now sweep_now|jobId title|jobId|k st];
    simpl.
  - destruct (negb (truthy prompt)); [auto|].
    destruct generated as [e|grid]; auto.
  - destruct (jobs sv !! jobId) as [target|]; [|auto].
    destruct (heap sv !! target) as [jt|] eqn:Ht; [|auto].
    simpl. intros Hin. apply in_app_or in Hin as [Hin|[E|[]]]; [auto|].
    injection E as <- <- <-. right. exists jobId, jt. auto.
  - auto.
  - destruct (running sv !! k) as [[[target grid] title]|]; [|auto].
    simpl. intros Hin. left. apply in_delete_running in Hin. exact Hin.
Qed.

Lemma origins (reqs : list request) :
  (forall obj j, heap (exec dap boot reqs) !! obj = Some j ->
     exists prompt id_now sweep_now,
       In (Preview prompt (inr (job_grid j)) id_now sweep_now) reqs /\
       truthy prompt = true) /\
  (forall obj g t, In (obj, g, t) (running (exec dap boot reqs)) ->
     from_requests reqs g t).
Proof.
  induction reqs as [|r pre [IHheap IHrun]] using rev_ind.
  - split.
    + intros obj j H. destruct obj; discriminate.
    + intros obj g t [].
  - rewrite exec_app. simpl.
    assert (Hheap : forall obj j,
              heap (step dap (exec dap boot pre) r) !! obj = Some j ->
              exists prompt id_now sweep_now,
                In (Preview prompt (inr (job_grid j)) id_now sweep_now)
                   (pre ++ [r]) /\ truthy prompt = true).
    { intros obj j Hj.
      apply step_heap_origin in Hj
        as [(j0 & Hj0 & Hg)|(prompt & id_now & sweep_now & -> & Hp)].
      - destruct (IHheap obj j0 Hj0) as (prompt & id_now & sweep_now & Hin & Hp).
        exists prompt, id_now, sweep_now. rewrite <- Hg.
        split; [apply in_or_app; left; exact Hin | exact Hp].
      - exists prompt, id_now, sweep_now.
        split; [apply in_or_app; right; left; reflexivity | exact Hp]. }
    split; [exact Hheap|].
    intros obj g t Hin.
    apply step_running_origin in Hin as [Hin|(jobId & j & -> & Hj & Hg)].
    + destruct (IHrun obj g t Hin)
        as [(prompt & id_now & sweep_now & Hp & Ht) (jobId & Hpub)].
      split.
      * exists prompt, id_now, sweep_now.
        split; [apply in_or_app; left; exact Hp | exact Ht].
      * exists jobId. apply in_or_app. left. exact Hpub.
    + split.
      * destruct (IHheap obj j Hj) as (prompt & id_now & sweep_now & Hp & Ht).
        exists prompt, id_now, sweep_now. rewrite <- Hg.
        split; [apply in_or_app; left; exact Hp | exact Ht].
      * exists jobId. apply in_or_app. right. left. reflexivity.
Qed.

Lemma step_isolated (sv : server) (r : request) (id : Z) (obj : nat)
    (j : job) :
  coherent sv -> leaves id r ->
  jobs sv !! id = Some obj -> heap sv !! obj = Some j ->
  status j = StPreview ->
  jobs (step dap sv r) !! id = Some obj /\
  heap (step dap sv r) !! obj = Some j.
Proof.
  intros (Hlt & Hinj & Hrun & Hacc) Hleave Hid Hj Hs.
  destruct r as [prompt generated id_now sweep_now|jobId title|jobId|k st];
    simpl.
  - destruct (truthy prompt) eqn:Hp; simpl; [|auto].
    destruct generated as [e|grid]; [auto|].
    simpl in Hleave. destruct (Hleave Hp) as [Hne Hage].
    simpl. split; [|apply lookup_app_l_Some; exact Hj].
    apply map_lookup_filter_Some. split; [|exact Hage].
    rewrite lookup_insert_ne by exact Hne. exact Hid.
  - simpl in Hleave.
    destruct (jobs sv !! jobId) as [target|] eqn:Ht; [|auto].
    destruct (heap sv !! target) as [jt|]; [|auto].
    simpl. split; [exact Hid|].
    rewrite list_lookup_insert_ne; [exact Hj|].
    intros ->. apply Hleave. exact (Hinj _ _ _ Ht Hid).
  - auto.
  - destruct (running sv !! k) as [[[target grid] title]|] eqn:Hk; [|auto].
    simpl. split; [exact Hid|].
    rewrite list_lookup_alter_ne; [exact Hj|].
    intros ->.
    assert (Hin : In (obj, grid, title) (running sv)).
    { apply list_elem_of_In. eapply list_elem_of_lookup_2. exact Hk. }
    destruct (Hrun obj grid title Hin) as (j0 & Hj0 & Hs0 & _).
    congruence.
Qed.

Lemma exec_isolated (post : list request) (id : Z) (obj : nat) (j : job) :
  forall sv, coherent sv -> Forall (leaves id) post ->
    jobs sv !! id = Some obj -> heap sv !! obj = Some j ->
    status j = StPreview ->
    status_reply (exec dap sv post) id = Some j.
Proof.
  induction post as [|r post IH]; intros sv Hc Hall Hid Hj Hs.
  - simpl. unfold status_reply. rewrite Hid. exact Hj.
  - apply Forall_cons in Hall as [Hr Hall].
    destruct (step_isolated sv r id obj j Hc Hr Hid Hj Hs) as [Hid' Hj'].
    simpl. apply IH; [apply step_coherent; exact Hc | assumption..].
Qed.

End JobMore.

(** Whatever requests and completions the server has handled since it
    started, in any order and with /publish repeated at will, the job that
    /status finds under an id holds the properties of its status: a job in
    'preview' has neither url nor error set, a 'done' job has its url set
    and a failed job its error set. *)
Theorem status_reply_accords
    (dap : site -> Grid -> string -> M (option string))
    (reqs : list request) (id : Z) (j : job) :
  status_reply (exec dap boot reqs) id = Some j -> accords j.
Proof.
  intros H. unfold status_reply in H.
  destruct (jobs (exec dap boot reqs) !! id) as [obj|]; [|discriminate].
  destruct (exec_coherent dap reqs boot coherent_boot) as (_ & _ & _ & Hacc).
  exact (Hacc obj j H).
Qed.

Lemma status_reply_accords_witness :
  accords (mkJob demo_grid StDone
             (Some (Some "https://opentrons-art.rcdonovan.com/gallery/42"))
             None).
Proof.
  apply (status_reply_accords ServerJsReplay.drawAndPublish
           (take 3 republish_run) 0%Z).
  vm_compute. reflexivity.
Defined.




(** Every replay the server has started and not yet seen finish runs on the
    grid of a job object that has left 'preview', a grid that a successful
    /preview of the same run stored, under the title of a /publish request
    of the run: drawAndPublish is never called on a grid that no preview
    produced. *)
Theorem replays_run_previewed_grids
    (dap : site -> Grid -> string -> M (option string))
    (reqs : list request) (obj : nat) (g : Grid) (t : string) :
  In (obj, g, t) (running (exec dap boot reqs)) ->
  from_requests reqs g t /\
  exists j, heap (exec dap boot reqs) !! obj = Some j /\
            status j <> StPreview /\ job_grid j = g.
Proof.
  intros Hin. split.
  - exact (proj2 (origins dap reqs) obj g t Hin).
  - destruct (exec_coherent dap reqs boot coherent_boot)
      as (_ & _ & Hrun & _).
    exact (Hrun obj g t Hin).
Qed.

Lemma replays_run_previewed_grids_witness :
  from_requests single_publish_run demo_grid "art" /\
  exists j,
    heap (exec ServerJsReplay.drawAndPublish boot single_publish_run)
      !! 0%nat = Some j /\
    status j <> StPreview /\ job_grid j = demo_grid.
Proof.
  apply (replays_run_previewed_grids ServerJsReplay.drawAndPublish
           single_publish_run 0%nat demo_grid "art").
  left. reflexivity.
Defined.

(** A job stays as its /preview made it, and /status keeps answering
    'preview' with neither url nor error for its id, whatever else the
    server handles in between (other previews, other jobs published,
    replays finishing or failing), as long as no /publish names its id and
    no later successful /preview takes the same id or sweeps it. *)
Theorem previewed_job_isolated
    (dap : site -> Grid -> string -> M (option string))
    (pre post : list request) (prompt : string) (grid : Grid)
    (id sweep_now : Z) :
  truthy prompt = true ->
  (sweep_now - id <= RETENTION_MS)%Z ->
  Forall (leaves id) post ->
  status_reply
    (exec dap boot (pre ++ Preview prompt (inr grid) id sweep_now :: post)) id
  = Some (mkJob grid StPreview None None).
Proof.
  intros Hp Hage Hall.
  rewrite exec_app.
  change (exec dap (exec dap boot pre)
            (Preview prompt (inr grid) id sweep_now :: post))
    with (exec dap (step dap (exec dap boot pre)
                      (Preview prompt (inr grid) id sweep_now)) post).
  pose proof (exec_coherent dap pre boot coherent_boot) as Hc.
  apply exec_isolated with (obj := length (heap (exec dap boot pre))).
  - apply step_coherent. exact Hc.
  - exact Hall.
  - simpl. rewrite Hp. simpl. apply map_lookup_filter_Some.
    split; [apply lookup_insert_eq | exact Hage].
  - simpl. rewrite Hp. simpl.
    rewrite lookup_app_r by lia. rewrite Nat.sub_diag. reflexivity.
  - reflexivity.
Qed.

Lemma previewed_job_isolated_witness :
  status_reply
    (exec ServerJsReplay.drawAndPublish boot
       (take 2 busy_run ++ Preview "cat" (inr demo_grid) 5 5
          :: drop 3 busy_run)) 5
  = Some (mkJob demo_grid StPreview None None).
Proof.
  apply (previewed_job_isolated ServerJsReplay.drawAndPublish
           (take 2 busy_run) (drop 3 busy_run) "cat" demo_grid 5 5).
  - reflexivity.
  - vm_compute. discriminate.
  - repeat (apply Forall_cons; split;
            [cbn; first [exact I | discriminate
                        | intros _; split; [discriminate
                                           | vm_compute; discriminate]
                        | intros H; discriminate H] |]).
    apply Forall_nil. exact I.
Defined.

(* ================================================================== *)
(** * What drawAndPublish reports *)
(* ================================================================== *)

Section Yields.
Context {A B : Type}.

Lemma yields_ret (a : A) : yields (ret a) (inr a).
Proof. intros h. reflexivity. Qed.

Lemma yields_throw (e : error) : yields (@throw A e) (inl e).
Proof. intros h. reflexivity. Qed.

Lemma yields_bind_ok (m : M A) (k : A -> M B) (a : A) (r : error + B) :
  yields m (inr a) -> yields (k a) r -> yields (bind m k) r.
Proof.
  intros Hm Hk h. unfold bind. specialize (Hm h).
  destruct (m h) as [es [e|a']]; simpl in Hm; [discriminate|].
  injection Hm as ->. specialize (Hk (h ++ es)).
  destruct (k a (h ++ es)) as [es' r']. exact Hk.
Qed.

Lemma yields_bind_error (m : M A) (k : A -> M B) (e : error) :
  yields m (inl e) -> yields (bind m k) (inl e).
Proof.
  intros Hm h. unfold bind. specialize (Hm h).
  destruct (m h) as [es [e'|a]]; simpl in Hm; [|discriminate].
  injection Hm as ->. reflexivity.
Qed.

Lemma yields_try_ok (m : M A) (handler : error -> M A) (a : A) :
  yields m (inr a) -> yields (try_catch m handler) (inr a).
Proof.
  intros Hm h. unfold try_catch. specialize (Hm h).
  destruct (m h) as [es [e|a']]; simpl in Hm; [discriminate|].
  exact Hm.
Qed.

Lemma yields_try_error (m : M A) (handler : error -> M A) (e : error)
    (r : error + A) :
  yields m (inl e) -> yields (handler e) r -> yields (try_catch m handler) r.
Proof.
  intros Hm Hh h. unfold try_catch. specialize (Hm h).
  destruct (m h) as [es [e'|a]]; simpl in Hm; [|discriminate].
  injection Hm as ->. specialize (Hh (h ++ es)).
  destruct (handler e (h ++ es)) as [es' r']. exact Hh.
Qed.

End Yields.

Lemma yields_emit (a : action) : yields (emit a) (inr tt).
Proof. intros h. reflexivity. Qed.

Lemma yields_for_each {A : Type} (l : list A) (body : A -> M unit) :
  (forall x, yields (body x) (inr tt)) -> yields (for_each l body) (inr tt).
Proof.
  intros Hb. induction l as [|x l IH]; [apply yields_ret|].
  simpl. exact (yields_bind_ok _ _ tt _ (Hb x) IH).
Qed.

Section Outcome.
Variable s : site.
Hypothesis Hfaultless : faultless s.

Lemma yields_await (a : action) : yields (await s a) (inr tt).
Proof. intros h. unfold await. simpl. rewrite Hfaultless. reflexivity. Qed.

Lemma yields_guarded (cond : bool) (a : action) :
  yields (if cond then await s a else ret tt) (inr tt).
Proof. destruct cond; [apply yields_await | apply yields_ret]. Qed.

Lemma yields_paint (pal : list PaletteEntry) (grid : Grid) :
  GRID_ROWS <= length grid -> yields (paint pal s grid) (inr tt).
Proof.
  intros Hrows. unfold paint. apply yields_for_each. intros c.
  unfold paint_color. rewrite (pixels_of_assigned grid c Hrows).
  destruct (assigned grid c) as [|p ps]; [apply yields_ret|].
  apply yields_bind_ok with tt; [apply yields_await|].
  apply yields_bind_ok with tt; [apply yields_guarded|].
  apply yields_for_each. intros idx. apply yields_guarded.
Qed.

Lemma yields_click_first_publish (btns : list button) :
  forall i, yields (click_first_publish s btns i) (inr tt).
Proof.
  induction btns as [|b rest IH]; intros i; [apply yields_ret|].
  simpl. apply yields_bind_ok with tt; [apply yields_await|].
  destruct (includes (textContent b) "Publish");
    [apply yields_await | apply IH].
Qed.

Lemma yields_first_link (host : string) (hrefs : list string) :
  forall i, yields (first_link s host hrefs i)
                   (inr (find_link host hrefs)).
Proof.
  induction hrefs as [|href rest IH]; intros i; [apply yields_ret|].
  simpl. apply yields_bind_ok with tt; [apply yields_await|].
  unfold find_link. simpl.
  destruct (truthy href && includes href host);
    [apply yields_ret | apply IH].
Qed.

Lemma yields_title_step (cond : bool) (title : string) :
  yields (if cond then await s ClickTitle ;;; await s (TypeTitle title)
          else ret tt) (inr tt).
Proof.
  destruct cond; [|apply yields_ret].
  apply yields_bind_ok with tt; apply yields_await.
Qed.

(** Once a button is selected, the scan ends with a button selected. *)
Lemma yields_lowest_selected (btns : list button) :
  forall i maxY best,
    exists j, yields (lowest_publish s btns i maxY (Some best))
                     (inr (Some j)).
Proof.
  induction btns as [|b rest IH]; intros i maxY best.
  - exists best. apply yields_ret.
  - simpl. destruct (includes (textContent b) "Publish").
    + destruct (box_y b) as [y|].
      * destruct (PrimFloat.ltb maxY y).
        -- destruct (IH (S i) y i) as [j Hj]. exists j.
           apply yields_bind_ok with tt; [apply yields_await|].
           apply yields_bind_ok with tt; [apply yields_await | exact Hj].
        -- destruct (IH (S i) maxY best) as [j Hj]. exists j.
           apply yields_bind_ok with tt; [apply yields_await|].
           apply yields_bind_ok with tt; [apply yields_await | exact Hj].
      * destruct (IH (S i) maxY best) as [j Hj]. exists j.
        apply yields_bind_ok with tt; [apply yields_await|].
        apply yields_bind_ok with tt; [apply yields_await | exact Hj].
    + destruct (IH (S i) maxY best) as [j Hj]. exists j.
      apply yields_bind_ok with tt; [apply yields_await | exact Hj].
Qed.

(** The scan selects a button exactly when some button can be selected. *)
Lemma yields_lowest (btns : list button) :
  forall i,
    if existsb clickable_publish btns
    then exists j, yields (lowest_publish s btns i (-1)%float None)
                          (inr (Some j))
    else yields (lowest_publish s btns i (-1)%float None) (inr None).
Proof.
  induction btns as [|b rest IH]; intros i; [apply yields_ret|].
  cbn [existsb lowest_publish]. unfold clickable_publish at 1.
  destruct (includes (textContent b) "Publish"); cbn [andb orb].
  - destruct (box_y b) as [y|].
    + destruct (PrimFloat.ltb (-1)%float y); cbn [orb].
      * destruct (yields_lowest_selected rest (S i) y i) as [j Hj].
        exists j.
        apply yields_bind_ok with tt; [apply yields_await|].
        apply yields_bind_ok with tt; [apply yields_await | exact Hj].
      * specialize (IH (S i)).
        destruct (existsb clickable_publish rest).
        -- destruct IH as [j Hj]. exists j.
           apply yields_bind_ok with tt; [apply yields_await|].
           apply yields_bind_ok with tt; [apply yields_await | exact Hj].
        -- apply yields_bind_ok with tt; [apply yields_await|].
           apply yields_bind_ok with tt; [apply yields_await | exact IH].
    + specialize (IH (S i)).
      destruct (existsb clickable_publish rest).
      * destruct IH as [j Hj]. exists j.
        apply yields_bind_ok with tt; [apply yields_await|].
        apply yields_bind_ok with tt; [apply yields_await | exact Hj].
      * apply yields_bind_ok with tt; [apply yields_await|].
        apply yields_bind_ok with tt; [apply yields_await | exact IH].
  - specialize (IH (S i)).
    destruct (existsb clickable_publish rest).
    + destruct IH as [j Hj]. exists j.
      apply yields_bind_ok with tt; [apply yields_await | exact Hj].
    + apply yields_bind_ok with tt; [apply yields_await | exact IH].
Qed.

Lemma yields_click_lowest (btns : list button) (missing : string) :
  yields (PollinationsReplay.click_lowest_publish s btns missing)
         (if existsb clickable_publish btns then inr tt
          else inl (JsError missing)).
Proof.
  unfold PollinationsReplay.click_lowest_publish.
  pose proof (yields_lowest btns 0) as H.
  destruct (existsb clickable_publish btns).
  - destruct H as [j Hj].
    apply yields_bind_ok with (Some j); [exact Hj | apply yields_await].
  - apply yields_bind_ok with None; [exact H | apply yields_throw].
Qed.

Lemma yields_click_found (btns : list button) :
  yields (BlackBgReplay.click_found_publish btns) (inr tt).
Proof.
  unfold BlackBgReplay.click_found_publish.
  destruct (publish_indices btns); [apply yields_ret | apply yields_emit].
Qed.

Lemma yields_click_modal (btns : list button) :
  yields (BlackBgReplay.click_modal_publish btns) (inr tt).
Proof.
  unfold BlackBgReplay.click_modal_publish. cbv zeta.
  destruct (1 <? length (publish_indices btns)).
  - destruct (publish_indices btns !! _);
      [apply yields_emit | apply yields_ret].
  - destruct (length (publish_indices btns) =? 1); [|apply yields_ret].
    destruct (publish_indices btns !! 0);
      [apply yields_emit | apply yields_ret].
Qed.

(** The try block, the two [browser.close()] calls and the catch clause. *)
Lemma yields_session (m : M (option string)) (r : error + option string) :
  yields m r ->
  yields (try_catch (url <~ m ;; await s Close ;;; ret url)
                    (fun err => await s Close ;;; throw err)) r.
Proof.
  intros Hm. destruct r as [e|url].
  - apply yields_try_error with e.
    + apply yields_bind_error. exact Hm.
    + apply yields_bind_ok with tt; [apply yields_await | apply yields_throw].
  - apply yields_try_ok. apply yields_bind_ok with url; [exact Hm|].
    apply yields_bind_ok with tt; [apply yields_await | apply yields_ret].
Qed.

End Outcome.

Lemma server_drawAndPublish_yields (s : site) (grid : Grid)
    (title : string) :
  faultless s ->
  GRID_ROWS <= length grid ->
  yields (ServerJsReplay.drawAndPublish s grid title)
         (inr (find_link "opentrons-art" (links s))).
Proof.
  intros Hf Hrows.
  unfold ServerJsReplay.drawAndPublish.
  apply yields_bind_ok with tt; [apply yields_await, Hf|].
  apply yields_bind_ok with tt; [apply yields_await, Hf|].
  apply yields_session; [exact Hf|].
  unfold ServerJsReplay.replay.
  apply yields_bind_ok with tt; [apply yields_await, Hf|].
  apply yields_bind_ok with tt; [apply yields_await, Hf|].
  apply yields_bind_ok with tt; [apply yields_paint; assumption|].
  unfold ServerJsReplay.publish.
  apply yields_bind_ok with tt; [apply yields_await, Hf|].
  apply yields_bind_ok with tt; [apply yields_click_first_publish, Hf|].
  apply yields_bind_ok with tt; [apply yields_await, Hf|].
  apply yields_bind_ok with tt; [apply yields_title_step, Hf|].
  apply yields_bind_ok with tt; [apply yields_await, Hf|].
  apply yields_bind_ok with tt; [apply yields_click_first_publish, Hf|].
  apply yields_bind_ok with tt; [apply yields_await, Hf|].
  apply yields_first_link, Hf.
Qed.

(** src/server.js: when no browser call rejects and the grid has its 32
    rows, drawAndPublish reports success whatever the page offers (no cell,
    no swatch, no 'Publish' button, no title input), with the first link
    whose href contains 'opentrons-art' as url, or null when there is none.
    A page on which nothing could be painted or published is reported as a
    success. *)
Theorem server_replay_always_succeeds (s : site) (grid : Grid)
    (title : string) :
  faultless s ->
  GRID_ROWS <= length grid ->
  snd (run (ServerJsReplay.drawAndPublish s grid title)) =
  inr (find_link "opentrons-art" (links s)).
Proof.
  intros Hf Hrows.
  exact (server_drawAndPublish_yields s grid title Hf Hrows []).
Qed.

Lemma server_replay_always_succeeds_witness :
  snd (run (ServerJsReplay.drawAndPublish bare_site demo_grid "art")) =
  inr (find_link "opentrons-art" (links bare_site)).
Proof.
  apply (server_replay_always_succeeds bare_site demo_grid "art").
  - intros h a. reflexivity.
  - vm_compute. lia.
Defined.

Lemma blackbg_drawAndPublish_yields (s : site) (grid : Grid) (title : string) :
  faultless s ->
  GRID_ROWS <= length grid ->
  yields (BlackBgReplay.drawAndPublish s grid title)
         (if cells_found s =? 0 then inl (JsError BlackBgReplay.NO_CELLS)
          else inr (find_link "opentrons-art" (links s))).
Proof.
  intros Hf Hrows.
  unfold BlackBgReplay.drawAndPublish.
  apply yields_bind_ok with tt; [apply yields_await, Hf|].
  apply yields_bind_ok with tt; [apply yields_await, Hf|].
  apply yields_bind_ok with tt; [apply yields_await, Hf|].
  apply yields_session; [exact Hf|].
  unfold BlackBgReplay.replay.
  apply yields_bind_ok with tt; [apply yields_await, Hf|].
  apply yields_bind_ok with tt; [apply yields_await, Hf|].
  destruct (cells_found s =? 0).
  { apply yields_bind_error. apply yields_throw. }
  apply yields_bind_ok with tt; [apply yields_ret|].
  apply yields_bind_ok with tt; [apply yields_paint; assumption|].
  unfold BlackBgReplay.publish.
  apply yields_bind_ok with tt; [apply yields_await, Hf|].
  apply yields_bind_ok with tt; [apply yields_click_found|].
  apply yields_bind_ok with tt; [apply yields_await, Hf|].
  apply yields_bind_ok with tt; [apply yields_title_step, Hf|].
  apply yields_bind_ok with tt; [apply yields_await, Hf|].
  apply yields_bind_ok with tt; [apply yields_click_modal|].
  apply yields_bind_ok with tt; [apply yields_await, Hf|].
  apply yields_ret.
Qed.

(** First file of part_000 (black background): when no browser call
    rejects and the grid has its 32 rows, drawAndPublish throws 'No grid
    cells found - page may not have loaded correctly' when the cell query
    finds nothing, and otherwise reports success, with or without a
    'Publish' button on the page, with the first link whose href contains
    'opentrons-art' as url, or null. *)
Theorem blackbg_replay_outcome (s : site) (grid : Grid) (title : string) :
  faultless s ->
  GRID_ROWS <= length grid ->
  snd (run (BlackBgReplay.drawAndPublish s grid title)) =
  if cells_found s =? 0 then inl (JsError BlackBgReplay.NO_CELLS)
  else inr (find_link "opentrons-art" (links s)).
Proof.
  intros Hf Hrows.
  exact (blackbg_drawAndPublish_yields s grid title Hf Hrows []).
Qed.

Lemma blackbg_replay_outcome_witness :
  snd (run (BlackBgReplay.drawAndPublish bare_site demo_grid "art")) =
  if cells_found bare_site =? 0 then inl (JsError BlackBgReplay.NO_CELLS)
  else inr (find_link "opentrons-art" (links bare_site)).
Proof.
  apply (blackbg_replay_outcome bare_site demo_grid "art").
  - intros h a. reflexivity.
  - vm_compute. lia.
Defined.

(** Second file of part_000 (pollinations): when no browser call rejects
    and the grid has its 32 rows, drawAndPublish throws 'Publish button not
    found' when no button of the page has a text containing 'Publish' and a
    bounding box with y > -1, throws 'Modal publish button not found' when
    that holds of the buttons of the dialog, and otherwise reports success
    with the first link whose href contains 'opentrons-art.rcdonovan.com'
    as url, or null.  An empty cell query is no failure here. *)
Theorem pollinations_replay_outcome (s : site) (grid : Grid)
    (title : string) :
  faultless s ->
  GRID_ROWS <= length grid ->
  snd (run (PollinationsReplay.drawAndPublish s grid title)) =
  if negb (existsb clickable_publish (trigger_buttons s))
  then inl (JsError "Publish button not found")
  else if negb (existsb clickable_publish (confirm_buttons s))
  then inl (JsError "Modal publish button not found")
  else inr (find_link "opentrons-art.rcdonovan.com" (links s)).
Proof.
  intros Hf Hrows.
  assert (H : yields (PollinationsReplay.drawAndPublish s grid title)
                (if negb (existsb clickable_publish (trigger_buttons s))
                 then inl (JsError "Publish button not found")
                 else if negb (existsb clickable_publish (confirm_buttons s))
                 then inl (JsError "Modal publish button not found")
                 else inr (find_link "opentrons-art.rcdonovan.com"
                                     (links s))));
    [|apply H].
  unfold PollinationsReplay.drawAndPublish.
  apply yields_bind_ok with tt; [apply yields_await, Hf|].
  apply yields_bind_ok with tt; [apply yields_await, Hf|].
  apply yields_session; [exact Hf|].
  unfold PollinationsReplay.replay.
  apply yields_bind_ok with tt; [apply yields_await, Hf|].
  apply yields_bind_ok with tt; [apply yields_await, Hf|].
  apply yields_bind_ok with tt; [apply yields_paint; assumption|].
  unfold PollinationsReplay.publish.
  apply yields_bind_ok with tt; [apply yields_await, Hf|].
  pose proof (yields_click_lowest s Hf (trigger_buttons s)
                "Publish button not found") as Htrigger.
  pose proof (yields_click_lowest s Hf (confirm_buttons s)
                "Modal publish button not found") as Hconfirm.
  destruct (existsb clickable_publish (trigger_buttons s)); cbn [negb].
  2: { apply yields_bind_error. exact Htrigger. }
  apply yields_bind_ok with tt; [exact Htrigger|].
  apply yields_bind_ok with tt; [apply yields_await, Hf|].
  apply yields_bind_ok with tt; [apply yields_title_step, Hf|].
  apply yields_bind_ok with tt; [apply yields_await, Hf|].
  destruct (existsb clickable_publish (confirm_buttons s)); cbn [negb].
  2: { apply yields_bind_error. exact Hconfirm. }
  apply yields_bind_ok with tt; [exact Hconfirm|].
  apply yields_bind_ok with tt; [apply yields_await, Hf|].
  apply yields_first_link, Hf.
Qed.

Lemma pollinations_replay_outcome_witness :
  snd (run (PollinationsReplay.drawAndPublish hidden_button_site demo_grid
              "art")) =
  if negb (existsb clickable_publish (trigger_buttons hidden_button_site))
  then inl (JsError "Publish button not found")
  else if negb (existsb clickable_publish
                        (confirm_buttons hidden_button_site))
  then inl (JsError "Modal publish button not found")
  else inr (find_link "opentrons-art.rcdonovan.com"
                      (links hidden_button_site)).
Proof.
  apply (pollinations_replay_outcome hidden_button_site demo_grid "art").
  - intros h a. reflexivity.
  - vm_compute. lia.
Defined.

(* ================================================================== *)
(** * Properties of generateImage with retries *)
(* ================================================================== *)

Section GenerateFacts.
Variables http_get https_get : nat -> string -> get_result.
Variable resolve_href : string -> string -> option string.
Variable url : string.
Variable to_png : string -> error + string.
Variable metadata : string -> error + unit.

Local Abbreviation attempt_ :=
  (attempt http_get https_get resolve_href url to_png metadata).
Local Abbreviation retry_ :=
  (retry http_get https_get resolve_href url to_png metadata).

Lemma retry_returned (n : nat) :
  forall i lastError waits buf,
    retry_ n i lastError = (waits, Returned buf) <->
    waits < n /\ attempt_ (i + waits) = Resolved buf /\
    forall k, k < waits -> exists e, attempt_ (i + k) = Rejected e.
Proof.
  induction n as [|n IH]; intros i lastError waits buf.
  - simpl. split; [discriminate | intros [H _]; lia].
  - simpl. destruct (attempt_ i) as [b|e|] eqn:Ei.
    + split.
      * intros H. injection H as <- <-. rewrite Nat.add_0_r.
        split; [lia|]. split; [exact Ei|]. intros k Hk. lia.
      * intros (Hlt & Hres & Hrej). destruct waits as [|w].
        -- rewrite Nat.add_0_r in Hres. congruence.
        -- destruct (Hrej 0) as [e He]; [lia|].
           rewrite Nat.add_0_r in He. congruence.
    + destruct (retry_ n (S i) (Some e)) as [w r] eqn:Er. split.
      * intros H. injection H as <- ->.
        apply IH in Er as (Hlt & Hres & Hrej).
        split; [lia|]. split.
        -- rewrite <- Nat.add_succ_comm. exact Hres.
        -- intros [|k] Hk.
           ++ exists e. rewrite Nat.add_0_r. exact Ei.
           ++ rewrite <- Nat.add_succ_comm. apply Hrej. lia.
      * intros (Hlt & Hres & Hrej). destruct waits as [|w'].
        -- rewrite Nat.add_0_r in Hres. congruence.
        -- assert (Hgoal : retry_ n (S i) (Some e) = (w', Returned buf)).
           { apply IH. split; [lia|]. split.
             - rewrite Nat.add_succ_comm. exact Hres.
             - intros k Hk. rewrite Nat.add_succ_comm. apply Hrej. lia. }
           congruence.
    + split; [discriminate|].
      intros (Hlt & Hres & Hrej). destruct waits as [|w].
      * rewrite Nat.add_0_r in Hres. congruence.
      * destruct (Hrej 0) as [e He]; [lia|].
        rewrite Nat.add_0_r in He. congruence.
Qed.

Lemma retry_threw (n : nat) :
  forall i lastError waits thrown,
    retry_ n i lastError = (waits, Threw thrown) <->
    waits = n /\
    (forall k, k < n -> exists e, attempt_ (i + k) = Rejected e) /\
    match n with
    | O => thrown = lastError
    | S m => exists e, attempt_ (i + m) = Rejected e /\ thrown = Some e
    end.
Proof.
  induction n as [|n IH]; intros i lastError waits thrown.
  - simpl. split.
    + intros H. injection H as <- <-.
      split; [reflexivity|]. split; [intros k Hk; lia | reflexivity].
    + intros (-> & _ & ->). reflexivity.
  - simpl. destruct (attempt_ i) as [b|e|] eqn:Ei.
    + split; [discriminate|]. intros (_ & Hrej & _).
      destruct (Hrej 0) as [e He]; [lia|].
      rewrite Nat.add_0_r in He. congruence.
    + destruct (retry_ n (S i) (Some e)) as [w r] eqn:Er. split.
      * intros H. injection H as <- ->.
        apply IH in Er as (-> & Hrej & Hlast).
        split; [reflexivity|]. split.
        -- intros [|k] Hk.
           ++ exists e. rewrite Nat.add_0_r. exact Ei.
           ++ rewrite <- Nat.add_succ_comm. apply Hrej. lia.
        -- destruct n as [|m].
           ++ exists e. rewrite Nat.add_0_r. split; [exact Ei | exact Hlast].
           ++ rewrite <- Nat.add_succ_comm. exact Hlast.
      * intros (-> & Hrej & Hlast).
        assert (Hgoal : retry_ n (S i) (Some e) = (n, Threw thrown)).
        { apply IH. split; [reflexivity|]. split.
          - intros k Hk. rewrite Nat.add_succ_comm. apply Hrej. lia.
          - destruct n as [|m].
            + destruct Hlast as (e' & He' & ->).
              rewrite Nat.add_0_r in He'. congruence.
            + rewrite Nat.add_succ_comm. exact Hlast. }
        congruence.
    + split; [discriminate|]. intros (_ & Hrej & _).
      destruct (Hrej 0) as [e He]; [lia|].
      rewrite Nat.add_0_r in He. congruence.
Qed.

Lemma attempt_resolved (i : nat) (buf : string) :
  attempt_ i = Resolved buf <->
  exists imageBuffer,
    fetchImage (http_get i) (https_get i) resolve_href url DEFAULT_REDIRECTS
      = Resolved imageBuffer /\
    isJPEG imageBuffer || isPNG imageBuffer = true /\
    to_png imageBuffer = inr buf /\
    metadata buf = inr tt.
Proof.
  unfold attempt. split.
  - intros H.
    destruct (fetchImage _ _ _ _ _) as [raw|e|]; [|discriminate..].
    rewrite <- negb_orb in H.
    destruct (isJPEG raw || isPNG raw) eqn:Emagic; simpl in H;
      [|discriminate].
    destruct (to_png raw) as [e|png] eqn:Ep; [discriminate|].
    destruct (metadata png) as [e|[]] eqn:Em; [discriminate|].
    injection H as <-. exists raw. auto.
  - intros (raw & Hf & Hmagic & Hp & Hm).
    rewrite Hf, <- negb_orb, Hmagic. simpl. rewrite Hp, Hm. reflexivity.
Qed.

Lemma starts_with_spec (b0 b1 : nat) (buf : string) :
  match buf with
  | String c0 (String c1 _) =>
      (nat_of_ascii c0 =? b0) && (nat_of_ascii c1 =? b1)
  | _ => false
  end = true <-> starts_with b0 b1 buf.
Proof.
  split.
  - destruct buf as [|c0 [|c1 rest]]; try discriminate.
    intros H. apply andb_prop in H as [H0 H1].
    apply Nat.eqb_eq in H0, H1. exists c0, c1, rest. auto.
  - intros (c0 & c1 & rest & -> & H0 & H1).
    rewrite H0, H1, !Nat.eqb_refl. reflexivity.
Qed.

Lemma magic_bytes_spec (buf : string) :
  isJPEG buf || isPNG buf = true <-> image_bytes buf.
Proof.
  unfold image_bytes. rewrite orb_true_iff.
  rewrite <- (starts_with_spec 255 216 buf), <- (starts_with_spec 137 80 buf).
  reflexivity.
Qed.

Lemma attempt_rejected (i : nat) :
  (exists e, attempt_ i = Rejected e) <->
  attempt_fails
    (fetchImage (http_get i) (https_get i) resolve_href url 5)
    to_png metadata.
Proof.
  unfold attempt. change DEFAULT_REDIRECTS with 5.
  destruct (fetchImage _ _ _ _ _) as [raw|e|]; simpl.
  - rewrite <- negb_orb.
    destruct (isJPEG raw || isPNG raw) eqn:Emagic; simpl.
    + apply magic_bytes_spec in Emagic.
      destruct (to_png raw) as [e|png] eqn:Ep.
      * split; [intros _ | intros _; exists e; reflexivity].
        right. left. exists e. reflexivity.
      * destruct (metadata png) as [e|[]] eqn:Em.
        -- split; [intros _ | intros _; exists e; reflexivity].
           right. right. exists png, e. auto.
        -- split; [intros [e He]; discriminate|].
           intros [Hno|[[e He]|(png' & e & Hp & He)]];
             [contradiction | discriminate | congruence].
    + split; [intros _ | intros _; eexists; reflexivity].
      left. intros Himg. apply magic_bytes_spec in Himg. congruence.
  - split; [intros _; exact I | intros _; exists e; reflexivity].
  - split; [intros [e He]; discriminate | intros []].
Qed.

End GenerateFacts.

(** generateImage returns a buffer after [waits] waits of 5 s exactly when
    [waits] is less than 5, each of its first [waits] attempts failed (the
    download was rejected, or did not start with the bytes FF D8 or 89 50,
    or sharp rejected it), and the next download did start with FF D8 or
    with 89 50 and sharp converted it to the PNG returned and could read
    that back.  A download that does not start with these bytes is never
    returned, and no sixth download is made. *)
Theorem generateImage_returns_first_image
    (http_get https_get : nat -> string -> get_result)
    (resolve_href : string -> string -> option string) (url : string)
    (to_png : string -> error + string) (metadata : string -> error + unit)
    (waits : nat) (buf : string) :
  generateImage http_get https_get resolve_href url to_png metadata
    = (waits, Returned buf) <->
  waits < 5 /\
  (forall k, k < waits ->
     attempt_fails (fetchImage (http_get k) (https_get k) resolve_href url 5)
                   to_png metadata) /\
  exists imageBuffer,
    fetchImage (http_get waits) (https_get waits) resolve_href url 5
      = Resolved imageBuffer /\
    image_bytes imageBuffer /\
    to_png imageBuffer = inr buf /\
    metadata buf = inr tt.
Proof.
  unfold generateImage, ATTEMPTS. rewrite retry_returned.
  rewrite attempt_resolved. change DEFAULT_REDIRECTS with 5. simpl.
  split.
  - intros (Hlt & (raw & Hf & Hmagic & Hp & Hm) & Hrej).
    split; [exact Hlt|]. split.
    + intros k Hk. apply attempt_rejected. exact (Hrej k Hk).
    + exists raw. rewrite <- magic_bytes_spec. auto.
  - intros (Hlt & Hrej & (raw & Hf & Hmagic & Hp & Hm)).
    split; [exact Hlt|]. split.
    + exists raw. rewrite magic_bytes_spec. auto.
    + intros k Hk. apply attempt_rejected. exact (Hrej k Hk).
Qed.

(** Against a server that answers 503 twice, then an HTML page, then a
    file starting with 89 50: three attempts fail, and the fourth download
    is the one returned. *)
Lemma generateImage_returns_first_image_witness :
  attempt_fails (Resolved "<html></html>") same_png any_metadata /\
  fetchImage (flaky_get 3) (flaky_get 3) no_href
             "https://image.pollinations.ai/prompt/cat" 5
    = Resolved (String (ascii_of_nat 137) "PNGdata") /\
  image_bytes (String (ascii_of_nat 137) "PNGdata").
Proof.
  destruct (proj1 (generateImage_returns_first_image flaky_get flaky_get
                     no_href "https://image.pollinations.ai/prompt/cat"
                     same_png any_metadata 3
                     (String (ascii_of_nat 137) "PNGdata")))
    as (_ & Hfail & raw & Hf & Hmagic & Hp & _).
  - vm_compute. reflexivity.
  - unfold same_png in Hp. injection Hp as ->.
    split; [exact (Hfail 2 (le_n 3))|]. split; [exact Hf | exact Hmagic].
Defined.

(** generateImage throws exactly when all five attempts failed; it then
    throws the error of the fifth attempt, after five waits of 5 s (one
    after the last failure too), and never throws undefined. *)
Theorem generateImage_throws_after_five
    (http_get https_get : nat -> string -> get_result)
    (resolve_href : string -> string -> option string) (url : string)
    (to_png : string -> error + string) (metadata : string -> error + unit)
    (waits : nat) (thrown : option error) :
  generateImage http_get https_get resolve_href url to_png metadata
    = (waits, Threw thrown) <->
  waits = 5 /\
  (forall k, k < 5 ->
     exists e, attempt http_get https_get resolve_href url to_png metadata k
               = Rejected e) /\
  exists e, attempt http_get https_get resolve_href url to_png metadata 4
            = Rejected e /\ thrown = Some e.
Proof.
  unfold generateImage, ATTEMPTS. rewrite retry_threw. simpl. tauto.
Qed.

Example generateImage_flaky :
  generateImage flaky_get flaky_get no_href
                "https://image.pollinations.ai/prompt/cat" same_png
                any_metadata
  = (3, Returned (String (ascii_of_nat 137) "PNGdata")).
Proof. vm_compute. reflexivity. Qed.

Example generateImage_down :
  generateImage down_get down_get no_href
                "https://image.pollinations.ai/prompt/cat" same_png
                any_metadata
  = (5, Threw (Some (JsError "ECONNREFUSED"))).
Proof. vm_compute. reflexivity. Qed.

(* ================================================================== *)
(** * From the image to the clicks *)
(* ================================================================== *)

(** src/server.js and the black-background version, end to end: once sharp
    has produced the raw image, imageToGrid returns a grid that gridToSvg
    renders without throwing and that drawAndPublish replays without
    throwing on a page with all its controls where no browser call rejects;
    and the cell of row y and column x is then clicked under the swatch
    that the quantizer chose for the pixel at (x, y), or not clicked at all
    when the quantizer chose 0 (near white, respectively dark). *)
Theorem image_to_clicks (sharp_raw : string -> error + RawImage)
    (imageBuffer : string) (raw : RawImage) (s : site) (title : string)
    (y x : nat) :
  sharp_raw imageBuffer = inr raw ->
  faultless s ->
  GRID_ROWS * GRID_COLS <= cells_found s ->
  (forall k, 1 <= k < 12 -> k < swatches_found s k) ->
  y < GRID_ROWS -> x < GRID_COLS ->
  (exists grid svg,
     ServerJs.imageToGrid sharp_raw imageBuffer = inr grid /\
     ServerJs.gridToSvg grid = inr svg /\
     snd (run (ServerJsReplay.drawAndPublish s grid title))
       = inr (find_link "opentrons-art" (links s)) /\
     painted_with None
       (fst (run (ServerJsReplay.drawAndPublish s grid title)))
       (y * GRID_COLS + x)
       = if ServerJs.quantize raw y x =? 0 then None
         else Some (Some (ServerJs.quantize raw y x))) /\
  (exists grid svg,
     BlackBg.imageToGrid sharp_raw imageBuffer = inr grid /\
     BlackBg.gridToSvg grid = inr svg /\
     snd (run (BlackBgReplay.drawAndPublish s grid title))
       = inr (find_link "opentrons-art" (links s)) /\
     painted_with None
       (fst (run (BlackBgReplay.drawAndPublish s grid title)))
       (y * GRID_COLS + x)
       = if BlackBg.quantize raw y x =? 0 then None
         else Some (Some (BlackBg.quantize raw y x))).
Proof.
  intros Hsharp Hf Hcells Hsw Hy Hx. split.
  - assert (Hv : valid_grid 12 (build_grid (ServerJs.quantize raw)))
      by (apply build_grid_valid; intros y' x';
          apply (server_quantize_bound raw y' x')).
    assert (Hrows : GRID_ROWS <= length (build_grid (ServerJs.quantize raw)))
      by (destruct Hv as [-> _]; lia).
    exists (build_grid (ServerJs.quantize raw)).
    eexists. split; [|split; [|split]].
    + unfold ServerJs.imageToGrid. rewrite Hsharp. reflexivity.
    + unfold ServerJs.gridToSvg. rewrite (server_svg_rects _ Hv).
      reflexivity.
    + exact (server_drawAndPublish_yields s _ title Hf Hrows []).
    + exact (proj1 (replay_painted_cell s _ title y x _ Hf Hv Hcells Hsw
                      (build_grid_cell _ y x Hy Hx))).
  - assert (Hv : valid_grid 12 (build_grid (BlackBg.quantize raw)))
      by (apply build_grid_valid; intros y' x';
          apply (blackbg_quantize_bound raw y' x')).
    assert (Hrows : GRID_ROWS <= length (build_grid (BlackBg.quantize raw)))
      by (destruct Hv as [-> _]; lia).
    exists (build_grid (BlackBg.quantize raw)).
    eexists. split; [|split; [|split]].
    + unfold BlackBg.imageToGrid. rewrite Hsharp. reflexivity.
    + unfold BlackBg.gridToSvg. rewrite (blackbg_svg_rects _ Hv).
      reflexivity.
    + pose proof (blackbg_drawAndPublish_yields s _ title Hf Hrows []) as H.
      destruct (Nat.eqb_spec (cells_found s) 0) as [E|_]; [|exact H].
      exfalso. rewrite E in Hcells. unfold GRID_ROWS, GRID_COLS in Hcells.
      lia.
    + exact (proj1 (proj2 (replay_painted_cell s _ title y x _ Hf Hv Hcells
                             Hsw (build_grid_cell _ y x Hy Hx)))).
Qed.

Lemma image_to_clicks_witness :
  exists grid svg,
    ServerJs.imageToGrid grey_sharp "img" = inr grid /\
    ServerJs.gridToSvg grid = inr svg /\
    snd (run (ServerJsReplay.drawAndPublish demo_site grid "art"))
      = inr (find_link "opentrons-art" (links demo_site)) /\
    painted_with None
      (fst (run (ServerJsReplay.drawAndPublish demo_site grid "art")))
      (0 * GRID_COLS + 0)
      = if ServerJs.quantize grey_pixel 0 0 =? 0 then None
        else Some (Some (ServerJs.quantize grey_pixel 0 0)).
Proof.
  refine (proj1 (image_to_clicks grey_sharp "img" grey_pixel demo_site "art"
                   0 0 _ _ _ _ _ _)).
  - reflexivity.
  - intros h a. reflexivity.
  - vm_compute. lia.
  - intros k Hk. simpl. lia.
  - unfold GRID_ROWS. lia.
  - unfold GRID_COLS. lia.
Defined.

(* ================================================================== *)
(** * A success hides no rejected call *)
(* ================================================================== *)

Section Clean.
Variable s : site.
Variable awaited : action -> bool.

Lemma clean_ret {A : Type} (a : A) : clean s awaited (ret a).
Proof.
  intros h es a' H i x Hi _. injection H as <- _. destruct i; discriminate.
Qed.

Lemma clean_throw {A : Type} (e : error) : clean s awaited (@throw A e).
Proof. intros h es a H. discriminate. Qed.

Lemma clean_await (a : action) : clean s awaited (await s a).
Proof.
  intros h es u H i x Hi _. unfold await in H.
  destruct (fault s h a) eqn:Hfault; [discriminate|].
  injection H as <-. destruct i as [|i]; [|destruct i; discriminate].
  injection Hi as <-. simpl. rewrite app_nil_r. exact Hfault.
Qed.

Lemma clean_emit (a : action) :
  awaited a = false -> clean s awaited (emit a).
Proof.
  intros Ha h es u H i x Hi Hx. injection H as <-.
  destruct i as [|i]; [|destruct i; discriminate].
  injection Hi as <-. congruence.
Qed.

Lemma clean_bind {A B : Type} (m : M A) (k : A -> M B) :
  clean s awaited m -> (forall a, clean s awaited (k a)) ->
  clean s awaited (bind m k).
Proof.
  intros Hm Hk h es b H i x Hi Hx. unfold bind in H.
  destruct (m h) as [es1 [e|a]] eqn:Em; [discriminate|].
  destruct (k a (h ++ es1)) as [es2 r] eqn:Ek.
  injection H as <- ->.
  apply lookup_app_Some in Hi as [Hi|[Hge Hi]].
  - rewrite take_app_le
      by (apply Nat.lt_le_incl; eapply lookup_lt_Some; exact Hi).
    exact (Hm h es1 a Em i x Hi Hx).
  - rewrite take_app_ge by exact Hge. rewrite app_assoc.
    exact (Hk a (h ++ es1) es2 b Ek _ x Hi Hx).
Qed.

Lemma clean_try_catch {A : Type} (m : M A) (handler : error -> M A) :
  clean s awaited m ->
  (forall e h, exists e', snd (handler e h) = inl e') ->
  clean s awaited (try_catch m handler).
Proof.
  intros Hm Hh h es a H i x Hi Hx. unfold try_catch in H.
  destruct (m h) as [es1 [e|a']] eqn:Em.
  - destruct (Hh e (h ++ es1)) as [e' He'].
    destruct (handler e (h ++ es1)) as [es2 r]. simpl in He'. subst r.
    discriminate.
  - injection H as <- <-. exact (Hm h es1 a' Em i x Hi Hx).
Qed.

Lemma clean_for_each {A : Type} (l : list A) (body : A -> M unit) :
  (forall x, clean s awaited (body x)) -> clean s awaited (for_each l body).
Proof.
  intros Hb. induction l as [|x l IH]; [apply clean_ret|].
  simpl. apply clean_bind; [apply Hb | intros _; exact IH].
Qed.

Lemma clean_guarded (cond : bool) (a : action) :
  clean s awaited (if cond then await s a else ret tt).
Proof. destruct cond; [apply clean_await | apply clean_ret]. Qed.

Lemma clean_paint (pal : list PaletteEntry) (grid : Grid) :
  clean s awaited (paint pal s grid).
Proof.
  unfold paint. apply clean_for_each. intros c. unfold paint_color.
  destruct (pixels_of grid c) as [[|p ps]|];
    [apply clean_ret | | apply clean_throw].
  apply clean_bind; [apply clean_await | intros _].
  apply clean_bind; [apply clean_guarded | intros _].
  apply clean_for_each. intros idx. apply clean_guarded.
Qed.

Lemma clean_click_first_publish (btns : list button) :
  forall i, clean s awaited (click_first_publish s btns i).
Proof.
  induction btns as [|b rest IH]; intros i; [apply clean_ret|].
  simpl. apply clean_bind; [apply clean_await | intros _].
  destruct (includes (textContent b) "Publish");
    [apply clean_await | apply IH].
Qed.

Lemma clean_lowest_publish (btns : list button) :
  forall i maxY best, clean s awaited (lowest_publish s btns i maxY best).
Proof.
  induction btns as [|b rest IH]; intros i maxY best; [apply clean_ret|].
  simpl. apply clean_bind; [apply clean_await | intros _].
  destruct (includes (textContent b) "Publish"); [|apply IH].
  apply clean_bind; [apply clean_await | intros _].
  destruct (box_y b) as [y|]; [|apply IH].
  destruct (PrimFloat.ltb maxY y); apply IH.
Qed.

Lemma clean_click_lowest (btns : list button) (missing : string) :
  clean s awaited (PollinationsReplay.click_lowest_publish s btns missing).
Proof.
  unfold PollinationsReplay.click_lowest_publish.
  apply clean_bind; [apply clean_lowest_publish|].
  intros [i|]; [apply clean_await | apply clean_throw].
Qed.

Lemma clean_first_link (host : string) (hrefs : list string) :
  forall i, clean s awaited (first_link s host hrefs i).
Proof.
  induction hrefs as [|href rest IH]; intros i; [apply clean_ret|].
  simpl. apply clean_bind; [apply clean_await | intros _].
  destruct (truthy href && includes href host); [apply clean_ret | apply IH].
Qed.

Lemma clean_title_step (cond : bool) (title : string) :
  clean s awaited (if cond then await s ClickTitle ;;; await s (TypeTitle title)
                   else ret tt).
Proof.
  destruct cond; [|apply clean_ret].
  apply clean_bind; [apply clean_await | intros _; apply clean_await].
Qed.

(** The try block, the two [browser.close()] calls and the catch clause. *)
Lemma clean_session (m : M (option string)) :
  clean s awaited m ->
  clean s awaited (try_catch (url <~ m ;; await s Close ;;; ret url)
                             (fun err => await s Close ;;; throw err)).
Proof.
  intros Hm. apply clean_try_catch.
  - apply clean_bind; [exact Hm | intros url].
    apply clean_bind; [apply clean_await | intros _; apply clean_ret].
  - intros e h. unfold bind, await, throw.
    destruct (fault s h Close) as [e'|]; [exists e' | exists e]; reflexivity.
Qed.

Lemma clean_server_drawAndPublish (grid : Grid) (title : string) :
  clean s awaited (ServerJsReplay.drawAndPublish s grid title).
Proof.
  unfold ServerJsReplay.drawAndPublish.
  apply clean_bind; [apply clean_await | intros _].
  apply clean_bind; [apply clean_await | intros _].
  apply clean_session. unfold ServerJsReplay.replay.
  apply clean_bind; [apply clean_await | intros _].
  apply clean_bind; [apply clean_await | intros _].
  apply clean_bind; [apply clean_paint | intros _].
  unfold ServerJsReplay.publish.
  apply clean_bind; [apply clean_await | intros _].
  apply clean_bind; [apply clean_click_first_publish | intros _].
  apply clean_bind; [apply clean_await | intros _].
  apply clean_bind; [apply clean_title_step | intros _].
  apply clean_bind; [apply clean_await | intros _].
  apply clean_bind; [apply clean_click_first_publish | intros _].
  apply clean_bind; [apply clean_await | intros _].
  apply clean_first_link.
Qed.

Lemma clean_pollinations_drawAndPublish (grid : Grid) (title : string) :
  clean s awaited (PollinationsReplay.drawAndPublish s grid title).
Proof.
  unfold PollinationsReplay.drawAndPublish.
  apply clean_bind; [apply clean_await | intros _].
  apply clean_bind; [apply clean_await | intros _].
  apply clean_session. unfold PollinationsReplay.replay.
  apply clean_bind; [apply clean_await | intros _].
  apply clean_bind; [apply clean_await | intros _].
  apply clean_bind; [apply clean_paint | intros _].
  unfold PollinationsReplay.publish.
  apply clean_bind; [apply clean_await | intros _].
  apply clean_bind; [apply clean_click_lowest | intros _].
  apply clean_bind; [apply clean_await | intros _].
  apply clean_bind; [apply clean_title_step | intros _].
  apply clean_bind; [apply clean_await | intros _].
  apply clean_bind; [apply clean_click_lowest | intros _].
  apply clean_bind; [apply clean_await | intros _].
  apply clean_first_link.
Qed.

End Clean.

Lemma clean_blackbg_drawAndPublish (s : site) (grid : Grid)
    (title : string) :
  clean s (fun a => negb (is_button_click a))
        (BlackBgReplay.drawAndPublish s grid title).
Proof.
  unfold BlackBgReplay.drawAndPublish.
  apply clean_bind; [apply clean_await | intros _].
  apply clean_bind; [apply clean_await | intros _].
  apply clean_bind; [apply clean_await | intros _].
  apply clean_session. unfold BlackBgReplay.replay.
  apply clean_bind; [apply clean_await | intros _].
  apply clean_bind; [apply clean_await | intros _].
  apply clean_bind;
    [destruct (cells_found s =? 0); [apply clean_throw | apply clean_ret]
    | intros _].
  apply clean_bind; [apply clean_paint | intros _].
  unfold BlackBgReplay.publish.
  apply clean_bind; [apply clean_await | intros _].
  apply clean_bind; [| intros _].
  { unfold BlackBgReplay.click_found_publish.
    destruct (publish_indices (trigger_buttons s));
      [apply clean_ret | apply clean_emit; reflexivity]. }
  apply clean_bind; [apply clean_await | intros _].
  apply clean_bind; [apply clean_title_step | intros _].
  apply clean_bind; [apply clean_await | intros _].
  apply clean_bind; [| intros _].
  { unfold BlackBgReplay.click_modal_publish. cbv zeta.
    destruct (1 <? length (publish_indices (confirm_buttons s))).
    - destruct (publish_indices (confirm_buttons s) !! _);
        [apply clean_emit; reflexivity | apply clean_ret].
    - destruct (length (publish_indices (confirm_buttons s)) =? 1);
        [|apply clean_ret].
      destruct (publish_indices (confirm_buttons s) !! 0);
        [apply clean_emit; reflexivity | apply clean_ret]. }
  apply clean_bind; [apply clean_await | intros _].
  apply clean_ret.
Qed.

(** Whatever the page and the browser do, when drawAndPublish reports
    success no awaited browser call of the run was rejected: every call of
    its trace resolved when it was made (in the black-background version,
    every call other than the button clicks made inside page.evaluate, which
    are not awaited one by one).  A rejected launch, query, click, typing
    or close is never swallowed. *)
Theorem success_hides_no_rejection (s : site) (grid : Grid) (title : string)
    (i : nat) (x : action) :
  (forall url,
     snd (run (ServerJsReplay.drawAndPublish s grid title)) = inr url ->
     fst (run (ServerJsReplay.drawAndPublish s grid title)) !! i = Some x ->
     fault s (take i (fst (run (ServerJsReplay.drawAndPublish s grid title))))
           x = None) /\
  (forall url,
     snd (run (BlackBgReplay.drawAndPublish s grid title)) = inr url ->
     fst (run (BlackBgReplay.drawAndPublish s grid title)) !! i = Some x ->
     is_button_click x = false ->
     fault s (take i (fst (run (BlackBgReplay.drawAndPublish s grid title))))
           x = None) /\
  (forall url,
     snd (run (PollinationsReplay.drawAndPublish s grid title)) = inr url ->
     fst (run (PollinationsReplay.drawAndPublish s grid title)) !! i
       = Some x ->
     fault s (take i (fst (run (PollinationsReplay.drawAndPublish s grid
                                  title))))
           x = None).
Proof.
  unfold run. split; [|split].
  - intros url Hok Hi.
    pose proof (clean_server_drawAndPublish s any_action grid title []) as H.
    destruct (ServerJsReplay.drawAndPublish s grid title []) as [es r].
    simpl in Hok, Hi |- *. subst r.
    exact (H es url eq_refl i x Hi eq_refl).
  - intros url Hok Hi Hx.
    pose proof (clean_blackbg_drawAndPublish s grid title []) as H.
    destruct (BlackBgReplay.drawAndPublish s grid title []) as [es r].
    simpl in Hok, Hi |- *. subst r.
    apply (H es url eq_refl i x Hi). rewrite Hx. reflexivity.
  - intros url Hok Hi.
    pose proof (clean_pollinations_drawAndPublish s any_action grid title [])
      as H.
    destruct (PollinationsReplay.drawAndPublish s grid title []) as [es r].
    simpl in Hok, Hi |- *. subst r.
    exact (H es url eq_refl i x Hi eq_refl).
Qed.

Lemma success_hides_no_rejection_witness :
  fault demo_site
        (take 3 (fst (run (ServerJsReplay.drawAndPublish demo_site demo_grid
                             "art"))))
        QueryCells = None.
Proof.
  apply (proj1 (success_hides_no_rejection demo_site demo_grid "art" 3
                  QueryCells)
               (Some "https://opentrons-art.rcdonovan.com/gallery/42")).
  - vm_compute. reflexivity.
  - vm_compute. reflexivity.
Defined.

(* ================================================================== *)
(** * The preview determines the grid *)
(* ================================================================== *)

Lemma server_hex_NoDup : NoDup (hex <$> ServerJs.PALETTE).
Proof. apply (bool_decide_unpack _). vm_compute. exact I. Qed.

Lemma blackbg_hex_NoDup : NoDup (hex <$> BlackBg.PALETTE).
Proof. apply (bool_decide_unpack _). vm_compute. exact I. Qed.

Lemma hex_determines_index (pal : list PaletteEntry) (c1 c2 : nat)
    (e1 e2 : PaletteEntry) :
  NoDup (hex <$> pal) ->
  pal !! c1 = Some e1 -> pal !! c2 = Some e2 -> hex e1 = hex e2 -> c1 = c2.
Proof.
  intros Hnd H1 H2 Hhex.
  apply (NoDup_lookup (hex <$> pal) c1 c2 (hex e1) Hnd).
  - rewrite list_lookup_fmap, H1. reflexivity.
  - rewrite list_lookup_fmap, H2, Hhex. reflexivity.
Qed.

Lemma grids_equal_by_cells (n : nat) (g1 g2 : Grid) :
  valid_grid n g1 -> valid_grid n g2 ->
  (forall y x, y < GRID_ROWS -> x < GRID_COLS ->
     cell_at g1 y x = cell_at g2 y x) ->
  g1 = g2.
Proof.
  intros Hv1 Hv2 Hcells. apply list_eq. intros y.
  destruct (Nat.lt_ge_cases y GRID_ROWS) as [Hy|Hy].
  - destruct Hv1 as [Hl1 Hr1], Hv2 as [Hl2 Hr2].
    destruct (lookup_lt_is_Some_2 g1 y) as [r1 E1]; [lia|].
    destruct (lookup_lt_is_Some_2 g2 y) as [r2 E2]; [lia|].
    rewrite E1, E2. f_equal.
    rewrite Forall_lookup in Hr1. rewrite Forall_lookup in Hr2.
    destruct (Hr1 y r1 E1) as [Hlen1 _]. destruct (Hr2 y r2 E2) as [Hlen2 _].
    apply list_eq. intros x.
    destruct (Nat.lt_ge_cases x GRID_COLS) as [Hx|Hx].
    + specialize (Hcells y x Hy Hx). unfold cell_at in Hcells.
      rewrite E1, E2 in Hcells. exact Hcells.
    + rewrite !lookup_ge_None_2 by lia. reflexivity.
  - destruct Hv1 as [Hl1 _], Hv2 as [Hl2 _].
    rewrite !lookup_ge_None_2 by lia. reflexivity.
Qed.

(** ** Strings that start alike *)

Lemma str_app_inv_head (a s t : string) : a +:+ s = a +:+ t -> s = t.
Proof.
  induction a as [|c a IH]; intros H; [exact H|].
  change (String c (a +:+ s) = String c (a +:+ t)) in H.
  injection H as H. exact (IH H).
Qed.

Lemma str_length_app (a b : string) :
  String.length (a +:+ b) = String.length a + String.length b.
Proof.
  induction a as [|c a IH]; [reflexivity|].
  change (S (String.length (a +:+ b)) = S (String.length a + String.length b)).
  rewrite IH. reflexivity.
Qed.

Lemma str_app_inv_length (a b c d : string) :
  a +:+ b = c +:+ d -> String.length a = String.length c -> a = c /\ b = d.
Proof.
  revert c. induction a as [|x a IH]; intros [|y c] H Hlen;
    try discriminate Hlen.
  - split; [reflexivity | exact H].
  - change (String x (a +:+ b) = String y (c +:+ d)) in H.
    injection H as -> H. injection Hlen as Hlen.
    destruct (IH c H Hlen) as [-> ->]. split; reflexivity.
Qed.

Lemma split_at_quote (a b A B : string) :
  no_quote a = true -> no_quote b = true ->
  a +:+ String "034" A = b +:+ String "034" B -> a = b /\ A = B.
Proof.
  revert b. induction a as [|x a IH]; intros [|y b] Ha Hb H.
  - change (String "034" A = String "034" B) in H. injection H as ->.
    split; reflexivity.
  - change (String "034" A = String y (b +:+ String "034" B)) in H.
    injection H as <- _. discriminate Hb.
  - change (String x (a +:+ String "034" A) = String "034" B) in H.
    injection H as -> _. discriminate Ha.
  - change (String x (a +:+ String "034" A)
            = String y (b +:+ String "034" B)) in H.
    injection H as -> H.
    cbn [no_quote] in Ha, Hb.
    apply andb_prop in Ha as [_ Ha]. apply andb_prop in Hb as [_ Hb].
    destruct (IH b Ha Hb H) as [-> ->]. split; reflexivity.
Qed.

Lemma quoted_app (d rest : string) :
  quoted d +:+ rest = String "034" (d +:+ String "034" rest).
Proof.
  unfold quoted.
  change (String "034" ((d +:+ String "034" "") +:+ rest)
          = String "034" (d +:+ String "034" rest)).
  rewrite str_app_assoc. reflexivity.
Qed.

Lemma square_at_split (x y : nat) (fill : string) :
  square_at x y fill = tag_at x y +:+ square_tail fill.
Proof.
  unfold square_at, tag_at, square_tail. rewrite !str_app_assoc.
  reflexivity.
Qed.

Lemma tag_at_app (x y : nat) (s : string) :
  tag_at x y +:+ s =
  "<rect x=" +:+
  String "034" (decimal x +:+
  String "034" (" y=" +:+
  String "034" (decimal y +:+ String "034" s))).
Proof.
  unfold tag_at. rewrite !str_app_assoc, !quoted_app. reflexivity.
Qed.

Lemma tag_at_inv (x y x' y' : nat) (s t : string) :
  no_quote (decimal x) = true -> no_quote (decimal x') = true ->
  no_quote (decimal y) = true -> no_quote (decimal y') = true ->
  tag_at x y +:+ s = tag_at x' y' +:+ t ->
  decimal x = decimal x' /\ decimal y = decimal y'.
Proof.
  intros Hx Hx' Hy Hy' H. rewrite !tag_at_app in H.
  apply str_app_inv_head in H. injection H as H.
  apply split_at_quote in H as [Ex H]; [|assumption..].
  apply str_app_inv_head in H. injection H as H.
  apply split_at_quote in H as [Ey _]; [|assumption..].
  split; assumption.
Qed.

Lemma tag_not_closing (X : string) : "<rect x=" +:+ X <> "</svg>"%string.
Proof. intros H. vm_compute in H. discriminate H. Qed.

Lemma tag_not_empty (X : string) : "<rect x=" +:+ X <> ""%string.
Proof. intros H. vm_compute in H. discriminate H. Qed.

Lemma square_tail_length (fill : string) :
  String.length (square_tail fill) = 33 + String.length fill.
Proof.
  unfold square_tail. rewrite !str_length_app. unfold quoted.
  cbn [String.length]. rewrite !str_length_app. cbn [String.length]. lia.
Qed.

Lemma square_tail_inv (f1 f2 : string) :
  String.length f1 = String.length f2 ->
  square_tail f1 = square_tail f2 -> f1 = f2.
Proof.
  intros Hlen H. unfold square_tail in H.
  do 5 apply str_app_inv_head in H.
  rewrite !quoted_app in H. injection H as H.
  exact (proj1 (str_app_inv_length _ _ _ _ H Hlen)).
Qed.

(** ** The numerals of the positions *)

Lemma tens_no_quote (n : nat) :
  n < 48 -> no_quote (decimal (n * 10)) = true.
Proof.
  assert (H : forallb (fun n => no_quote (decimal (n * 10))) (seq 0 48)
              = true) by (vm_compute; reflexivity).
  intros Hn. rewrite forallb_forall in H. apply H, in_seq. lia.
Qed.

Lemma tens_inj (n m : nat) :
  n < 48 -> m < 48 -> decimal (n * 10) = decimal (m * 10) -> n = m.
Proof.
  assert (H : forallb (fun n => forallb (fun m =>
                (n =? m) || negb (String.eqb (decimal (n * 10))
                                             (decimal (m * 10))))
                (seq 0 48)) (seq 0 48) = true) by (vm_compute; reflexivity).
  intros Hn Hm E. rewrite forallb_forall in H.
  specialize (H n ltac:(apply in_seq; lia)). rewrite forallb_forall in H.
  specialize (H m ltac:(apply in_seq; lia)).
  rewrite E, String.eqb_refl, orb_false_r in H.
  apply Nat.eqb_eq. exact H.
Qed.

Lemma cell_tag_inv (j k : nat) (s t : string) :
  j < 1536 -> k < 1536 -> cell_tag j +:+ s = cell_tag k +:+ t -> j = k.
Proof.
  intros Hj Hk H. unfold cell_tag in H.
  assert (Hjm : j mod 48 < 48) by (apply Nat.mod_upper_bound; lia).
  assert (Hkm : k mod 48 < 48) by (apply Nat.mod_upper_bound; lia).
  assert (Hjd : j / 48 < 48)
    by (apply Nat.Div0.div_lt_upper_bound; lia).
  assert (Hkd : k / 48 < 48)
    by (apply Nat.Div0.div_lt_upper_bound; lia).
  apply tag_at_inv in H as [Ex Ey]; try (apply tens_no_quote; assumption).
  apply tens_inj in Ex; [|assumption..].
  apply tens_inj in Ey; [|assumption..].
  rewrite (Nat.div_mod_eq j 48), (Nat.div_mod_eq k 48). lia.
Qed.

(** ** Tagged blocks can be read back *)

Lemma str_app_nil_l (s : string) : "" +:+ s = s.
Proof. reflexivity. Qed.

Section Blocks.
Context {K : Type}.
Variable dom : K -> Prop.
Variable tag : K -> string.
Variable len : nat.
Variable closing : string.
Hypothesis tag_apart :
  forall j k s t, dom j -> dom k -> j <> k -> tag j +:+ s <> tag k +:+ t.
Hypothesis tag_open : forall k s, dom k -> tag k +:+ s <> closing.

(** A run of blocks followed by the closing tag is the closing tag, or it
    starts with the tag of one of its blocks. *)
Lemma first_block (b : K -> string) (ks : list K) :
  (forall k, In k ks -> tagged tag len b k) ->
  String.concat "" (map b ks) +:+ closing = closing \/
  exists k s, In k ks /\
    String.concat "" (map b ks) +:+ closing = tag k +:+ s.
Proof.
  induction ks as [|k ks IH]; intros Hb; [left; reflexivity|].
  cbn [map]. rewrite str_concat_cons, str_app_assoc.
  destruct (Hb k (or_introl eq_refl)) as [E|(body & E & _)]; rewrite E.
  - rewrite str_app_nil_l.
    destruct IH as [IH|(k' & s & Hin & IH)];
      [intros k' Hin; apply Hb; right; exact Hin | left; exact IH |].
    right. exists k', s. split; [right; exact Hin | exact IH].
  - right. exists k. eexists. split; [left; reflexivity|].
    rewrite str_app_assoc. reflexivity.
Qed.

Lemma blocks_determined (b1 b2 : K -> string) (ks : list K) :
  NoDup ks ->
  (forall k, In k ks -> dom k) ->
  (forall k, In k ks -> tagged tag len b1 k) ->
  (forall k, In k ks -> tagged tag len b2 k) ->
  String.concat "" (map b1 ks) +:+ closing =
    String.concat "" (map b2 ks) +:+ closing ->
  forall k, In k ks -> b1 k = b2 k.
Proof.
  induction ks as [|k ks IH]; intros Hnd Hdom H1 H2 Heq; [intros k []|].
  apply NoDup_cons in Hnd as [Hnotin Hnd].
  assert (Hfresh : forall k', In k' ks -> k' <> k).
  { intros k' Hin ->. apply Hnotin, list_elem_of_In. exact Hin. }
  assert (Hk : dom k) by (apply Hdom; left; reflexivity).
  cbn [map] in Heq. rewrite !str_concat_cons, !str_app_assoc in Heq.
  assert (Hhead : b1 k = b2 k /\
                  String.concat "" (map b1 ks) +:+ closing =
                  String.concat "" (map b2 ks) +:+ closing).
  { destruct (H1 k (or_introl eq_refl)) as [E1|(body1 & E1 & L1)];
      destruct (H2 k (or_introl eq_refl)) as [E2|(body2 & E2 & L2)];
      rewrite E1, E2; rewrite E1, E2 in Heq.
    - split; [reflexivity | exact Heq].
    - exfalso. rewrite str_app_nil_l, str_app_assoc in Heq.
      destruct (first_block b1 ks) as [E|(k' & s & Hin & E)];
        [intros k' Hin; apply H1; right; exact Hin | |];
        rewrite E in Heq.
      + exact (tag_open k _ Hk (eq_sym Heq)).
      + refine (tag_apart k' k _ _ _ Hk (Hfresh k' Hin) Heq).
        apply Hdom. right. exact Hin.
    - exfalso. rewrite str_app_nil_l, str_app_assoc in Heq.
      destruct (first_block b2 ks) as [E|(k' & s & Hin & E)];
        [intros k' Hin; apply H2; right; exact Hin | |];
        rewrite E in Heq.
      + exact (tag_open k _ Hk Heq).
      + refine (tag_apart k' k _ _ _ Hk (Hfresh k' Hin) (eq_sym Heq)).
        apply Hdom. right. exact Hin.
    - rewrite !str_app_assoc in Heq. apply str_app_inv_head in Heq.
      apply str_app_inv_length in Heq as [-> Heq]; [|congruence].
      split; [reflexivity | exact Heq]. }
  destruct Hhead as [Hhead Hrest].
  intros k' [<-|Hin]; [exact Hhead|].
  apply IH; try assumption.
  - intros k'' Hin'. apply Hdom. right. exact Hin'.
  - intros k'' Hin'. apply H1. right. exact Hin'.
  - intros k'' Hin'. apply H2. right. exact Hin'.
Qed.

End Blocks.

(** ** From the text back to the grid *)

Lemma server_hex_length (c : nat) (e : PaletteEntry) :
  ServerJs.PALETTE !! c = Some e -> String.length (hex e) = 7.
Proof.
  intros H.
  assert (Hall : Forall (fun e => String.length (hex e) = 7) ServerJs.PALETTE)
    by (repeat constructor).
  rewrite Forall_lookup in Hall. exact (Hall c e H).
Qed.

Lemma blackbg_hex_length (c : nat) (e : PaletteEntry) :
  BlackBg.PALETTE !! c = Some e -> String.length (hex e) = 7.
Proof.
  intros H.
  assert (Hall : Forall (fun e => String.length (hex e) = 7) BlackBg.PALETTE)
    by (repeat constructor).
  rewrite Forall_lookup in Hall. exact (Hall c e H).
Qed.

Section ReadBack.
Variable pal : list PaletteEntry.
Variable skip0 : bool.
Hypothesis pal_length : length pal = 12.
Hypothesis pal_hex : forall c e, pal !! c = Some e -> String.length (hex e) = 7.
Hypothesis pal_NoDup : NoDup (hex <$> pal).

Lemma cell_text_tagged (grid : Grid) (k : nat) :
  window_ok 12 grid -> k < 1536 ->
  tagged cell_tag 40
    (fun k => cell_text pal skip0 grid (k / 48) (k mod 48)) k.
Proof.
  intros Hw Hk. unfold tagged, cell_text.
  destruct (Hw (k / 48) (k mod 48)) as (c & Hc & Hlt).
  { apply Nat.Div0.div_lt_upper_bound. unfold GRID_ROWS. lia. }
  { apply Nat.mod_upper_bound. unfold GRID_COLS. lia. }
  rewrite Hc. destruct (skip0 && (c =? 0)); [left; reflexivity|].
  destruct (lookup_lt_is_Some_2 pal c) as [e He]; [rewrite pal_length; lia|].
  rewrite He. right. exists (square_tail (hex e)). split.
  - apply square_at_split.
  - rewrite square_tail_length, (pal_hex c e He). reflexivity.
Qed.

Lemma cell_text_inv (g1 g2 : Grid) (row col : nat) :
  window_ok 12 g1 -> window_ok 12 g2 -> row < 32 -> col < 48 ->
  cell_text pal skip0 g1 row col = cell_text pal skip0 g2 row col ->
  cell_at g1 row col = cell_at g2 row col.
Proof.
  intros Hw1 Hw2 Hrow Hcol. unfold cell_text.
  destruct (Hw1 row col Hrow Hcol) as (c1 & Hc1 & Hlt1).
  destruct (Hw2 row col Hrow Hcol) as (c2 & Hc2 & Hlt2).
  rewrite Hc1, Hc2.
  destruct (lookup_lt_is_Some_2 pal c1) as [e1 He1];
    [rewrite pal_length; lia|].
  destruct (lookup_lt_is_Some_2 pal c2) as [e2 He2];
    [rewrite pal_length; lia|].
  rewrite He1, He2.
  destruct skip0; cbn [andb].
  - destruct (Nat.eqb_spec c1 0) as [->|N1], (Nat.eqb_spec c2 0) as [->|N2].
    + reflexivity.
    + intros H. symmetry in H. rewrite square_at_split in H.
      unfold tag_at in H. rewrite !str_app_assoc in H.
      exfalso. exact (tag_not_empty _ H).
    + intros H. rewrite square_at_split in H.
      unfold tag_at in H. rewrite !str_app_assoc in H.
      exfalso. exact (tag_not_empty _ H).
    + intros H. rewrite !square_at_split in H.
      apply str_app_inv_head, square_tail_inv in H;
        [|rewrite (pal_hex c1 e1 He1), (pal_hex c2 e2 He2); reflexivity].
      f_equal. exact (hex_determines_index pal c1 c2 e1 e2 pal_NoDup
                        He1 He2 H).
  - intros H. rewrite !square_at_split in H.
    apply str_app_inv_head, square_tail_inv in H;
      [|rewrite (pal_hex c1 e1 He1), (pal_hex c2 e2 He2); reflexivity].
    f_equal. exact (hex_determines_index pal c1 c2 e1 e2 pal_NoDup
                      He1 He2 H).
Qed.

(** Two grids whose cells draw the same text are the same grid. *)
Lemma elems_determine_grid (g1 g2 : Grid) (background : string) :
  valid_grid 12 g1 -> valid_grid 12 g2 ->
  svg_picture background (String.concat "" (preview_elems pal skip0 g1)) =
  svg_picture background (String.concat "" (preview_elems pal skip0 g2)) ->
  g1 = g2.
Proof.
  intros Hv1 Hv2 H.
  pose proof (valid_grid_window 12 g1 Hv1) as Hw1.
  pose proof (valid_grid_window 12 g2 Hv2) as Hw2.
  unfold svg_picture in H. do 8 apply str_app_inv_head in H.
  unfold preview_elems in H.
  assert (Hin : forall k, In k (seq 0 1536) -> k < 1536)
    by (intros k Hk; apply in_seq in Hk; lia).
  assert (Hcells : forall k, In k (seq 0 1536) ->
            cell_text pal skip0 g1 (k / 48) (k mod 48) =
            cell_text pal skip0 g2 (k / 48) (k mod 48)).
  { apply (blocks_determined (fun k => k < 1536) cell_tag 40 "</svg>").
    - intros j k s t Hj Hk Hne E. apply Hne.
      exact (cell_tag_inv j k s t Hj Hk E).
    - intros k s Hk. unfold cell_tag, tag_at. rewrite !str_app_assoc.
      apply tag_not_closing.
    - apply NoDup_seq.
    - exact Hin.
    - intros k Hk. apply cell_text_tagged; [exact Hw1 | exact (Hin k Hk)].
    - intros k Hk. apply cell_text_tagged; [exact Hw2 | exact (Hin k Hk)].
    - exact H. }
  apply (grids_equal_by_cells 12 g1 g2 Hv1 Hv2). intros y x Hy Hx.
  unfold GRID_ROWS in Hy. unfold GRID_COLS in Hx.
  apply cell_text_inv; try assumption.
  specialize (Hcells (y * 48 + x)).
  replace ((y * 48 + x) / 48) with y in Hcells
    by (apply Nat.div_unique with x; lia).
  replace ((y * 48 + x) mod 48) with x in Hcells
    by (apply Nat.mod_unique with y; lia).
  apply Hcells, in_seq. lia.
Qed.

End ReadBack.

Lemma inr_eq {A B : Type} (a b : B) : @inr A B a = inr b -> a = b.
Proof. intros H. injection H as H. exact H. Qed.

(** Two different grids of 32 x 48 palette indices below 12 never get the
    same preview: the strings that gridToSvg returns for them differ, in
    src/server.js and in the black-background version.  The text can be
    read back cell by cell, because every rectangle carries its position,
    the twelve palette entries have twelve different hex colours and, on
    the black background, only index 0 draws nothing. *)
Theorem preview_determines_grid (g1 g2 : Grid) :
  valid_grid 12 g1 -> valid_grid 12 g2 -> g1 <> g2 ->
  ServerJs.gridToSvg g1 <> ServerJs.gridToSvg g2 /\
  BlackBg.gridToSvg g1 <> BlackBg.gridToSvg g2.
Proof.
  intros Hv1 Hv2 Hne. split; intros Heq; apply Hne.
  - rewrite (server_gridToSvg_text g1 Hv1), (server_gridToSvg_text g2 Hv2)
      in Heq.
    apply inr_eq in Heq.
    exact (elems_determine_grid ServerJs.PALETTE false eq_refl
             server_hex_length server_hex_NoDup g1 g2 "" Hv1 Hv2 Heq).
  - rewrite (blackbg_gridToSvg_text g1 Hv1),
      (blackbg_gridToSvg_text g2 Hv2) in Heq.
    apply inr_eq in Heq.
    exact (elems_determine_grid BlackBg.PALETTE true eq_refl
             blackbg_hex_length blackbg_hex_NoDup g1 g2 (cover "#000000")
             Hv1 Hv2 Heq).
Qed.

Lemma blank_grid_valid : valid_grid 12 blank_grid.
Proof. apply build_grid_valid. intros y x. lia. Qed.

Lemma demo_grid_not_blank : demo_grid <> blank_grid.
Proof.
  intros H. apply (f_equal (fun g => cell_at g 0 0)) in H.
  vm_compute in H. discriminate H.
Qed.

(** The example grid and the blank grid, which differ in three cells, have
    different previews in both versions. *)
Lemma preview_determines_grid_witness :
  demo_grid <> blank_grid /\
  ServerJs.gridToSvg demo_grid <> ServerJs.gridToSvg blank_grid /\
  BlackBg.gridToSvg demo_grid <> BlackBg.gridToSvg blank_grid.
Proof.
  split; [exact demo_grid_not_blank|].
  exact (preview_determines_grid demo_grid blank_grid demo_grid_valid
           blank_grid_valid demo_grid_not_blank).
Defined.

